(** * Sniffr: the candidate ranking pipeline

  A shallow embedding of the ranking code of the Sniffr browser extension:
  - [scripts/content.js]: candidate extraction and the heuristic scorer,
  - [api/sniffr-proxy.js]: the ranking gateway (rate limiter, cache, prompt),
  - [scripts/background.js]: the relay to the gateway,
  - [scripts/popup.js]: the orchestration of remote ranking and local fallback,
    and the earlier version of this script, which knows the local search only.

  JavaScript strings are modelled as [string], read as sequences of code
  units below 256; the texts of the program that hold units above 255 are
  kept as lists of code units ([Units]).  Numbers that the code only uses
  as integers (scores, counters, millisecond timestamps, indexes) are
  modelled as [Z]. *)

From Stdlib Require Import ZArith Ascii String List Bool Lia DecimalString Sorted.
From stdpp Require Import gmap strings list.

Local Open Scope Z_scope.

(** ** JavaScript string primitives used by the sources *)

Module JsString.

Definition code (c : ascii) : N := N_of_ascii c.

(** White space of [String.prototype.trim] and of the regular expression
    class [\s], restricted to code units below 256: TAB, LF, VT, FF, CR,
    SPACE and NO-BREAK SPACE. *)
Definition is_ws (c : ascii) : bool :=
  let n := code c in
  (((9 <=? n) && (n <=? 13)) || (n =? 32) || (n =? 160))%N.

(** [toLowerCase] on one code unit: A-Z and the Latin-1 capitals
    (U+00C0-U+00DE without the multiplication sign U+00D7) move up by 32. *)
Definition lower_char (c : ascii) : ascii :=
  let n := code c in
  if (((65 <=? n) && (n <=? 90))
      || ((192 <=? n) && (n <=? 222) && negb (n =? 215)))%N
  then ascii_of_N (n + 32) else c.

Fixpoint toLowerCase (s : string) : string :=
  match s with
  | EmptyString => EmptyString
  | String c s' => String (lower_char c) (toLowerCase s')
  end.

Definition is_empty (s : string) : bool :=
  match s with EmptyString => true | _ => false end.

(** A JavaScript string is truthy when it is not empty. *)
Definition truthy (s : string) : bool := negb (is_empty s).

Fixpoint trimStart (s : string) : string :=
  match s with
  | EmptyString => EmptyString
  | String c s' => if is_ws c then trimStart s' else s
  end.

Fixpoint trimEnd (s : string) : string :=
  match s with
  | EmptyString => EmptyString
  | String c s' =>
      let r := trimEnd s' in
      if is_ws c && is_empty r then EmptyString else String c r
  end.

Definition trim (s : string) : string := trimEnd (trimStart s).

(** [s.includes(sub)]: [sub] is a prefix of some suffix of [s]. *)
Fixpoint includes (s sub : string) : bool :=
  String.prefix sub s ||
  match s with
  | EmptyString => false
  | String _ s' => includes s' sub
  end.

(** [s.split(/\s+/)] cuts at every run of white space; here the string is cut
    at every white space unit, which yields the same pieces plus empty ones
    between adjacent white space units.  The sources only use the split
    through [.filter(Boolean)], which drops the empty pieces. *)
Fixpoint split_ws (s : string) : list string :=
  match s with
  | EmptyString => [EmptyString]
  | String c s' =>
      if is_ws c then EmptyString :: split_ws s'
      else match split_ws s' with
           | w :: ws => String c w :: ws
           | [] => [String c EmptyString]
           end
  end.

(** [s.split(/\s+/).filter(Boolean)] *)
Definition words (s : string) : list string := filter (fun w => truthy w) (split_ws s).

(** [s.slice(0, n)] *)
Fixpoint slice0 (n : nat) (s : string) : string :=
  match n, s with
  | S n', String c s' => String c (slice0 n' s')
  | _, _ => EmptyString
  end.

(** [s.replace(/\n/g, " ")] *)
Fixpoint replace_newlines (s : string) : string :=
  match s with
  | EmptyString => EmptyString
  | String c s' =>
      String (if (code c =? 10)%N then " "%char else c) (replace_newlines s')
  end.

(** [s.replace(/\s+/g, " ")]: every run of white space becomes one space. *)
Fixpoint collapse_ws_go (in_run : bool) (s : string) : string :=
  match s with
  | EmptyString => EmptyString
  | String c s' =>
      if is_ws c then
        if in_run then collapse_ws_go true s'
        else String " " (collapse_ws_go true s')
      else String c (collapse_ws_go false s')
  end.
Definition collapse_ws : string -> string := collapse_ws_go false.

(** Matching under the [i] flag of a pattern made of ASCII letters and
    spaces: two code units match when they agree up to case. *)
Definition ci_eq (a b : ascii) : bool :=
  (code (lower_char a) =? code (lower_char b))%N.

Fixpoint ci_prefix (pat s : string) : bool :=
  match pat, s with
  | EmptyString, _ => true
  | String p pat', String c s' => ci_eq p c && ci_prefix pat' s'
  | String _ _, EmptyString => false
  end.

(** [/pat/i.test(s)] for a literal pattern [pat]. *)
Fixpoint ci_includes (s pat : string) : bool :=
  ci_prefix pat s ||
  match s with
  | EmptyString => false
  | String _ s' => ci_includes s' pat
  end.

(** Some white space unit occurs in [s]. *)
Fixpoint has_ws (s : string) : bool :=
  match s with
  | EmptyString => false
  | String c s' => is_ws c || has_ws s'
  end.

(** Decimal rendering of a non-negative index, as in a template literal. *)
Definition of_nat (n : nat) : string := NilEmpty.string_of_uint (Nat.to_uint n).

(** [arr.join(sep)] *)
Fixpoint join (sep : string) (l : list string) : string :=
  match l with
  | [] => EmptyString
  | [x] => x
  | x :: rest => x +:+ sep +:+ join sep rest
  end.

(** The string does not start, respectively end, with white space. *)
Definition starts_ok (s : string) : bool :=
  match s with
  | EmptyString => true
  | String c _ => negb (is_ws c)
  end.

Fixpoint ends_ok (s : string) : bool :=
  match s with
  | EmptyString => true
  | String c EmptyString => negb (is_ws c)
  | String _ s' => ends_ok s'
  end.

(** A string of the program in which code units above 255 occur is kept as
    the list of its code units; a [string] stands for the list of the codes
    of its units. *)
Definition Units := list N.

Definition units (s : string) : Units := map code (list_ascii_of_string s).

Coercion units : string >-> Units.

(** A string given by its code units is truthy when it is not empty. *)
Definition truthy_units (u : Units) : bool :=
  match u with
  | [] => false
  | _ :: _ => true
  end.

(** Every white space unit of [s] is a space that no white space follows. *)
Fixpoint single_spaced (s : string) : bool :=
  match s with
  | EmptyString => true
  | String c s' =>
      (if is_ws c
       then (code c =? 32)%N && match s' with
                                | String d _ => negb (is_ws d)
                                | EmptyString => true
                                end
       else true)
      && single_spaced s'
  end.

(** [s.split("\n")]: the lines of a text. *)
Fixpoint lines (s : string) : list string :=
  match s with
  | EmptyString => [EmptyString]
  | String c s' =>
      if (code c =? 10)%N then EmptyString :: lines s'
      else match lines s' with
           | l :: ls => String c l :: ls
           | [] => [String c EmptyString]
           end
  end.

(** A line feed occurs in [s]. *)
Fixpoint has_lf (s : string) : bool :=
  match s with
  | EmptyString => false
  | String c s' => (code c =? 10)%N || has_lf s'
  end.

End JsString.

Import JsString.

(** ** scripts/content.js: candidate extraction and the heuristic scorer *)

Module Content.

Definition MAX_CANDIDATES : nat := 800.
Definition MAX_RESULTS : nat := 5.
Definition MIN_ACCEPT_SCORE : Z := 8.

Inductive CType := link | button | heading.
Inductive Region := nav | header | footer | upper | body.

Definition type_name (t : CType) : string :=
  match t with link => "link" | button => "button" | heading => "heading" end.

(** What the script reads from a DOM element.  [el_ref] identifies the
    node, so that distinct nodes have distinct references; the other fields
    are the values of the properties, attributes, computed style and
    bounding box the helpers look at.  The elements are those of HTML, SVG
    and MathML, which all have a [style]. *)
Record Element := {
  el_ref : nat;
  el_display : string;
  el_visibility : string;
  el_opacity_zero : bool;          (* parseFloat(style.opacity) === 0 *)
  el_width_zero : bool;            (* rect.width === 0 *)
  el_height_zero : bool;           (* rect.height === 0 *)
  el_innerText : option string;
  el_textContent : option string;
  el_aria_label : option string;
  el_title : option string;
  el_alt : option string;
  el_value : option string;
  el_href : string;
    (* the href property where it is a string, empty when absent *)
  el_href_object : bool;
    (* the href property is an object and no string: the element is an [a]
       of SVG, which [querySelectorAll("a")] returns as well, and its href
       is an SVGAnimatedString *)
  el_href_attr : option string;    (* getAttribute("href") *)
  el_tagName : option string;
  el_chain : list (string * string);
    (* tag name and role attribute of the node and of its ancestors below
       document.body, innermost first *)
  el_top_quarter : bool            (* rect.top < window.innerHeight * 0.25 *)
}.

Record Candidate := {
  c_type : CType;
  c_text : string;
  c_href : option string;
    (* [None] is null; for a link made from an [a] element of SVG, the text
       that stands for the href object, see [anchor_candidate] *)
  c_element : nat;
  c_region : Region;
  c_tagName : string
}.

(** [x || ""] for a string-or-null value. *)
Definition or_empty (o : option string) : string :=
  match o with Some s => s | None => EmptyString end.

(** [x || null] for a string-or-null value. *)
Definition or_null (o : option string) : option string :=
  match o with
  | Some s => if truthy s then Some s else None
  | None => None
  end.

Definition isVisible (el : Element) : bool :=
  if String.eqb (el_display el) "none" || String.eqb (el_visibility el) "hidden"
     || el_opacity_zero el then false
  else if el_width_zero el || el_height_zero el then false
  else true.

Fixpoint region_of_chain (chain : list (string * string)) : option Region :=
  match chain with
  | [] => None
  | (tagName, role_attr) :: up =>
      let tag := toLowerCase tagName in
      let role := toLowerCase role_attr in
      if String.eqb tag "nav" || String.eqb role "navigation" then Some nav
      else if String.eqb tag "header" || String.eqb role "banner" then Some header
      else if String.eqb tag "footer" || String.eqb role "contentinfo" then Some footer
      else region_of_chain up
  end.

Definition getRegion (el : Element) : Region :=
  match region_of_chain (el_chain el) with
  | Some r => r
  | None => if el_top_quarter el then upper else body
  end.

Fixpoint first_readable (props : list (option string)) : string :=
  match props with
  | [] => EmptyString
  | p :: rest =>
      match p with
      | Some s =>
          let t := trim s in
          if truthy t then collapse_ws t else first_readable rest
      | None => first_readable rest
      end
  end.

Definition extractText (el : Element) : string :=
  first_readable
    [el_innerText el; el_textContent el; el_aria_label el;
     el_title el; el_alt el; el_value el].

(** The suffix that [shortSnippet] appends to a cut text: the three code
    units U+00E2, U+20AC and U+00A6 of the literal in the source file. *)
Definition ELLIPSIS : Units := [226; 8364; 166]%N.

(** [text.slice(0, max - 1)]: a negative end counts from the end of the
    text. *)
Definition cut (text : string) (max : nat) : string :=
  match max with
  | O => slice0 (String.length text - 1) text
  | S m => slice0 m text
  end.

Definition shortSnippet (text : string) (max : nat) : Units :=
  if is_empty text then []
  else if (max <? String.length text)%nat
       then units (cut text max) ++ ELLIPSIS else units text.

(** *** Candidate collection *)

Definition candidate_key (obj : Candidate) : string :=
  type_name (c_type obj) +:+ "|" +:+ or_empty (c_href obj) +:+ "|"
    +:+ slice0 60 (c_text obj).

(** The two locals of [getSearchCandidates]: the array and the [seen] set,
    kept as the map that sends each member to [tt]. *)
Record Collected := { candidates : list Candidate; seen : gmap string unit }.

(** [seen.has(key)] *)
Definition seen_has (key : string) (st : Collected) : bool :=
  match seen st !! key with Some _ => true | None => false end.

Definition pushCandidate (obj : Candidate) (st : Collected) : Collected :=
  let key := candidate_key obj in
  if seen_has key st then st
  else {| candidates := candidates st ++ [obj]; seen := <[key := tt]> (seen st) |}.

(** What an href that is an object turns into where [pushCandidate] appends
    it to the key.  An object is truthy, so that [a.href || ...] is the
    object itself; the candidate keeps this text in its place, and
    [href_is_object] below tells such a candidate from the others. *)
Definition OBJECT_HREF : string := "[object SVGAnimatedString]".

Definition anchor_candidate (a : Element) : option Candidate :=
  if negb (isVisible a) then None
  else
    let text := extractText a in
    let href := if el_href_object a then OBJECT_HREF
                else if truthy (el_href a) then el_href a
                else or_empty (el_href_attr a) in
    if negb (truthy text) && negb (truthy href) then None
    else Some {| c_type := link; c_text := text; c_href := Some href;
                 c_element := el_ref a; c_region := getRegion a; c_tagName := "a" |}.

Definition button_candidate (b : Element) : option Candidate :=
  if negb (isVisible b) then None
  else
    let text := extractText b in
    let href := or_empty (el_href_attr b) in
    if negb (truthy text) && negb (truthy href) then None
    else Some {| c_type := button; c_text := text; c_href := or_null (Some href);
                 c_element := el_ref b; c_region := getRegion b;
                 c_tagName := match el_tagName b with
                              | Some t => if truthy t then toLowerCase t else "button"
                              | None => "button"
                              end |}.

Definition heading_candidate (h : Element) : option Candidate :=
  if negb (isVisible h) then None
  else
    let text := extractText h in
    if negb (truthy text) then None
    else Some {| c_type := heading; c_text := text; c_href := None;
                 c_element := el_ref h; c_region := getRegion h;
                 c_tagName := match el_tagName h with
                              | Some t => if truthy t then toLowerCase t else "h"
                              | None => "h"
                              end |}.

(** One [for ... of] loop of [getSearchCandidates]: [None] from [mk] is a
    [continue]; the loop is left by [break] once the array has reached
    [MAX_CANDIDATES] after a push attempt. *)
Fixpoint scan (mk : Element -> option Candidate) (els : list Element)
    (st : Collected) : Collected :=
  match els with
  | [] => st
  | e :: rest =>
      match mk e with
      | None => scan mk rest st
      | Some obj =>
          let st' := pushCandidate obj st in
          if (MAX_CANDIDATES <=? length (candidates st'))%nat then st'
          else scan mk rest st'
      end
  end.

(** The page as the three [querySelectorAll] results, in document order,
    with the two lookups the highlight step makes. *)
Record Page := {
  anchors : list Element;
  buttons : list Element;
  heads : list Element;
  attached : nat -> bool;               (* document.contains(element) *)
  anchor_by_href : string -> option nat; (* querySelector(`a[href="..."]`) *)
  selector_throws : string -> bool
    (* [querySelector] throws a SyntaxError on the selector made of this
       href, which is not escaped: a quote, a backslash or a line break in
       it can make the selector invalid *)
}.

Definition getSearchCandidates (page : Page) : list Candidate :=
  let st := {| candidates := []; seen := ∅ |} in
  let st := scan anchor_candidate (anchors page) st in
  let st := scan button_candidate (buttons page) st in
  let st := scan heading_candidate (heads page) st in
  candidates st.

(** The identity of a candidate for the de-duplication. *)
Definition identity (c : Candidate) : CType * string * string :=
  (c_type c, or_empty (c_href c), slice0 60 (c_text c)).

(** The keys of the collected candidates are pairwise distinct and all in
    the [seen] set. *)
Definition collected_ok (st : Collected) : Prop :=
  NoDup (map candidate_key (candidates st))
  /\ forall c, In c (candidates st) -> seen st !! candidate_key c = Some tt.

(** *** Scoring *)

Definition navKeywords : list string :=
  ["portal"; "login"; "log in"; "sign in"; "account"; "dashboard"; "student";
   "admissions"; "apply"; "register"; "registration"; "calendar"; "schedule";
   "billing"; "payment"; "pay"; "contact"; "support"; "help"; "courses";
   "classes"; "portal"].

(** The keywords that are listed once. *)
Definition otherKeywords : list string :=
  filter (fun kw => kw <> "portal") navKeywords.

(** Body of [words.forEach]. *)
Definition wordStep (text href : string) (score : Z) (w : string) : Z :=
  if is_empty w then score
  else
    let score :=
      if String.eqb text w then score + 7
      else if includes text w then score + 5 else score in
    if includes href w then score + 3 else score.

(** Body of [navKeywords.forEach]. *)
Definition keywordStep (text href q : string) (score : Z) (kw : string) : Z :=
  if is_empty kw then score
  else
    let score :=
      if includes text kw || includes href kw then score + 2 else score in
    if includes q kw && (includes text kw || includes href kw)
    then score + 3 else score.

Definition regionBonus (r : Region) (score : Z) : Z :=
  match r with
  | nav => score + 11
  | header => score + 6
  | upper => score + 4
  | footer => score - 5
  | body => score
  end.

(** [/click here|read more|learn more/i.test(text)] *)
Definition generic_label (text : string) : bool :=
  ci_includes text "click here" || ci_includes text "read more"
  || ci_includes text "learn more".

(** [scoreCandidate] with the keyword list as a parameter, for a candidate
    whose [href] is a string or null; where the [href] of a link is an
    object the function throws, which [onMessage] accounts for. *)
Definition scoreCandidateWith (keywords : list string)
    (candidate : Candidate) (query : string) : Z :=
  let q := trim (toLowerCase query) in
  if is_empty q then 0
  else
    let text := toLowerCase (c_text candidate) in
    let href := toLowerCase (or_empty (c_href candidate)) in
    let ws := words q in
    let score := 0 in
    let score := if String.eqb text q then score + 22 else score in
    let score := if includes text q then score + 14 else score in
    let score := fold_left (wordStep text href) ws score in
    let score := if includes href q then score + 7 else score in
    let score := fold_left (keywordStep text href q) keywords score in
    let score := regionBonus (c_region candidate) score in
    let score :=
      match c_type candidate with heading => score + 3 | _ => score end in
    let len := if truthy (c_text candidate)
               then Z.of_nat (String.length (c_text candidate)) else 0 in
    let score :=
      if (0 <? len) && (len <=? 30) then score + 5
      else if 70 <? len then score - 3 else score in
    let score := if generic_label (c_text candidate) then score - 2 else score in
    score.

Definition scoreCandidate : Candidate -> string -> Z :=
  scoreCandidateWith navKeywords.

(** The candidate [c] moved to the region [r]. *)
Definition with_region (c : Candidate) (r : Region) : Candidate :=
  {| c_type := c_type c; c_text := c_text c; c_href := c_href c;
     c_element := c_element c; c_region := r; c_tagName := c_tagName c |}.

(** *** The message handler *)

Record Scored := {
  s_score : Z;
  s_type : CType;
  s_text : string;
  s_href : option string;
  s_region : Region;
  s_tagName : string;
  s_element : nat
}.

Record Result := {
  r_score : Z;
  r_type : CType;
  r_text : Units;
  r_href : option string;
  r_region : Region;
  r_tagName : string
}.

Record SearchResponse := { found : bool; results : list Result }.

(** The object pushed on [scored] for a candidate of score [s]. *)
Definition scored_of (c : Candidate) (s : Z) : Scored :=
  {| s_score := s; s_type := c_type c; s_text := c_text c;
     s_href := or_null (c_href c); s_region := c_region c;
     s_tagName := c_tagName c; s_element := c_element c |}.

Definition scoreAll (cands : list Candidate) (query : string) : list Scored :=
  fold_left
    (fun scored c =>
       let s := scoreCandidate c query in
       if 0 <? s then scored ++ [scored_of c s] else scored)
    cands [].

(** [scored.sort((a, b) => b.score - a.score)]: the sort of the array is
    stable, so it is the insertion of every element, last first, in front
    of the first element whose score is not greater. *)
Fixpoint insert_desc (x : Scored) (l : list Scored) : list Scored :=
  match l with
  | [] => [x]
  | y :: l' =>
      if s_score x <? s_score y then y :: insert_desc x l' else x :: y :: l'
  end.

Definition sort_desc (l : list Scored) : list Scored :=
  fold_right insert_desc [] l.

(** The order of a list sorted by descending score. *)
Definition desc (a b : Scored) : Prop := s_score b <= s_score a.

Definition pickResults (scored : list Scored) : list Scored :=
  firstn MAX_RESULTS
    (filter (fun r => MIN_ACCEPT_SCORE <= s_score r) (sort_desc scored)).

(** The element outlined by the handler, if any. *)
Definition highlightTarget (page : Page) (best : Scored) : option nat :=
  if attached page (s_element best) then Some (s_element best)
  else match s_href best with
       | Some h => anchor_by_href page h
       | None => None
       end.

Definition serialize (r : Scored) : Result :=
  {| r_score := s_score r; r_type := s_type r;
     r_text := shortSnippet (s_text r) 120; r_href := s_href r;
     r_region := s_region r; r_tagName := s_tagName r |}.

Record Message := { m_type : string; m_query : option string }.

(** The candidate is a link whose [href] is an object: it was made from an
    [a] element of SVG.  On such a candidate [scoreCandidate] throws a
    TypeError at [(candidate.href || "").toLowerCase()], once it has found
    that the query is not blank. *)
Definition href_is_object (page : Page) (c : Candidate) : bool :=
  match c_type c with
  | link =>
      existsb (fun a => el_href_object a && (el_ref a =? c_element c)%nat)
        (anchors page)
  | _ => false
  end.

(** The lookup by href throws: the element of the best result is no longer
    in the document, and [querySelector] refuses the selector made of its
    href. *)
Definition lookup_throws (page : Page) (best : Scored) : bool :=
  negb (attached page (s_element best))
  && match s_href best with
     | Some h => selector_throws page h
     | None => false
     end.

(** The [chrome.runtime.onMessage] listener: the response passed to
    [sendResponse] and the element it highlights.  There is no response
    ([None]) when the listener returns without answering, and when it
    throws: in the scoring loop, which scores every collected candidate,
    or in the lookup by href; both come before [sendResponse] and before
    any highlight. *)
Definition onMessage (page : Page) (message : Message)
    : option SearchResponse * option nat :=
  if negb (String.eqb (m_type message) "sniffr-search") then (None, None)
  else
    let query := trim (or_empty (m_query message)) in
    if negb (truthy query) then (Some {| found := false; results := [] |}, None)
    else
      let cands := getSearchCandidates page in
      if existsb (href_is_object page) cands then (None, None)
      else
        let scored := scoreAll cands query in
        let res := pickResults scored in
        match res with
        | best :: _ =>
            if lookup_throws page best then (None, None)
            else (Some {| found := true; results := map serialize res |},
                  highlightTarget page best)
        | [] => (Some {| found := false; results := [] |}, None)
        end.

(** *** Landmarks *)

(** The landmark that a node is by its tag name or its role, as tested in
    the loop of [getRegion]. *)
Definition landmark_of (node : string * string) : option Region :=
  let tag := toLowerCase node.1 in
  let role := toLowerCase node.2 in
  if String.eqb tag "nav" || String.eqb role "navigation" then Some nav
  else if String.eqb tag "header" || String.eqb role "banner" then Some header
  else if String.eqb tag "footer" || String.eqb role "contentinfo" then Some footer
  else None.

(** A source of [extractText] that yields no label: absent, or empty once
    trimmed. *)
Definition blank (p : option string) : bool :=
  match p with
  | Some s => is_empty (trim s)
  | None => true
  end.

(** The six sources of [extractText], in the order in which they are tried. *)
Definition sources (el : Element) : list (option string) :=
  [el_innerText el; el_textContent el; el_aria_label el;
   el_title el; el_alt el; el_value el].

(** The elements that the loop for the candidates of type [t] runs over. *)
Definition group (page : Page) (t : CType) : list Element :=
  match t with
  | link => anchors page
  | button => buttons page
  | heading => heads page
  end.

(** *** The highlight *)

(** What [highlightElement] reads and writes of an element: the inline
    outline and its offset, read back as they were assigned, and the
    attribute [data-sniffr-prev-outline] ([None] when it is not set). *)
Record Styled := {
  outline : string;
  outlineOffset : string;
  prev_outline : option string
}.

Definition HIGHLIGHT : string := "3px solid #ffa424".

(** The synchronous part of [highlightElement]. *)
Definition highlightElement (el : Styled) : Styled :=
  let prev := or_empty (prev_outline el) in
  let saved := if negb (truthy prev) then Some (outline el) else prev_outline el in
  {| outline := HIGHLIGHT; outlineOffset := "4px"; prev_outline := saved |}.

(** The callback that [highlightElement] hands to [setTimeout]. *)
Definition restoreOutline (el : Styled) : Styled :=
  match prev_outline el with
  | Some prevOutline =>
      {| outline := prevOutline; outlineOffset := outlineOffset el;
         prev_outline := None |}
  | None => el
  end.

(** What happens to one element over time: it is highlighted, or a timer
    set by an earlier highlight fires. *)
Inductive Step := Highlight | TimerFires.

Definition step (el : Styled) (s : Step) : Styled :=
  match s with
  | Highlight => highlightElement el
  | TimerFires => restoreOutline el
  end.

Definition run (steps : list Step) (el : Styled) : Styled := fold_left step steps el.

(** The timers still to fire after [steps] when [n] were set before;
    [None] when a timer fires that no highlight has set. *)
Fixpoint pending (n : nat) (steps : list Step) : option nat :=
  match steps with
  | [] => Some n
  | Highlight :: rest => pending (S n) rest
  | TimerFires :: rest =>
      match n with
      | S n' => pending n' rest
      | O => None
      end
  end.

(** The two states of an element whose own outline is [o]: nothing is
    saved and the element shows [o], or [o] is saved and the element shows
    the highlight. *)
Definition settled (o : string) (el : Styled) : Prop :=
  prev_outline el = None /\ outline el = o.

Definition lit (o : string) (el : Styled) : Prop :=
  prev_outline el = Some o /\ outline el = HIGHLIGHT.

(** A [sniffr-search] message. *)
Definition searchMessage (query : string) : Message :=
  {| m_type := "sniffr-search"; m_query := Some query |}.

End Content.

(** ** api/sniffr-proxy.js: the ranking gateway *)

Module Proxy.

Definition MAX_PER_WINDOW : Z := 120.
Definition WINDOW_MS : Z := 60 * 1000.
Definition CACHE_TTL_MS : Z := 30 * 1000.

(** *** Data *)

(** A candidate as it travels in the request body: [{text?, href?, type?}]. *)
Record WireCandidate := {
  w_text : option string;
  w_href : option string;
  w_type : option string
}.

(** The [index] member of a decoded reply: missing or not a number, an
    integer, or a number that is not an integer and lies strictly between
    [fl] and [fl + 1]. *)
Inductive IndexField :=
| IdxMissing
| IdxInt (z : Z)
| IdxFrac (fl : Z).

(** What the callers read of the object decoded from the remote reply. *)
Record Parsed := { p_index : IndexField; p_reason : option string }.

Record CachedValue := { cv_raw : string; cv_parsed : option Parsed }.
Record CacheEntry := { value : CachedValue; expiresAt : Z }.
Record RateEntry := { count : Z; resetAt : Z }.

(** The two module-level maps. *)
Record State := {
  CACHE : gmap string CacheEntry;
  RATE : gmap string RateEntry
}.

Record Body := {
  b_query : option string;
  b_candidates : option (list WireCandidate)   (* [None]: not an array *)
}.

Record Request := {
  req_method : string;
  req_x_forwarded_for : option string;
  req_x_real_ip : option string;
  req_remoteAddress : option string;
  req_body : option Body
}.

Inductive RespBody :=
| ErrorBody (error : string)
| RankBody (cached : bool) (raw : string) (parsed : option Parsed).

Record Response := {
  status : Z;
  retry_after : option Z;      (* the Retry-After header *)
  resp_body : RespBody
}.

(** The outcome of the [fetch] to the completion endpoint. *)
Inductive FetchResult :=
| NetworkError (msg : string)                 (* fetch rejects *)
| HttpError (code : nat) (text : string)      (* resp.ok is false *)
| BadBody (msg : string)                      (* resp.json() rejects *)
| Completion (content : option string).       (* choices[0].message.content *)

(** What the handler takes from its environment: the configured key, the
    remote completion service and the host's [JSON.parse], restricted to
    what is read from its result ([None] when it throws). *)
Record Env := {
  OPENAI_KEY : option string;
  remote : string -> FetchResult;
  JSON_parse : string -> option Parsed
}.

(** The readings of [now()] during one request: in [rateCheck], at the next
    call of the synchronous part (the Retry-After header or [cacheGet]) and
    in [cacheSet] after the remote call has returned. *)
Record Clock := { t_rate : Z; t_check : Z; t_store : Z }.

(** *** Helpers *)

Definition opt_truthy (o : option string) : option string :=
  match o with
  | Some s => if truthy s then Some s else None
  | None => None
  end.

Definition or_else (o : option string) (d : string) : string :=
  match opt_truthy o with Some s => s | None => d end.

(** [s.split(',')[0]] *)
Fixpoint before_comma (s : string) : string :=
  match s with
  | EmptyString => EmptyString
  | String c s' => if (code c =? 44)%N then EmptyString else String c (before_comma s')
  end.

Definition getClientIp (req : Request) : string :=
  match opt_truthy (req_x_forwarded_for req) with
  | Some xf => trim (before_comma xf)
  | None =>
      match opt_truthy (req_x_real_ip req) with
      | Some ip => ip
      | None => or_else (req_remoteAddress req) "unknown"
      end
  end.

Definition cacheGet (key : string) (now : Z) (st : State)
    : option CachedValue * State :=
  match CACHE st !! key with
  | None => (None, st)
  | Some e =>
      if expiresAt e <? now
      then (None, {| CACHE := delete key (CACHE st); RATE := RATE st |})
      else (Some (value e), st)
  end.

Definition cacheSet (key : string) (v : CachedValue) (ttl : Z) (now : Z)
    (st : State) : State :=
  {| CACHE := <[key := {| value := v; expiresAt := now + ttl |}]> (CACHE st);
     RATE := RATE st |}.

Record RateResult := { rr_ok : bool; rr_remaining : Z; rr_resetAt : Z }.

Definition rateCheck (ip : string) (t : Z) (st : State) : RateResult * State :=
  let fresh :=
    ({| rr_ok := true; rr_remaining := MAX_PER_WINDOW - 1; rr_resetAt := t + WINDOW_MS |},
     {| CACHE := CACHE st;
        RATE := <[ip := {| count := 1; resetAt := t + WINDOW_MS |}]> (RATE st) |}) in
  match RATE st !! ip with
  | None => fresh
  | Some entry =>
      if resetAt entry <? t then fresh
      else if MAX_PER_WINDOW <=? count entry then
        ({| rr_ok := false; rr_remaining := 0; rr_resetAt := resetAt entry |}, st)
      else
        ({| rr_ok := true; rr_remaining := MAX_PER_WINDOW - (count entry + 1);
            rr_resetAt := resetAt entry |},
         {| CACHE := CACHE st;
            RATE := <[ip := {| count := count entry + 1; resetAt := resetAt entry |}]>
                      (RATE st) |})
  end.

(** [callOpenAI]: the assistant text, or the message of the error thrown;
    with it, the prompts handed to [fetch]. *)
Definition callOpenAI (env : Env) (prompt : string)
    : (string + string) * list string :=
  match opt_truthy (OPENAI_KEY env) with
  | None => (inr "Error: OPENAI_KEY environment variable is not set on server.", [])
  | Some _ =>
      (match remote env prompt with
       | NetworkError msg => inr msg
       | HttpError c text =>
           inr ("Error: OpenAI error " +:+ of_nat c +:+ ": " +:+ text)
       | BadBody msg => inr msg
       | Completion content => inl (or_else content "")
       end, [prompt])
  end.

(** *** The cache key: [JSON.stringify] of [{q, c: [{t, h}, ...]}] *)

Definition dquote : ascii := "034".
Definition backslash : ascii := "092".

Definition hex_digit (n : N) : ascii :=
  if (n <? 10)%N then ascii_of_N (48 + n) else ascii_of_N (87 + n).

(** The escape of one code unit in a JSON string literal. *)
Definition escape_unit (c : ascii) : string :=
  let n := code c in
  if (n =? 34)%N then String backslash (String dquote "")
  else if (n =? 92)%N then String backslash (String backslash "")
  else if (n =? 8)%N then String backslash "b"
  else if (n =? 9)%N then String backslash "t"
  else if (n =? 10)%N then String backslash "n"
  else if (n =? 12)%N then String backslash "f"
  else if (n =? 13)%N then String backslash "r"
  else if (n <? 32)%N then
    String backslash
      (String "u" (String "0" (String "0"
        (String (hex_digit (n / 16)) (String (hex_digit (n mod 16)) "")))))
  else String c "".

Fixpoint escape (s : string) : string :=
  match s with
  | EmptyString => EmptyString
  | String c s' => escape_unit c +:+ escape s'
  end.

(** [JSON.stringify(s)] for a string [s]. *)
Definition json_quote (s : string) : string :=
  String dquote (escape s +:+ String dquote "").

(** What the key keeps of a candidate: [{t: c.text || "", h: c.href || ""}]. *)
Definition key_pair (c : WireCandidate) : string * string :=
  (or_else (w_text c) "", or_else (w_href c) "").

Definition key_item (c : WireCandidate) : string :=
  "{" +:+ json_quote "t" +:+ ":" +:+ json_quote (or_else (w_text c) "") +:+ ","
    +:+ json_quote "h" +:+ ":" +:+ json_quote (or_else (w_href c) "") +:+ "}".

Definition cacheKey (query : string) (cands : list WireCandidate) : string :=
  "{" +:+ json_quote "q" +:+ ":" +:+ json_quote query +:+ ","
    +:+ json_quote "c" +:+ ":[" +:+ join "," (map key_item (firstn 60 cands)) +:+ "]}".

(** *** The prompt *)

Definition prompt_line (i : nat) (c : WireCandidate) : string :=
  let label := slice0 240 (replace_newlines (or_else (w_text c) "")) in
  let href := or_else (w_href c) "(no href)" in
  of_nat i +:+ " | " +:+ or_else (w_type c) "" +:+ " | " +:+ String dquote label
    +:+ String dquote " | " +:+ href.

(** The loop [for (let i = 0; i < Math.min(candidates.length, 80); i++)]. *)
Fixpoint prompt_lines (i : nat) (fuel : nat) (cands : list WireCandidate)
    : list string :=
  match fuel, cands with
  | S fuel', c :: rest => prompt_line i c :: prompt_lines (S i) fuel' rest
  | _, _ => []
  end.

Definition LF : string := String "010" "".

Definition buildPrompt (query : string) (cands : list WireCandidate) : string :=
  let lines :=
    ["User query: " +:+ String dquote (replace_newlines query) +:+ String dquote "";
     "Candidates (index | type | label | href):"]
    ++ prompt_lines 0 80 cands
    ++ ["Return JSON ONLY: {" +:+ json_quote "index" +:+ ": <best_index_or_-1>, "
          +:+ json_quote "reason" +:+ ":" +:+ json_quote "brief 1-2 sentence reason"
          +:+ "}"] in
  join LF lines.

(** *** Decoding the reply *)

(** [s.indexOf(c)] *)
Fixpoint indexOf (c : ascii) (s : string) : option nat :=
  match s with
  | EmptyString => None
  | String d s' =>
      if (code d =? code c)%N then Some 0%nat
      else match indexOf c s' with Some i => Some (S i) | None => None end
  end.

(** [s.lastIndexOf(c)] *)
Fixpoint lastIndexOf (c : ascii) (s : string) : option nat :=
  match s with
  | EmptyString => None
  | String d s' =>
      match lastIndexOf c s' with
      | Some i => Some (S i)
      | None => if (code d =? code c)%N then Some 0%nat else None
      end
  end.

(** [s.slice(start, stop)] for [start <= stop] *)
Fixpoint slice (start stop : nat) (s : string) : string :=
  match start, s with
  | O, _ => slice0 stop s
  | S start', String _ s' => slice start' (stop - 1) s'
  | S _, EmptyString => EmptyString
  end.

Definition parseReply (env : Env) (assistantText : string) : option Parsed :=
  let s := assistantText in
  match indexOf "{" s, lastIndexOf "}" s with
  | Some start, Some stop =>
      if (start <=? stop)%nat then JSON_parse env (slice start (stop + 1) s)
      else None
  | _, _ => None
  end.

(** *** The handler *)

Definition error_response (code : Z) (msg : string) : Response :=
  {| status := code; retry_after := None; resp_body := ErrorBody msg |}.

(** [Math.ceil(ms / 1000)] on an integer number of milliseconds. *)
Definition ceil_seconds (ms : Z) : Z := - ((- ms) / 1000).

(** Where the synchronous part of the handler stops: with a response, or at
    the [await] of the remote call, holding the cache key and the prompt. *)
Inductive Progress :=
| Done (resp : Response)
| Awaiting (key : string) (prompt : string).

Definition handlerBegin (clk : Clock) (req : Request) (st : State)
    : Progress * State :=
  if negb (String.eqb (req_method req) "POST")
  then (Done (error_response 405 "Method Not Allowed"), st)
  else
    let ip := getClientIp req in
    let '(rate, st) := rateCheck ip (t_rate clk) st in
    if negb (rr_ok rate) then
      (Done {| status := 429;
               retry_after := Some (ceil_seconds (rr_resetAt rate - t_check clk));
               resp_body := ErrorBody "Rate limit exceeded" |}, st)
    else
      let b := match req_body req with
               | Some b => b
               | None => {| b_query := None; b_candidates := None |}
               end in
      match opt_truthy (b_query b), b_candidates b with
      | Some query, Some cands =>
          let key := cacheKey query cands in
          let '(hit, st) := cacheGet key (t_check clk) st in
          match hit with
          | Some v =>
              (Done {| status := 200; retry_after := None;
                       resp_body := RankBody true (cv_raw v) (cv_parsed v) |}, st)
          | None => (Awaiting key (buildPrompt query cands), st)
          end
      | _, _ =>
          (Done (error_response 400
                   "Bad request: expected JSON { query, candidates[] }"), st)
      end.

(** The part of the handler after the [await]. *)
Definition handlerResume (env : Env) (clk : Clock) (key : string)
    (outcome : string + string) (st : State) : Response * State :=
  match outcome with
  | inr err => (error_response 500 err, st)
  | inl assistantText =>
      let parsed := parseReply env assistantText in
      let result := {| cv_raw := assistantText; cv_parsed := parsed |} in
      let st := cacheSet key result CACHE_TTL_MS (t_store clk) st in
      ({| status := 200; retry_after := None;
          resp_body := RankBody false assistantText parsed |}, st)
  end.

(** One request handled with no other request in between: the response,
    the maps afterwards and the prompts sent to the remote service. *)
Definition handler (env : Env) (clk : Clock) (req : Request) (st : State)
    : Response * State * list string :=
  match handlerBegin clk req st with
  | (Done resp, st) => (resp, st, [])
  | (Awaiting key prompt, st) =>
      let '(outcome, calls) := callOpenAI env prompt in
      let '(resp, st) := handlerResume env clk key outcome st in
      (resp, st, calls)
  end.

Definition initial : State := {| CACHE := ∅; RATE := ∅ |}.

(** Requests handled one after the other, each with its environment and
    clock readings. *)
Fixpoint serve (jobs : list (Env * Clock * Request)) (st : State)
    : list Response * State :=
  match jobs with
  | [] => ([], st)
  | (env, clk, req) :: rest =>
      let '(resp, st, _) := handler env clk req st in
      let '(resps, st) := serve rest st in
      (resp :: resps, st)
  end.

(** The body fails the shape test of the handler: [!query ||
    !Array.isArray(candidates)]. *)
Definition malformed (req : Request) : bool :=
  match req_body req with
  | None => true
  | Some b =>
      match opt_truthy (b_query b), b_candidates b with
      | Some _, Some _ => false
      | _, _ => true
      end
  end.

(** A POST request of the client [ip]. *)
Definition post_from (ip : string) (job : Env * Clock * Request) : bool :=
  String.eqb (req_method job.2) "POST" && String.eqb (getClientIp job.2) ip.

(** The request is a POST whose body holds [query] and [cands]. *)
Definition asks (req : Request) (query : string) (cands : list WireCandidate) : Prop :=
  String.eqb (req_method req) "POST" = true
  /\ req_body req = Some {| b_query := Some query; b_candidates := Some cands |}
  /\ truthy query = true.

(** The answer served from the cache. *)
Definition cached_response (v : CachedValue) : Response :=
  {| status := 200; retry_after := None;
     resp_body := RankBody true (cv_raw v) (cv_parsed v) |}.

(** No window of [ip] is running at time [t]. *)
Definition window_closed (ip : string) (t : Z) (st : State) : bool :=
  match RATE st !! ip with
  | Some e => resetAt e <? t
  | None => true
  end.

(** Every counter of the rate limiter lies between 1 and the ceiling. *)
Definition rate_bounded (st : State) : Prop :=
  forall ip e, RATE st !! ip = Some e -> 1 <= count e <= MAX_PER_WINDOW.

(** The answer carries a judgment obtained from the remote service for this
    request. *)
Definition freshly_ranked (resp : Response) : bool :=
  match resp_body resp with
  | RankBody false _ _ => status resp =? 200
  | _ => false
  end.

End Proxy.

(** ** scripts/background.js: the relay to the gateway *)

Module Background.

(** What [proxyToServer] meets: the gateway answered (its JSON body is
    returned whatever the status), or the request or the decoding of the
    answer failed. *)
Inductive Delivery :=
| Delivered (resp : Proxy.Response)
| Failed (error : string).

(** The [server-rank] reply: [{ok: true, server}] or [{ok: false, error}]. *)
Inductive RankReply :=
| RankOk (server : Proxy.RespBody)
| RankError (error : string).

(** [proxyToServer]: the decoded JSON body of the answer, or the error
    thrown. *)
Definition proxyToServer (d : Delivery) : Proxy.RespBody + string :=
  match d with
  | Delivered resp => inl (Proxy.resp_body resp)
  | Failed error => inr error
  end.

(** The listener for [server-rank] messages. *)
Definition serverRank (d : Delivery) : RankReply :=
  match proxyToServer d with
  | inl resp => RankOk resp
  | inr err => RankError err
  end.

End Background.

(** ** scripts/popup.js: the orchestration of one query *)

Module Popup.

Import Proxy.

(** The answer of a collaborator reached through a promise. *)
Inductive Reply (A : Type) :=
| Rejected
| Resolved (a : A).
Arguments Rejected {A}.
Arguments Resolved {A} a.

(** The reply to a [sniffr-search] message as the popup reads it: the list
    format of the content script and the older single-object format. *)
Record SearchReply := {
  sr_found : bool;
  sr_results : option (list Content.Result);   (* [None]: not an array *)
  sr_text : option string;
  sr_score : option Z;
  sr_href : option string
}.

Inductive Item :=
| Listed (r : Content.Result)
| Legacy (score : Z) (text : string) (href : option string).

Record Normalized := { n_found : bool; n_results : list Item }.

(** The collaborators of [performSearch]. *)
Record World := {
  activeTab : Reply unit;
  candidatesReply : Reply (option (list WireCandidate));
    (* the [candidates] member of the reply, [None] when it is not an array *)
  searchReply : string -> Reply (option SearchReply);
  rankReply : string -> list WireCandidate -> Reply (option Background.RankReply)
}.

(** What [performSearch] does, in order. *)
Inductive Event :=
| UserMessage (text : string)
| AskCandidates
| AskSearch (query : string)
| AskRank (query : string) (cands : list WireCandidate)
| ShowPicked (label : option string) (reason : string) (open : option string)
    (* [label]: the value of [best.text || best.href], [None] when it is
       not a string *)
| ShowNoConfidentMatch (detail : string)
| RenderResults (query : string) (normalized : Normalized)
| ShowCouldNotSniff.

Definition normalize (fallback : option SearchReply) : Normalized :=
  match fallback with
  | Some f =>
      if sr_found f then
        match sr_results f with
        | Some rs => {| n_found := true; n_results := map Listed rs |}
        | None =>
            match opt_truthy (sr_text f) with
            | Some t =>
                {| n_found := true;
                   n_results :=
                     [Legacy (match sr_score f with
                              | Some s => if s =? 0 then 20 else s
                              | None => 20
                              end) t (opt_truthy (sr_href f))] |}
            | None => {| n_found := false; n_results := [] |}
            end
        end
      else {| n_found := false; n_results := [] |}
  | None => {| n_found := false; n_results := [] |}
  end.

(** The score badge of [renderResults]:
    [Math.min(100, Math.max(0, Math.round((score / 35) * 100)))]. *)
Definition confidencePercent (score : Z) : Z :=
  Z.min 100 (Z.max 0 ((200 * score + 35) / 70)).

(** The local-scoring request with its rendering, shared by every fallback
    branch; a rejected request ends in the outer [catch]. *)
Definition localFallback (w : World) (text : string) : list Event :=
  AskSearch text ::
  match searchReply w text with
  | Rejected => [ShowCouldNotSniff]
  | Resolved fallback => [RenderResults text (normalize fallback)]
  end.

(** [serverData.parsed ? serverData.parsed : null] and
    [serverData.raw ? serverData.raw : ""]; an error body has neither member. *)
Definition parsed_of (serverData : RespBody) : option Parsed :=
  match serverData with
  | RankBody _ _ p => p
  | ErrorBody _ => None
  end.

Definition raw_of (serverData : RespBody) : string :=
  match serverData with
  | RankBody _ r _ => r
  | ErrorBody _ => EmptyString
  end.

(** [parsed && typeof parsed.index === "number" && parsed.index >= 0 &&
    parsed.index < candidates.length] *)
Definition confident (parsed : option Parsed) (cands : list WireCandidate) : bool :=
  match parsed with
  | None => false
  | Some p =>
      match p_index p with
      | IdxMissing => false
      | IdxInt z => (0 <=? z) && (z <? Z.of_nat (length cands))
      | IdxFrac fl => (0 <=? fl) && (fl <? Z.of_nat (length cands))
      end
  end.

(** The judgment is absent, or its index is absent, negative (-1 is the
    "no match" answer), or at or past the end of a list of [n] candidates. *)
Definition no_usable_index (parsed : option Parsed) (n : nat) : bool :=
  match parsed with
  | None => true
  | Some p =>
      match p_index p with
      | IdxMissing => true
      | IdxInt z => (z <? 0) || (Z.of_nat n <=? z)
      | IdxFrac fl => (fl <? 0) || (Z.of_nat n <=? fl)
      end
  end.

(** [candidates[parsed.index]]: [None] is [undefined]. *)
Definition pick (parsed : Parsed) (cands : list WireCandidate) : option WireCandidate :=
  match p_index parsed with
  | IdxInt z => if 0 <=? z then cands !! Z.to_nat z else None
  | _ => None
  end.

Definition performSearch (w : World) (query : string) : list Event :=
  if negb (truthy query) || negb (truthy (trim query)) then []
  else
    let text := trim query in
    UserMessage text ::
    match activeTab w with
    | Rejected => [ShowCouldNotSniff]
    | Resolved _ =>
        AskCandidates ::
        match candidatesReply w with
        | Rejected => localFallback w text
        | Resolved candidatesResp =>
            let candidates :=
              match candidatesResp with
              | Some cs => firstn 80 cs
              | None => []
              end in
            if (length candidates =? 0)%nat then localFallback w text
            else
              AskRank text candidates ::
              let serverResp :=
                match rankReply w text candidates with
                | Rejected => None
                | Resolved r => r
                end in
              match serverResp with
              | Some (Background.RankOk serverData) =>
                  let parsed := parsed_of serverData in
                  let raw := raw_of serverData in
                  if confident parsed candidates then
                    match parsed with
                    | Some p =>
                        match pick p candidates with
                        | Some best =>
                            let label := match opt_truthy (w_text best) with
                                         | Some t => Some t
                                         | None => w_href best
                                         end in
                            [AskSearch (or_else (w_text best) (or_else (w_href best) text));
                             ShowPicked label (or_else (p_reason p) "")
                               (opt_truthy (w_href best))]
                        | None => [ShowCouldNotSniff]
                        end
                    | None => [ShowCouldNotSniff]
                    end
                  else
                    ShowNoConfidentMatch
                      (if truthy raw then raw
                       else match parsed with
                            | Some p => or_else (p_reason p) ""
                            | None => EmptyString
                            end)
                    :: localFallback w text
              | _ => localFallback w text
              end
        end
    end.

(** The events in which the popup announces a pick of the remote stage. *)
Definition is_pick (e : Event) : bool :=
  match e with
  | ShowPicked _ _ _ => true
  | _ => false
  end.

(** The popup of a user whose page yields [cands] and whose rank requests
    reach a gateway in state [st] through the relay. *)
Definition throughGateway (env : Env) (clk : Clock) (st : State)
    (request : string -> list WireCandidate -> Request)
    (cands : list WireCandidate) (search : string -> Reply (option SearchReply))
    : World :=
  {| activeTab := Resolved tt;
     candidatesReply := Resolved (Some cands);
     searchReply := search;
     rankReply := fun query cs =>
       Resolved (Some (Background.serverRank
                         (Background.Delivered
                            (handler env clk (request query cs) st).1.1))) |}.

(** *** What the popup shows *)

(** The events that end the handling of a query with an answer to the
    user. *)
Definition is_final (e : Event) : bool :=
  match e with
  | ShowPicked _ _ _ | RenderResults _ _ | ShowCouldNotSniff => true
  | _ => false
  end.

Definition is_rank (e : Event) : bool :=
  match e with
  | AskRank _ _ => true
  | _ => false
  end.

Definition is_search (e : Event) : bool :=
  match e with
  | AskSearch _ => true
  | _ => false
  end.

Definition item_score (i : Item) : Z :=
  match i with
  | Listed r => Content.r_score r
  | Legacy score _ _ => score
  end.

Definition item_text (i : Item) : Units :=
  match i with
  | Listed r => Content.r_text r
  | Legacy _ text _ => units text
  end.

Definition item_href (i : Item) : option string :=
  match i with
  | Listed r => Content.r_href r
  | Legacy _ _ href => href
  end.

(** One entry of the list built by [renderResults]: the text and the title
    of the label, the percentage on the badge and the href behind the Open
    button. *)
Record Row := {
  row_label : Units;
  row_title : Units;
  row_percent : Z;
  row_href : option string
}.

(** [r.text || r.href || placeholder] *)
Definition label_of (i : Item) (placeholder : string) : Units :=
  if truthy_units (item_text i) then item_text i
  else units (or_else (item_href i) placeholder).

Definition row_of (i : Item) : Row :=
  {| row_label := label_of i "(no label)";
     row_title := label_of i "Open";
     row_percent := confidencePercent (item_score i);
     row_href := item_href i |}.

(** What [renderResults] adds to the chat: the text that nothing was found,
    or the list of the matches. *)
Inductive Rendered :=
| NothingFound (text : Units)
| Matches (rows : list Row).

(** The symbol that ends the nothing-found text: U+1F43E, as its two
    surrogates, in the popup; the units U+00F0, U+0178 and U+00BE in the
    earlier popup. *)
Definition PAW : Units := [55357; 56382]%N.
Definition LEGACY_PAW : Units := [240; 376; 190]%N.

Definition nothingFoundText (paw : Units) (query : string) : Units :=
  units ("I sniffed around but couldn't find anything matching "
         +:+ String "034" (query +:+ String "034"
               " on this page. Try rephrasing or being more specific. "))
  ++ paw.

(** [renderResults(query, tabUrl, response)] for a response object with
    the members [found] and [results]; [results] is [None] when the member
    is not an array.  The function is the same in the two popups but for
    the symbol [paw] that ends its nothing-found text. *)
Definition renderResultsWith (paw : Units) (query : string) (found : bool)
    (results : option (list Item)) : Rendered :=
  match results with
  | Some rs =>
      if negb found || (length rs =? 0)%nat
      then NothingFound (nothingFoundText paw query)
      else Matches (map row_of rs)
  | None => NothingFound (nothingFoundText paw query)
  end.

Definition renderResults : string -> bool -> option (list Item) -> Rendered :=
  renderResultsWith PAW.

(** The bubbles added to the chat. *)
Inductive Bubble :=
| UserBubble (text : string)
| PickedBubble (label : option string) (reason : string) (open : option string)
| NoConfidentMatchBubble (detail : string)
| ResultsBubble (r : Rendered)
| CouldNotSniffBubble.

Definition bubble_of (e : Event) : option Bubble :=
  match e with
  | UserMessage text => Some (UserBubble text)
  | ShowPicked label reason open => Some (PickedBubble label reason open)
  | ShowNoConfidentMatch detail => Some (NoConfidentMatchBubble detail)
  | RenderResults query n =>
      Some (ResultsBubble (renderResults query (n_found n) (Some (n_results n))))
  | ShowCouldNotSniff => Some CouldNotSniffBubble
  | AskCandidates | AskSearch _ | AskRank _ _ => None
  end.

(** The chat after the events of [performSearch]. *)
Definition chat (trace : list Event) : list Bubble := omap bubble_of trace.

(** *** The popup in front of the content script *)

(** The response of the content script as the popup reads it. *)
Definition reply_of (r : Content.SearchResponse) : SearchReply :=
  {| sr_found := Content.found r; sr_results := Some (Content.results r);
     sr_text := None; sr_score := None; sr_href := None |}.

Definition candidatesMessage : Content.Message :=
  {| Content.m_type := "sniffr-candidates"; Content.m_query := None |}.

(** [sendMessageToTab] to a tab that runs the content script on [page].
    When the listener does not answer, the port closes,
    [chrome.runtime.lastError] is set and the promise is rejected. *)
Definition sendMessageToTab {A : Type} (read : Content.SearchResponse -> option A)
    (page : Content.Page) (message : Content.Message) : Reply (option A) :=
  match (Content.onMessage page message).1 with
  | Some r => Resolved (read r)
  | None => Rejected
  end.

(** The collaborators of the popup when the active tab runs the content
    script on [page]; a response of this script has no [candidates]
    member. *)
Definition onPage (page : Content.Page)
    (rank : string -> list WireCandidate -> Reply (option Background.RankReply))
    : World :=
  {| activeTab := Resolved tt;
     candidatesReply := sendMessageToTab (fun _ => None) page candidatesMessage;
     searchReply := fun query =>
       sendMessageToTab (fun r => Some (reply_of r)) page
         (Content.searchMessage query);
     rankReply := rank |}.

(** *** The earlier popup: scripts/popup.js before the remote ranking *)

Definition legacyRenderResults : string -> bool -> option (list Item) -> Rendered :=
  renderResultsWith LEGACY_PAW.

(** The normalization of the earlier [performSearch]: the members [found]
    and [results] of the object handed to [renderResults].
    [results_truthy] tells whether a [results] member that is not an array
    is truthy, in which case [response.results || []] keeps it. *)
Definition legacyNormalize (results_truthy : bool) (response : SearchReply)
    : bool * option (list Item) :=
  let kept :=
    match sr_results response with
    | Some rs => Some (map Listed rs)
    | None => if results_truthy then None else Some []
    end in
  if sr_found response then
    match sr_results response with
    | Some rs => (true, Some (map Listed rs))
    | None =>
        match opt_truthy (sr_text response) with
        | Some t =>
            (true,
             Some [Legacy (match sr_score response with
                           | Some s => if s =? 0 then 20 else s
                           | None => 20
                           end) t (opt_truthy (sr_href response))])
        | None => (true, kept)
        end
    end
  else (false, kept).

(** The bubbles that the earlier [performSearch] adds to the chat. *)
Definition legacyPerformSearch (w : World) (results_truthy : bool)
    (query : string) : list Bubble :=
  if negb (truthy query) || negb (truthy (trim query)) then []
  else
    let text := trim query in
    UserBubble text ::
    match activeTab w with
    | Rejected => [CouldNotSniffBubble]
    | Resolved _ =>
        match searchReply w text with
        | Rejected => [CouldNotSniffBubble]
        | Resolved None => [CouldNotSniffBubble]
        | Resolved (Some response) =>
            let normalized := legacyNormalize results_truthy response in
            [ResultsBubble (legacyRenderResults text normalized.1 normalized.2)]
        end
    end.

End Popup.

(** ** Reading JSON string literals back *)

Module Json.

Import Proxy.

Definition hex_value (c : ascii) : option N :=
  let n := code c in
  if ((48 <=? n) && (n <=? 57))%N then Some (n - 48)%N
  else if ((97 <=? n) && (n <=? 102))%N then Some (n - 87)%N
  else if ((65 <=? n) && (n <=? 70))%N then Some (n - 55)%N
  else None.

(** The text of a string literal whose opening quote has been read, with
    what follows its closing quote.  A unit below 32 cannot stand in the
    literal unescaped.  The escapes are those of JSON; a [\u] escape of a
    unit from 256 on yields [None], for a [string] cannot hold the unit. *)
Fixpoint unescape (s : string) : option (string * string) :=
  match s with
  | EmptyString => None
  | String c s' =>
      if (code c =? 34)%N then Some (EmptyString, s')
      else if (code c =? 92)%N then
        match s' with
        | EmptyString => None
        | String e s'' =>
            let plain (d : ascii) :=
              match unescape s'' with
              | Some (t, rest) => Some (String d t, rest)
              | None => None
              end in
            if (code e =? 34)%N then plain dquote
            else if (code e =? 92)%N then plain backslash
            else if (code e =? 47)%N then plain "/"%char
            else if (code e =? 98)%N then plain "008"%char
            else if (code e =? 116)%N then plain "009"%char
            else if (code e =? 110)%N then plain "010"%char
            else if (code e =? 102)%N then plain "012"%char
            else if (code e =? 114)%N then plain "013"%char
            else if (code e =? 117)%N then
              match s'' with
              | String a (String b (String h (String l s3))) =>
                  match hex_value h, hex_value l, unescape s3 with
                  | Some hv, Some lv, Some (t, rest) =>
                      if ((code a =? 48) && (code b =? 48))%N
                      then Some (String (ascii_of_N (16 * hv + lv)) t, rest)
                      else None
                  | _, _, _ => None
                  end
              | _ => None
              end
            else None
        end
      else if (code c <? 32)%N then None
      else
        match unescape s' with
        | Some (t, rest) => Some (String c t, rest)
        | None => None
        end
  end.

(** [s] without the prefix [p]. *)
Fixpoint strip_prefix (p s : string) : option string :=
  match p, s with
  | EmptyString, _ => Some s
  | String a p', String b s' => if (code a =? code b)%N then strip_prefix p' s' else None
  | String _ _, EmptyString => None
  end.

Definition digit_value (c : ascii) : option Z :=
  let n := code c in
  if ((48 <=? n) && (n <=? 57))%N then Some (Z.of_N (n - 48)) else None.

Fixpoint read_digits (acc : Z) (s : string) : Z * string :=
  match s with
  | EmptyString => (acc, EmptyString)
  | String c s' =>
      match digit_value c with
      | Some d => read_digits (10 * acc + d) s'
      | None => (acc, s)
      end
  end.

(** White space between the tokens of a JSON text. *)
Definition is_json_ws (c : ascii) : bool :=
  let n := code c in
  ((n =? 32) || (n =? 9) || (n =? 10) || (n =? 13))%N.

Fixpoint skip_ws (s : string) : string :=
  match s with
  | EmptyString => EmptyString
  | String c s' => if is_json_ws c then skip_ws s' else s
  end.

(** The number that [JSON.parse] makes of the digits of an integer: the
    integer itself up to 2^53, the nearest double beyond, ties to the even
    significand.  From 2^1024 on the result stands for an infinity. *)
Definition nearest_double (z : Z) : Z :=
  let a := Z.abs z in
  if a <=? 2 ^ 53 then z
  else
    let k := Z.log2 a - 52 in
    let q := a / 2 ^ k in
    let r := a mod 2 ^ k in
    let half := 2 ^ (k - 1) in
    let q' := if r <? half then q
              else if half <? r then q + 1
              else if Z.even q then q else q + 1 in
    Z.sgn z * (q' * 2 ^ k).

(** An integer literal of JSON: an optional minus sign, then 0 or a digit
    other than 0 followed by digits; [None] as well when a fraction or an
    exponent follows, which this reader does not cover. *)
Definition read_int (s : string) : option (Z * string) :=
  let unsigned (u : string) :=
    match u with
    | String c u' =>
        match digit_value c with
        | Some d =>
            let leading_zero :=
              (d =? 0)
              && match u' with
                 | String c' _ => match digit_value c' with
                                  | Some _ => true
                                  | None => false
                                  end
                 | EmptyString => false
                 end in
            if leading_zero then None
            else
              let '(z, rest) := read_digits 0 u in
              match rest with
              | String c' _ =>
                  if ((code c' =? 46) || (code c' =? 101) || (code c' =? 69))%N
                  then None else Some (z, rest)
              | EmptyString => Some (z, rest)
              end
        | None => None
        end
    | EmptyString => None
    end in
  match s with
  | String c s' =>
      if (code c =? 45)%N then
        match unsigned s' with
        | Some (z, rest) => Some (- z, rest)
        | None => None
        end
      else unsigned s
  | EmptyString => None
  end.

(** [s] without the token [p] and the white space around it. *)
Definition token (p s : string) : option string :=
  match strip_prefix p (skip_ws s) with
  | Some rest => Some (skip_ws rest)
  | None => None
  end.

(** A reader for the replies of the shape
    [{"index": <integer>, "reason": "<text>"}] that the system prompt asks
    for, with any white space between the tokens.  On a reply of this
    shape it yields what [JSON.parse] yields; on every other text it yields
    [None], also where [JSON.parse] would accept the text (other members,
    another order, a fraction or an exponent in the number, an integer so
    large that it is read as an infinity, a unit from 256 on in the text).
    It stands for the host function in the runs of the examples, whose
    replies are all of this shape. *)
Definition decode_judgment (s : string) : option Parsed :=
  s ← token "{" s;
  s ← token (json_quote "index") s;
  s ← token ":" s;
  '(z, s) ← read_int s;
  s ← token "," s;
  s ← token (json_quote "reason") s;
  s ← token ":" s;
  s ← strip_prefix (String dquote "") s;
  '(r, rest) ← unescape s;
  match token "}" rest with
  | Some EmptyString =>
      if 2 ^ 1024 <=? Z.abs (nearest_double z) then None
      else Some {| p_index := IdxInt (nearest_double z); p_reason := Some r |}
  | _ => None
  end.

(** The items of the key followed by the closing brackets. *)
Definition items_tail (l : list WireCandidate) : string :=
  join "," (map key_item l) +:+ "]}".

(** The first unit of a string. *)
Definition first_unit (s : string) : option ascii :=
  match s with
  | String c _ => Some c
  | EmptyString => None
  end.

(** The compact reply for an index and a reason. *)
Definition compact_reply (i : Z) (why : string) : string :=
  "{" +:+ json_quote "index" +:+ ":"
    +:+ (if i <? 0 then "-" +:+ of_nat (Z.to_nat (- i)) else of_nat (Z.to_nat i))
    +:+ "," +:+ json_quote "reason" +:+ ":" +:+ json_quote why +:+ "}".

End Json.

(** ** Concrete pages, candidates and requests used in the examples below *)

Module Examples.

Import Content.

(** A visible element with the given reference, text, href, tag and
    landmark chain, outside the top quarter of the viewport. *)
Definition element (ref : nat) (text href tag : string)
    (chain : list (string * string)) : Element :=
  {| el_ref := ref; el_display := "block"; el_visibility := "visible";
     el_opacity_zero := false; el_width_zero := false; el_height_zero := false;
     el_innerText := Some text; el_textContent := Some text;
     el_aria_label := None; el_title := None; el_alt := None; el_value := None;
     el_href := href; el_href_object := false; el_href_attr := None;
     el_tagName := Some tag;
     el_chain := (tag, EmptyString) :: chain; el_top_quarter := false |}.

Definition page_of (a b h : list Element) : Page :=
  {| anchors := a; buttons := b; heads := h;
     attached := fun _ => true; anchor_by_href := fun _ => None;
     selector_throws := fun _ => false |}.

Definition candidate (t : CType) (text : string) (href : option string)
    (r : Region) : Candidate :=
  {| c_type := t; c_text := text; c_href := href; c_element := 0%nat;
     c_region := r; c_tagName := "a" |}.

(** The two candidates of the billing example, and a page that yields them. *)
Definition payMyBill : Candidate := candidate link "Pay My Bill" (Some "/billing") nav.
Definition aboutUs : Candidate := candidate link "About Us" (Some "/about") footer.

Definition billingPage : Page :=
  page_of
    [element 0 "Pay My Bill" "/billing" "A" [("NAV", EmptyString)];
     element 1 "About Us" "/about" "A" [("FOOTER", EmptyString)]]
    [] [].

(** A word of 71 letters, as the text of a footer link. *)
Definition longWord : string :=
  "aaaaaaaaaaaaaaaaaaaaaaaaaaaaaaaaaaaaaaaaaaaaaaaaaaaaaaaaaaaaaaaaaaaaaaa".
Definition longFooterLink : Candidate := candidate link longWord None footer.

(** An exact match and a richer link of the same region. *)
Definition exactXyz : Candidate := candidate link "xyz" None body.
Definition rivalXyz : Candidate :=
  candidate link "xyz support"
    (Some "/xyz/portal/login/account/billing/help/contact") body.

Definition portalLink : Candidate :=
  candidate link "Student Portal" (Some "/portal") nav.

(** 800 distinct visible links, one button and one heading. *)
Definition bigPage : Page :=
  page_of
    (map (fun i => element i ("Link " +:+ of_nat i) ("/p/" +:+ of_nat i) "A" [])
         (seq 0 800))
    [element 800 "Go" EmptyString "BUTTON" []]
    [element 801 "Title" EmptyString "H1" []].

(** *** Requests to the gateway *)

Import Proxy.

Definition wire (text href : string) : WireCandidate :=
  {| w_text := Some text; w_href := Some href; w_type := Some "link" |}.

(** The request the relay sends for a client address, a query and a list. *)
Definition rankRequest (ip query : string) (cands : list WireCandidate) : Request :=
  {| req_method := "POST"; req_x_forwarded_for := Some ip; req_x_real_ip := None;
     req_remoteAddress := None;
     req_body := Some {| b_query := Some query; b_candidates := Some cands |} |}.

(** A POST request whose body has no query. *)
Definition badRequest (ip : string) : Request :=
  {| req_method := "POST"; req_x_forwarded_for := Some ip; req_x_real_ip := None;
     req_remoteAddress := None;
     req_body := Some {| b_query := None; b_candidates := Some [] |} |}.

(** A configured gateway whose remote service answers every prompt with
    the compact reply for [i]. *)
Definition answering (i : Z) : Env :=
  {| OPENAI_KEY := Some "sk-test";
     remote := fun _ => Completion (Some (Json.compact_reply i "best label match"));
     JSON_parse := Json.decode_judgment |}.

(** A request that arrives at [t] and whose remote call takes 400 ms. *)
Definition arriving (t : Z) : Clock := {| t_rate := t; t_check := t; t_store := t + 400 |}.

Definition client : string := "203.0.113.7".

Definition twoLinks : list WireCandidate :=
  [wire "Pay My Bill" "/billing"; wire "About Us" "/about"].

(** The billing request of [client] arriving at [t]. *)
Definition billingJob (t : Z) : Env * Clock * Request :=
  (answering 0, arriving t, rankRequest client "billing" twoLinks).

(** 120 such requests, 100 ms apart, from 100 ms on. *)
Definition burst : list (Env * Clock * Request) :=
  map (fun i => billingJob (100 * Z.of_nat i)) (seq 1 120).

(** The state in which [client] has used up its window, open until 60000. *)
Definition exhausted : State :=
  {| CACHE := ∅; RATE := {[ client := {| count := 120; resetAt := 60000 |} ]} |}.

(** *** Two users whose pages agree on the first 60 candidates *)

Definition sixty : list WireCandidate :=
  map (fun i => wire ("Item " +:+ of_nat i) ("/item/" +:+ of_nat i)) (seq 0 60).

Definition listA : list WireCandidate := sixty ++ [wire "Admissions" "/admissions"].
Definition listB : list WireCandidate := sixty ++ [wire "Parking" "/parking"].

Definition otherClient : string := "198.51.100.9".

(** The first user asks at time 0; the remote service picks index 60. *)
Definition firstRun : Response * State * list string :=
  handler (answering 60) (arriving 0) (rankRequest client "admissions" listA) initial.

(** The second user asks one second later. *)
Definition secondRun : Response * State * list string :=
  handler (answering 60) (arriving 1000)
    (rankRequest otherClient "admissions" listB) firstRun.1.2.

Definition secondWorld : Popup.World :=
  Popup.throughGateway (answering 60) (arriving 1000) firstRun.1.2
    (rankRequest otherClient) listB (fun _ => Popup.Resolved None).

(** A gateway without credentials. *)
Definition unconfigured : Env :=
  {| OPENAI_KEY := None;
     remote := fun _ => Completion (Some (Json.compact_reply 0 "best label match"));
     JSON_parse := Json.decode_judgment |}.

(** A GET request. *)
Definition getRequest : Request :=
  {| req_method := "GET"; req_x_forwarded_for := Some client; req_x_real_ip := None;
     req_remoteAddress := None; req_body := None |}.

(** A link in a list of a navigation region that lies in the footer. *)
Definition nestedLink : Element :=
  element 0 "Pay My Bill" "/billing" "A"
    [("UL", EmptyString); ("Div", "Navigation"); ("FOOTER", EmptyString)].

(** An element with an inline outline of its own, and one without. *)
Definition outlined : Styled :=
  {| outline := "1px dotted red"; outlineOffset := "0px"; prev_outline := None |}.
Definition unstyled : Styled :=
  {| outline := EmptyString; outlineOffset := EmptyString; prev_outline := None |}.

(** A gateway answer whose index is the number 0.5. *)
Definition halfway : Popup.World :=
  {| Popup.activeTab := Popup.Resolved tt;
     Popup.candidatesReply := Popup.Resolved (Some twoLinks);
     Popup.searchReply := fun _ => Popup.Resolved None;
     Popup.rankReply := fun _ _ =>
       Popup.Resolved
         (Some (Background.RankOk
                  (RankBody false "{}"
                     (Some {| p_index := IdxFrac 0; p_reason := None |})))) |}.


(** The billing page with a visible icon link of SVG in its footer. *)
Definition svgIcon : Element :=
  {| el_ref := 2; el_display := "inline"; el_visibility := "visible";
     el_opacity_zero := false; el_width_zero := false; el_height_zero := false;
     el_innerText := None; el_textContent := Some "Follow us";
     el_aria_label := None; el_title := None; el_alt := None; el_value := None;
     el_href := EmptyString; el_href_object := true; el_href_attr := Some "/social";
     el_tagName := Some "a";
     el_chain := [("a", EmptyString); ("svg", EmptyString); ("FOOTER", EmptyString)];
     el_top_quarter := false |}.

Definition iconPage : Page :=
  page_of (anchors billingPage ++ [svgIcon]) [] [].

(** A page whose only link has left the document by the time of the
    highlight, and whose href, which is no URL, holds a quote (unit 34):
    in the selector made of it the quote closes the string too early. *)
Definition quotedHref : string := "http://[" +:+ String "034" EmptyString.

Definition stalePage : Page :=
  {| anchors := [element 0 "Pay My Bill" quotedHref "A" [("NAV", EmptyString)]];
     buttons := []; heads := [];
     attached := fun _ => false; anchor_by_href := fun _ => None;
     selector_throws := fun h => includes h (String "034" EmptyString) |}.

(** A configured gateway whose remote service cannot be reached. *)
Definition unreachable : Env :=
  {| OPENAI_KEY := Some "sk-test";
     remote := fun _ => NetworkError "TypeError: fetch failed";
     JSON_parse := Json.decode_judgment |}.

Definition billingRequest : Request := rankRequest client "billing" twoLinks.

(** A first answer is stored at 400 ms and expires at 30400 ms; the same
    request comes again at 30000 ms and at 31000 ms. *)
Definition storedRun : Response * State * list string :=
  handler (answering 0) (arriving 0) billingRequest initial.
Definition lateHit : Response * State * list string :=
  handler (answering 1) (arriving 30000) billingRequest storedRun.1.2.
Definition soonAfter : Response * State * list string :=
  handler (answering 1) (arriving 31000) billingRequest lateHit.1.2.

(** The first request fails at 0 ms; the same request comes again at
    1000 ms. *)
Definition failedRun : Response * State * list string :=
  handler unreachable (arriving 0) billingRequest initial.
Definition retryRun : Response * State * list string :=
  handler (answering 0) (arriving 1000) billingRequest failedRun.1.2.

(** The answer of the content script of the billing page to "billing", as
    the popup reads it. *)
Definition billingReply : Popup.SearchReply :=
  {| Popup.sr_found := true;
     Popup.sr_results :=
       Some [{| r_score := 33; r_type := link; r_text := "Pay My Bill";
                r_href := Some "/billing"; r_region := nav; r_tagName := "a" |}];
     Popup.sr_text := None; Popup.sr_score := None; Popup.sr_href := None |}.

(** A popup whose list of two links is judged by a gateway that answers
    with the index 5, and whose local search is answered by the page. *)
Definition misjudged : Popup.World :=
  Popup.throughGateway (answering 5) (arriving 0) initial (rankRequest client)
    twoLinks (fun _ => Popup.Resolved (Some billingReply)).

(** A popup whose request to the relay is rejected. *)
Definition offline : Popup.World :=
  {| Popup.activeTab := Popup.Resolved tt;
     Popup.candidatesReply := Popup.Resolved (Some twoLinks);
     Popup.searchReply := fun _ => Popup.Resolved (Some billingReply);
     Popup.rankReply := fun _ _ => Popup.Rejected |}.

(** A candidate whose href holds a line feed. *)
Definition brokenHref : WireCandidate :=
  wire "Help" ("/help" +:+ String "010" "1 | link | x | /admin").

End Examples.

(** * Properties *)

(** ** Facts about the string primitives *)

Module JsStringFacts.

Example trim_ex : trim (String.append "  Pay  My " (String "009" "")) = "Pay  My".
Proof. reflexivity. Qed.

Example words_ex : words " pay   my bill " = ["pay"; "my"; "bill"].
Proof. reflexivity. Qed.

Example includes_ex :
  includes "/billing" "bill" = true /\ includes "pay my bill" "billing" = false.
Proof. split; reflexivity. Qed.

Example lower_ex : toLowerCase "Pay My Bill" = "pay my bill".
Proof. reflexivity. Qed.

Example collapse_ex : collapse_ws "a   b  c" = "a b c".
Proof. reflexivity. Qed.

Example of_nat_ex : of_nat 0 = "0" /\ of_nat 79 = "79".
Proof. split; reflexivity. Qed.

Lemma prefix_refl s : String.prefix s s = true.
Proof.
  induction s as [|c s IH]; simpl; [done|].
  destruct (ascii_dec c c); [exact IH | congruence].
Qed.

Lemma prefix_includes sub s : String.prefix sub s = true -> includes s sub = true.
Proof. intros H. destruct s; simpl in *; rewrite H; reflexivity. Qed.

Lemma includes_refl s : includes s s = true.
Proof. apply prefix_includes, prefix_refl. Qed.

Lemma includes_tail c s sub : includes s sub = true -> includes (String c s) sub = true.
Proof. intros H. simpl. rewrite H. apply orb_true_r. Qed.

Lemma is_empty_true s : is_empty s = true <-> s = EmptyString.
Proof. destruct s; simpl; split; congruence. Qed.

Lemma truthy_false s : truthy s = false <-> s = EmptyString.
Proof. unfold truthy. destruct s; simpl; split; congruence. Qed.

(** Every piece of the split occurs in the string; the first one starts it. *)
Lemma split_ws_included s :
  Forall (fun w => includes s w = true) (split_ws s)
  /\ match split_ws s with
     | p :: _ => String.prefix p s = true
     | [] => False
     end.
Proof.
  induction s as [|c s [IHall IHhd]]; simpl.
  - split; [repeat constructor | reflexivity].
  - destruct (is_ws c).
    + split; [|reflexivity].
      constructor; [reflexivity|].
      eapply Forall_impl; [exact IHall|]. intros w Hw. by apply includes_tail.
    + destruct (split_ws s) as [|p ps]; [done|].
      assert (Hp : String.prefix (String c p) (String c s) = true).
      { simpl. destruct (ascii_dec c c); [exact IHhd | congruence]. }
      split; [|exact Hp].
      constructor; [exact (prefix_includes (String c p) (String c s) Hp)|].
      apply Forall_inv_tail in IHall.
      eapply Forall_impl; [exact IHall|]. intros w Hw. by apply includes_tail.
Qed.

Lemma words_included s w : In w (words s) -> includes s w = true.
Proof.
  unfold words. intros Hin.
  apply list_elem_of_In, list_elem_of_filter in Hin as [_ Hin].
  destruct (split_ws_included s) as [Hall _].
  rewrite Forall_forall in Hall. by apply Hall.
Qed.

Lemma words_truthy s w : In w (words s) -> is_empty w = false.
Proof.
  unfold words. intros Hin.
  apply list_elem_of_In, list_elem_of_filter in Hin as [Hw _].
  unfold truthy in Hw. destruct (is_empty w); [done | reflexivity].
Qed.

(** No piece of the split holds a white space unit. *)
Lemma split_ws_no_ws s : Forall (fun w => has_ws w = false) (split_ws s).
Proof.
  induction s as [|c s IH]; simpl.
  - repeat constructor.
  - destruct (is_ws c) eqn:Hc.
    + constructor; [reflexivity | exact IH].
    + destruct (split_ws s) as [|p ps]; [repeat constructor; simpl; by rewrite Hc|].
      inversion IH; subst. constructor; [simpl; by rewrite Hc | assumption].
Qed.

Lemma words_no_ws s w : In w (words s) -> has_ws w = false.
Proof.
  unfold words. intros Hin.
  apply list_elem_of_In, list_elem_of_filter in Hin as [_ Hin].
  pose proof (split_ws_no_ws s) as Hall.
  rewrite Forall_forall in Hall. by apply Hall.
Qed.

Lemma trimStart_starts_ok s : starts_ok (trimStart s) = true.
Proof.
  induction s as [|c s IH]; simpl; [done|].
  destruct (is_ws c) eqn:Hc; [exact IH | simpl; by rewrite Hc].
Qed.

Lemma trimEnd_ends_ok s : ends_ok (trimEnd s) = true.
Proof.
  induction s as [|c s IH]; simpl; [done|].
  destruct (is_ws c) eqn:Hc; simpl.
  - destruct (trimEnd s) eqn:Hr; simpl; [done | exact IH].
  - destruct (trimEnd s) eqn:Hr; simpl; [by rewrite Hc | exact IH].
Qed.

Lemma trimEnd_starts_ok s : starts_ok s = true -> starts_ok (trimEnd s) = true.
Proof.
  destruct s as [|c s]; simpl; [done|].
  intros Hc. apply negb_true_iff in Hc. rewrite Hc. simpl. by rewrite Hc.
Qed.

Lemma trim_starts_ok s : starts_ok (trim s) = true.
Proof. apply trimEnd_starts_ok, trimStart_starts_ok. Qed.

Lemma trim_ends_ok s : ends_ok (trim s) = true.
Proof. apply trimEnd_ends_ok. Qed.

(** A string that ends well and splits into empty pieces only is empty. *)
Lemma split_ws_all_empty s :
  Forall (fun w => w = EmptyString) (split_ws s) -> ends_ok s = true -> s = EmptyString.
Proof.
  induction s as [|c s IH]; simpl; [done|].
  destruct (is_ws c) eqn:Hc.
  - intros Hall Hend. apply Forall_inv_tail in Hall.
    destruct s as [|d s]; [simpl in Hend; discriminate|].
    specialize (IH Hall Hend). discriminate.
  - intros Hall _. destruct (split_ws s); apply Forall_inv in Hall; discriminate.
Qed.

(** When all the pieces after the first are empty, the first is the string. *)
Lemma split_ws_single s p ps :
  split_ws s = p :: ps -> Forall (fun w => w = EmptyString) ps ->
  ends_ok s = true -> p = s.
Proof.
  revert p ps. induction s as [|c s IH]; simpl; intros p ps Hsplit Hall Hend.
  - congruence.
  - destruct (is_ws c) eqn:Hc.
    + injection Hsplit as <- <-.
      destruct s as [|d s]; [simpl in Hend; discriminate|].
      apply split_ws_all_empty in Hall; [discriminate | exact Hend].
    + destruct (split_ws s) as [|p' ps'] eqn:Hs.
      * pose proof (split_ws_included s) as [_ H]. rewrite Hs in H. done.
      * injection Hsplit as <- <-. f_equal.
        destruct s as [|d s]; [simpl in Hs; congruence|].
        eapply IH; [reflexivity | exact Hall | exact Hend].
Qed.

Lemma filter_truthy_nil (l : list string) :
  filter (fun w => truthy w) l = [] -> Forall (fun w => w = EmptyString) l.
Proof.
  induction l as [|x l IH]; [constructor|].
  rewrite filter_cons. destruct (decide (truthy x)) as [Hx|Hx]; [discriminate|].
  intros H. constructor; [|by apply IH].
  apply truthy_false. by destruct (truthy x).
Qed.

(** A non-empty trimmed string is its only word, or has at least two. *)
Lemma words_cases q :
  q <> EmptyString -> starts_ok q = true -> ends_ok q = true ->
  words q = [q] \/ (2 <= length (words q))%nat.
Proof.
  intros Hne Hstart Hend.
  destruct q as [|c r]; [done|]. simpl in Hstart. apply negb_true_iff in Hstart.
  unfold words.
  destruct (split_ws (String c r)) as [|p ps] eqn:Hs.
  { pose proof (split_ws_included (String c r)) as [_ H]. rewrite Hs in H. done. }
  assert (Hp : truthy p = true).
  { simpl in Hs. rewrite Hstart in Hs. destruct (split_ws r); injection Hs as <- _; done. }
  rewrite filter_cons. destruct (decide (truthy p)) as [_|Hn]; [|by rewrite Hp in Hn].
  destruct (filter (fun w => truthy w) ps) as [|w ws] eqn:Hf.
  - left. f_equal. eapply split_ws_single; [exact Hs | by apply filter_truthy_nil | exact Hend].
  - right. simpl. lia.
Qed.

Lemma words_of_trimmed_with_ws q :
  q <> EmptyString -> starts_ok q = true -> ends_ok q = true ->
  has_ws q = true -> (2 <= length (words q))%nat.
Proof.
  intros Hne Hs He Hws.
  destruct (words_cases q Hne Hs He) as [H1|H2]; [|exact H2].
  assert (Hin : In q (words q)) by (rewrite H1; left; reflexivity).
  apply words_no_ws in Hin. congruence.
Qed.

Lemma is_ws_lower c : is_ws (lower_char c) = is_ws c.
Proof. destruct c as [[] [] [] [] [] [] [] []]; reflexivity. Qed.

Lemma has_ws_lower s : has_ws (toLowerCase s) = has_ws s.
Proof. induction s as [|c s IH]; simpl; [done|]. by rewrite is_ws_lower, IH. Qed.

Lemma length_lower s : String.length (toLowerCase s) = String.length s.
Proof. induction s as [|c s IH]; simpl; [done|]. by rewrite IH. Qed.

Lemma ci_eq_space c : ci_eq " " c = true -> is_ws c = true.
Proof. destruct c as [[] [] [] [] [] [] [] []]; simpl; intros H; try discriminate; reflexivity. Qed.

Lemma has_ws_tail c s : has_ws s = true -> has_ws (String c s) = true.
Proof. intros H. simpl. rewrite H. apply orb_true_r. Qed.

(** A match of a pattern that holds a space leaves a space in the text. *)
Lemma ci_prefix_has_ws pat s :
  In " "%char (list_ascii_of_string pat) -> ci_prefix pat s = true -> has_ws s = true.
Proof.
  revert s. induction pat as [|p pat IH]; simpl; intros s Hin Hpre; [done|].
  destruct s as [|c s]; [discriminate|].
  apply andb_true_iff in Hpre as [Hpc Hrest].
  destruct Hin as [->|Hin].
  - simpl. rewrite (ci_eq_space c Hpc). reflexivity.
  - apply has_ws_tail. by apply IH.
Qed.

Lemma ci_includes_has_ws pat s :
  In " "%char (list_ascii_of_string pat) -> ci_includes s pat = true -> has_ws s = true.
Proof.
  intros Hin. induction s as [|c s IH]; simpl; intros H.
  - rewrite orb_false_r in H. by apply (ci_prefix_has_ws pat EmptyString) in H.
  - apply orb_true_iff in H as [H|H].
    + by apply (ci_prefix_has_ws pat (String c s)) in H.
    + rewrite (IH H). apply orb_true_r.
Qed.

Lemma prefix_lower p : forall s,
  String.prefix p s = true -> String.prefix (toLowerCase p) (toLowerCase s) = true.
Proof.
  induction p as [|a p IH]; intros [|b s]; simpl; try done.
  destruct (ascii_dec a b) as [->|]; [|discriminate].
  intros H. destruct (ascii_dec (lower_char b) (lower_char b)); [by apply IH | congruence].
Qed.

(** What a string contains, its lower-cased form contains lower-cased. *)
Lemma includes_lower s p :
  includes s p = true -> includes (toLowerCase s) (toLowerCase p) = true.
Proof.
  induction s as [|c s IH]; simpl; intros H.
  - rewrite orb_false_r in *. by apply (prefix_lower p EmptyString) in H.
  - apply orb_true_iff in H as [H|H].
    + apply (prefix_lower p (String c s)) in H. simpl in H. by rewrite H.
    + rewrite (IH H). apply orb_true_r.
Qed.

(** *** Trimming and lower-casing *)

Lemma is_empty_lower s : is_empty (toLowerCase s) = is_empty s.
Proof. by destruct s. Qed.

Lemma trimStart_lower s : trimStart (toLowerCase s) = toLowerCase (trimStart s).
Proof.
  induction s as [|c s IH]; [reflexivity|].
  simpl. rewrite is_ws_lower. destruct (is_ws c); [exact IH | reflexivity].
Qed.

Lemma trimEnd_lower s : trimEnd (toLowerCase s) = toLowerCase (trimEnd s).
Proof.
  induction s as [|c s IH]; [reflexivity|].
  simpl. rewrite is_ws_lower, IH, is_empty_lower.
  by destruct (is_ws c && is_empty (trimEnd s)).
Qed.

Lemma trim_lower s : trim (toLowerCase s) = toLowerCase (trim s).
Proof. unfold trim. by rewrite trimStart_lower, trimEnd_lower. Qed.

Lemma trimStart_id s : starts_ok s = true -> trimStart s = s.
Proof. destruct s as [|c s]; [done|]. simpl. by intros ->%negb_true_iff. Qed.

Lemma trimEnd_id s : ends_ok s = true -> trimEnd s = s.
Proof.
  induction s as [|c s IH]; [done|].
  destruct s as [|d s].
  - simpl. by intros ->%negb_true_iff.
  - intros H. change (ends_ok (String d s) = true) in H.
    change (trimEnd (String c (String d s)))
      with (if is_ws c && is_empty (trimEnd (String d s)) then EmptyString
            else String c (trimEnd (String d s))).
    rewrite (IH H). simpl. by rewrite andb_false_r.
Qed.

(** Trimming twice is trimming once. *)
Lemma trim_idem s : trim (trim s) = trim s.
Proof.
  unfold trim at 1. rewrite trimStart_id by apply trim_starts_ok.
  apply trimEnd_id, trim_ends_ok.
Qed.

(** *** Collapsing white space *)

Lemma collapse_go_head b s :
  match collapse_ws_go b s with
  | String c _ => is_ws c = true -> b = false /\ starts_ok s = false
  | EmptyString => True
  end.
Proof.
  revert b. induction s as [|c s IH]; intros b; simpl; [done|].
  destruct (is_ws c) eqn:Hc.
  - destruct b.
    + specialize (IH true). destruct (collapse_ws_go true s); [done|].
      intros H. by destruct (IH H).
    + done.
  - by rewrite Hc.
Qed.

Lemma collapse_go_single_spaced b s : single_spaced (collapse_ws_go b s) = true.
Proof.
  revert b. induction s as [|c s IH]; intros b; simpl; [done|].
  destruct (is_ws c) eqn:Hc.
  - destruct b; [apply IH|].
    simpl. rewrite IH, andb_true_r.
    pose proof (collapse_go_head true s) as Hh.
    destruct (collapse_ws_go true s) as [|d r]; [done|].
    destruct (is_ws d); [by destruct Hh | done].
  - simpl. by rewrite Hc, IH.
Qed.

Lemma collapse_go_nonempty b s :
  s <> EmptyString -> ends_ok s = true -> collapse_ws_go b s <> EmptyString.
Proof.
  revert b. induction s as [|c s IH]; intros b Hne Hend; [done|].
  simpl. destruct (is_ws c) eqn:Hc; [|done].
  destruct s as [|d s]; [simpl in Hend; by rewrite Hc in Hend|].
  destruct b; [by apply IH | done].
Qed.

Lemma ends_ok_cons c s : s <> EmptyString -> ends_ok (String c s) = ends_ok s.
Proof. by destruct s. Qed.

Lemma collapse_go_ends_ok b s : ends_ok s = true -> ends_ok (collapse_ws_go b s) = true.
Proof.
  revert b. induction s as [|c s IH]; intros b Hend; [done|].
  destruct s as [|d s].
  - simpl in *. apply negb_true_iff in Hend. rewrite Hend. simpl. by rewrite Hend.
  - change (ends_ok (String d s) = true) in Hend.
    pose proof (collapse_go_nonempty true (String d s) ltac:(done) Hend) as Ht.
    pose proof (collapse_go_nonempty false (String d s) ltac:(done) Hend) as Hf.
    change (collapse_ws_go b (String c (String d s)))
      with (if is_ws c
            then if b then collapse_ws_go true (String d s)
                 else String " " (collapse_ws_go true (String d s))
            else String c (collapse_ws_go false (String d s))).
    destruct (is_ws c); [destruct b|].
    + by apply IH.
    + rewrite ends_ok_cons by exact Ht. by apply IH.
    + rewrite ends_ok_cons by exact Hf. by apply IH.
Qed.

Lemma collapse_starts_ok s : starts_ok s = true -> starts_ok (collapse_ws s) = true.
Proof.
  destruct s as [|c s]; [done|]. unfold collapse_ws. simpl.
  intros Hc. apply negb_true_iff in Hc. rewrite Hc. simpl. by rewrite Hc.
Qed.

(** *** Lines *)

Lemma has_lf_append (a b : string) : has_lf (a +:+ b) = has_lf a || has_lf b.
Proof.
  induction a as [|c a IH]; [reflexivity|].
  change (String c a +:+ b) with (String c (a +:+ b)). simpl.
  by rewrite IH, orb_assoc.
Qed.

Lemma lines_no_lf (x : string) : has_lf x = false -> lines x = [x].
Proof.
  induction x as [|c x IH]; [reflexivity|]. simpl.
  destruct (code c =? 10)%N; [discriminate|]. intros H. by rewrite (IH H).
Qed.

Lemma lines_append_lf (x rest : string) :
  has_lf x = false -> lines (x +:+ String "010" rest) = x :: lines rest.
Proof.
  induction x as [|c x IH]; [reflexivity|].
  change (String c x +:+ String "010" rest) with (String c (x +:+ String "010" rest)).
  simpl. destruct (code c =? 10)%N; [discriminate|]. intros H. by rewrite (IH H).
Qed.

Lemma lines_join (l : list string) :
  l <> [] -> Forall (fun x => has_lf x = false) l ->
  lines (join (String "010" EmptyString) l) = l.
Proof.
  induction l as [|x l IH]; [done|]. intros _ Hall.
  apply Forall_cons in Hall as [Hx Hall].
  destruct l as [|y l]; [by apply lines_no_lf|].
  change (join (String "010" EmptyString) (x :: y :: l))
    with (x +:+ String "010" (join (String "010" EmptyString) (y :: l))).
  rewrite (lines_append_lf _ _ Hx). f_equal. by apply IH.
Qed.

Lemma has_lf_replace_newlines (s : string) : has_lf (replace_newlines s) = false.
Proof.
  induction s as [|c s IH]; [reflexivity|]. simpl.
  destruct (code c =? 10)%N eqn:E; [by rewrite IH|]. by rewrite E, IH.
Qed.

Lemma has_lf_slice0 (n : nat) : forall s, has_lf s = false -> has_lf (slice0 n s) = false.
Proof.
  induction n as [|n IH]; intros [|c s]; try reflexivity. simpl.
  destruct (code c =? 10)%N; [discriminate|]. apply IH.
Qed.

Lemma has_lf_of_nat (n : nat) : has_lf (of_nat n) = false.
Proof.
  unfold of_nat. induction (Nat.to_uint n) as [|d IH|d IH|d IH|d IH|d IH|d IH|d IH|d IH|d IH|d IH];
    [reflexivity|exact IH..].
Qed.

End JsStringFacts.

(** ** Facts about the scorer and the candidate collection *)

Module ContentFacts.

Import Content JsStringFacts.

(** *** The additive steps *)

Lemma wordStep_ge text href score w : score <= wordStep text href score w.
Proof.
  unfold wordStep. destruct (is_empty w); [lia|].
  destruct (String.eqb text w), (includes text w), (includes href w); lia.
Qed.

Lemma wordStep_included text href score w :
  is_empty w = false -> includes text w = true ->
  score + 5 <= wordStep text href score w.
Proof.
  intros Hw Hin. unfold wordStep. rewrite Hw, Hin.
  destruct (String.eqb text w), (includes href w); lia.
Qed.

Lemma wordStep_equal text href score :
  is_empty text = false -> score + 7 <= wordStep text href score text.
Proof.
  intros Hw. unfold wordStep. rewrite Hw, String.eqb_refl.
  destruct (includes href text); lia.
Qed.

Lemma fold_wordStep_ge text href ws : forall score,
  (forall w, In w ws -> is_empty w = false /\ includes text w = true) ->
  score + 5 * Z.of_nat (length ws) <= fold_left (wordStep text href) ws score.
Proof.
  induction ws as [|w ws IH]; intros score Hall; simpl fold_left.
  - simpl. lia.
  - destruct (Hall w (or_introl eq_refl)) as [Hw Hin].
    pose proof (wordStep_included text href score w Hw Hin) as Hstep.
    specialize (IH (wordStep text href score w) (fun w' H => Hall w' (or_intror H))).
    rewrite length_cons, Nat2Z.inj_succ. lia.
Qed.

Lemma keywordStep_ge text href q score kw : score <= keywordStep text href q score kw.
Proof.
  unfold keywordStep. destruct (is_empty kw); [lia|].
  destruct (includes text kw || includes href kw), (includes q kw); simpl; lia.
Qed.

Lemma fold_keywordStep_ge text href q kws : forall score,
  score <= fold_left (keywordStep text href q) kws score.
Proof.
  induction kws as [|kw kws IH]; intros score; simpl; [lia|].
  pose proof (keywordStep_ge text href q score kw). specialize (IH (keywordStep text href q score kw)). lia.
Qed.

(** The keyword loop adds to the running score what it adds to zero. *)
Lemma fold_keywordStep_additive text href q kws : forall score,
  fold_left (keywordStep text href q) kws score
  = score + fold_left (keywordStep text href q) kws 0.
Proof.
  induction kws as [|kw kws IH]; intros score; simpl; [lia|].
  rewrite (IH (keywordStep text href q score kw)), (IH (keywordStep text href q 0 kw)).
  unfold keywordStep. destruct (is_empty kw); [lia|].
  destruct (includes text kw || includes href kw), (includes q kw); simpl; lia.
Qed.

(** *** Exact matches *)

(** The running score after the word loop of an exact match. *)
Lemma exact_words_bound (q href : string) :
  q <> EmptyString -> starts_ok q = true -> ends_ok q = true ->
  36 + 7 <= fold_left (wordStep q href) (words q) 36
  /\ (has_ws q = true -> 36 + 10 <= fold_left (wordStep q href) (words q) 36).
Proof.
  intros Hne Hs He.
  assert (Hall : forall w, In w (words q) -> is_empty w = false /\ includes q w = true).
  { intros w Hw. split; [by eapply words_truthy | by apply words_included]. }
  pose proof (fold_wordStep_ge q href (words q) 36 Hall) as Hfold.
  destruct (words_cases q Hne Hs He) as [H1|H2].
  - split.
    + rewrite H1. simpl. apply wordStep_equal. destruct q; [done | reflexivity].
    + intros Hws. pose proof (words_of_trimmed_with_ws q Hne Hs He Hws). lia.
  - split; [lia | intros _; lia].
Qed.

Lemma generic_label_has_ws text : generic_label text = true -> has_ws text = true.
Proof.
  unfold generic_label. intros H.
  apply orb_true_iff in H as [H|H]; [apply orb_true_iff in H as [H|H]|];
    (eapply ci_includes_has_ws; [|exact H]); simpl; tauto.
Qed.

(** The score of a candidate whose lower-cased text is the normalized query. *)
Lemma exact_match_lower_bounds (c : Candidate) (query : string) :
  trim (toLowerCase query) <> EmptyString ->
  toLowerCase (c_text c) = trim (toLowerCase query) ->
  35 <= scoreCandidate c query
  /\ (~ (c_region c = footer /\ (70 < String.length (c_text c))%nat
         /\ has_ws (c_text c) = false) ->
      36 <= scoreCandidate c query).
Proof.
  intros Hne Heq.
  pose proof (trim_starts_ok (toLowerCase query)) as Hs.
  pose proof (trim_ends_ok (toLowerCase query)) as He.
  unfold scoreCandidate, scoreCandidateWith.
  set (q := trim (toLowerCase query)) in *.
  destruct (is_empty q) eqn:Hq; [apply is_empty_true in Hq; done|].
  rewrite Heq, String.eqb_refl, includes_refl.
  set (href := toLowerCase (or_empty (c_href c))).
  destruct (exact_words_bound q href Hne Hs He) as [Hw7 Hw10].
  change (0 + 22 + 14) with 36.
  set (W := fold_left (wordStep q href) (words q) 36) in *.
  set (H := if includes href q then W + 7 else W).
  assert (HH : W <= H) by (subst H; destruct (includes href q); lia).
  pose proof (fold_keywordStep_ge q href q navKeywords H) as HK.
  set (K := fold_left (keywordStep q href q) navKeywords H) in *.
  assert (Hlen : Z.of_nat (String.length (c_text c)) = Z.of_nat (String.length q)).
  { by rewrite <- Heq, length_lower. }
  assert (Htruthy : truthy (c_text c) = true).
  { destruct (c_text c) eqn:Ht; [|reflexivity]. simpl in Heq. congruence. }
  rewrite Htruthy.
  assert (Hgen : generic_label (c_text c) = true -> 36 + 10 <= W).
  { intros Hg. apply Hw10. rewrite <- Heq, has_ws_lower. by apply generic_label_has_ws. }
  assert (Hws : has_ws (c_text c) = true -> 36 + 10 <= W).
  { intros Hg. apply Hw10. by rewrite <- Heq, has_ws_lower. }
  split.
  - destruct (generic_label (c_text c)); [specialize (Hgen eq_refl)|];
      destruct (c_region c), (c_type c); simpl regionBonus;
      repeat match goal with |- context [if ?b then _ else _] => destruct b end; lia.
  - intros Hnot.
    destruct (has_ws (c_text c)) eqn:Hw; [specialize (Hws eq_refl)|].
    + destruct (generic_label (c_text c));
        destruct (c_region c), (c_type c); simpl regionBonus;
        repeat match goal with |- context [if ?b then _ else _] => destruct b end; lia.
    + destruct (generic_label (c_text c)) eqn:Hg;
        [apply generic_label_has_ws in Hg; congruence|].
      destruct (70 <? Z.of_nat (String.length (c_text c))) eqn:H70.
      * assert (c_region c <> footer).
        { intros Hf. apply Hnot. split; [exact Hf|]. split; [|reflexivity].
          apply Z.ltb_lt in H70. lia. }
        destruct (c_region c), (c_type c); try done; simpl regionBonus;
          repeat match goal with |- context [if ?b then _ else _] => destruct b end; lia.
      * destruct (c_region c), (c_type c); simpl regionBonus;
          repeat match goal with |- context [if ?b then _ else _] => destruct b end; lia.
Qed.

(** *** The order of the results *)

Lemma insert_desc_In x l y : In y (insert_desc x l) <-> y = x \/ In y l.
Proof.
  induction l as [|z l IH]; simpl; [intuition congruence|].
  destruct (s_score x <? s_score z); simpl; [rewrite IH|]; intuition congruence.
Qed.

Lemma insert_desc_sorted x l :
  StronglySorted desc l -> StronglySorted desc (insert_desc x l).
Proof.
  induction 1 as [|z l Hl IH Hz]; simpl.
  - repeat constructor.
  - destruct (s_score x <? s_score z) eqn:Hlt.
    + constructor; [exact IH|].
      rewrite List.Forall_forall. intros y Hy. apply insert_desc_In in Hy as [->|Hy].
      * apply Z.ltb_lt in Hlt. unfold desc. lia.
      * rewrite List.Forall_forall in Hz. by apply Hz.
    + apply Z.ltb_ge in Hlt. constructor; [by constructor|].
      constructor; [exact Hlt|].
      eapply List.Forall_impl; [|exact Hz]. unfold desc. intros; lia.
Qed.

Lemma sort_desc_sorted l : StronglySorted desc (sort_desc l).
Proof.
  induction l as [|x l IH]; simpl; [constructor | by apply insert_desc_sorted].
Qed.

Lemma sort_desc_In l y : In y (sort_desc l) <-> In y l.
Proof.
  induction l as [|x l IH]; simpl; [tauto|].
  rewrite insert_desc_In, IH. intuition congruence.
Qed.

Lemma sorted_filter (P : Scored -> Prop) `{forall x, Decision (P x)} l :
  StronglySorted desc l -> StronglySorted desc (filter P l).
Proof.
  induction 1 as [|z l Hl IH Hz]; [constructor|].
  rewrite filter_cons. destruct (decide (P z)); [|exact IH].
  constructor; [exact IH|].
  rewrite List.Forall_forall in *. intros y Hy.
  apply Hz. apply list_elem_of_In, list_elem_of_filter in Hy as [_ Hy].
  by apply list_elem_of_In.
Qed.

Lemma In_firstn_inv {A} (n : nat) (l : list A) x : In x (firstn n l) -> In x l.
Proof.
  revert n. induction l as [|y l IH]; intros [|n]; simpl; try tauto.
  intros [->|H]; [by left | right; by eapply IH].
Qed.

Lemma sorted_firstn n l :
  StronglySorted desc l -> StronglySorted desc (firstn n l).
Proof.
  intros Hl. revert n. induction Hl as [|z l Hl IH Hz]; intros [|n]; simpl; try constructor.
  - apply IH.
  - rewrite List.Forall_forall in *. intros y Hy. apply Hz. eapply In_firstn_inv; exact Hy.
Qed.

Lemma pickResults_sorted scored : StronglySorted desc (pickResults scored).
Proof. unfold pickResults. apply sorted_firstn, sorted_filter, sort_desc_sorted. Qed.

Lemma sorted_lookup (l : list Scored) : StronglySorted desc l ->
  forall (i j : nat) x y, l !! i = Some x -> l !! j = Some y -> (i < j)%nat ->
  s_score y <= s_score x.
Proof.
  induction 1 as [|z l Hl IH Hz]; intros i j x y Hi Hj Hij; [done|].
  destruct j as [|j]; [lia|]. simpl in Hj.
  destruct i as [|i]; simpl in Hi.
  - injection Hi as <-. rewrite List.Forall_forall in Hz.
    apply (Hz y). apply list_elem_of_In. by eapply list_elem_of_lookup_2.
  - eapply IH; [exact Hi | exact Hj | lia].
Qed.

(** In a list sorted by descending score the entry with the strictly higher
    score stands first. *)
Lemma sorted_higher_first (l : list Scored) (i j : nat) x y :
  StronglySorted desc l -> l !! i = Some x -> l !! j = Some y ->
  s_score y < s_score x -> (i < j)%nat.
Proof.
  intros Hl Hi Hj Hlt.
  destruct (Nat.lt_trichotomy i j) as [?|[->|Hji]]; [assumption| |].
  - rewrite Hi in Hj. injection Hj as <-. lia.
  - pose proof (sorted_lookup l Hl j i y x Hj Hi Hji). lia.
Qed.

Lemma scoreAll_acc (cands : list Candidate) (query : string) : forall acc c,
  (In (scored_of c (scoreCandidate c query)) acc
   \/ (In c cands /\ 0 < scoreCandidate c query)) ->
  In (scored_of c (scoreCandidate c query))
    (fold_left
       (fun scored c =>
          let s := scoreCandidate c query in
          if 0 <? s then scored ++ [scored_of c s] else scored)
       cands acc).
Proof.
  induction cands as [|d cands IH]; intros acc c; simpl.
  - tauto.
  - intros [Hacc|[[->|Hin] Hpos]]; apply IH.
    + left. destruct (0 <? scoreCandidate d query); [apply in_or_app; by left | exact Hacc].
    + left. apply Z.ltb_lt in Hpos. rewrite Hpos. apply in_or_app. right. by left.
    + right. by split.
Qed.

(** A candidate with a positive score is among the scored ones. *)
Lemma scoreAll_In cands query c :
  In c cands -> 0 < scoreCandidate c query ->
  In (scored_of c (scoreCandidate c query)) (scoreAll cands query).
Proof. intros Hin Hpos. apply scoreAll_acc. right. by split. Qed.

(** *** The claims about the scorer *)

Import Examples.

(** C8 (amended).  A candidate whose lower-cased text is the lower-cased,
    trimmed, non-empty query scores at least 35, and at least 36 unless it
    is a footer candidate whose text is one word of more than 70 units.
    Its score passes both thresholds of the message handler, so it is among
    the accepted candidates before the cut to [MAX_RESULTS].  The results
    are ordered by the total score alone: an entry stands before every
    entry of strictly lower score, whatever the texts and regions. *)
Theorem exact_match_score_and_rank (c : Candidate) (query : string) :
  is_empty (trim (toLowerCase query)) = false ->
  toLowerCase (c_text c) = trim (toLowerCase query) ->
  35 <= scoreCandidate c query
  /\ (~ (c_region c = footer /\ (70 < String.length (c_text c))%nat
          /\ has_ws (c_text c) = false) ->
      36 <= scoreCandidate c query)
  /\ (forall cands, In c cands ->
        In (scored_of c (scoreCandidate c query))
           (filter (fun r => MIN_ACCEPT_SCORE <= s_score r)
                   (sort_desc (scoreAll cands query))))
  /\ (forall cands (i j : nat) x y,
        pickResults (scoreAll cands query) !! i = Some x ->
        pickResults (scoreAll cands query) !! j = Some y ->
        s_score y < s_score x -> (i < j)%nat).
Proof.
  intros Hq Heq.
  assert (Hne : trim (toLowerCase query) <> EmptyString).
  { intros E. rewrite E in Hq. discriminate. }
  destruct (exact_match_lower_bounds c query Hne Heq) as [H35 H36].
  split; [exact H35|]. split; [exact H36|]. split.
  - intros cands Hin.
    apply list_elem_of_In, list_elem_of_filter. split.
    + unfold MIN_ACCEPT_SCORE. simpl. lia.
    + apply list_elem_of_In, sort_desc_In, scoreAll_In; [exact Hin | lia].
  - intros cands i j x y Hi Hj Hlt.
    eapply sorted_higher_first; [apply pickResults_sorted | exact Hi | exact Hj | exact Hlt].
Qed.

Lemma exact_match_score_and_rank_witness :
  35 <= scoreCandidate exactXyz "xyz"
  /\ (~ (c_region exactXyz = footer /\ (70 < String.length (c_text exactXyz))%nat
          /\ has_ws (c_text exactXyz) = false) ->
      36 <= scoreCandidate exactXyz "xyz")
  /\ (forall cands, In exactXyz cands ->
        In (scored_of exactXyz (scoreCandidate exactXyz "xyz"))
           (filter (fun r => MIN_ACCEPT_SCORE <= s_score r)
                   (sort_desc (scoreAll cands "xyz"))))
  /\ (forall cands (i j : nat) x y,
        pickResults (scoreAll cands "xyz") !! i = Some x ->
        pickResults (scoreAll cands "xyz") !! j = Some y ->
        s_score y < s_score x -> (i < j)%nat).
Proof.
  apply (exact_match_score_and_rank exactXyz "xyz"); reflexivity.
Defined.

(** C8 as stated fails twice.  A footer link whose text is the query, one
    word of 71 letters, scores 35.  And for the query "xyz" a link of the
    same region whose text only contains the query is listed before the
    link whose text is the query. *)
Lemma exact_match_counterexample :
  (toLowerCase (c_text longFooterLink) = trim (toLowerCase longWord)
   /\ scoreCandidate longFooterLink longWord = 35
   /\ ~ (36 <= scoreCandidate longFooterLink longWord))
  /\ (toLowerCase (c_text exactXyz) = trim (toLowerCase "xyz")
      /\ toLowerCase (c_text rivalXyz) <> trim (toLowerCase "xyz")
      /\ c_region exactXyz = c_region rivalXyz
      /\ map (fun r => (s_text r, s_score r))
             (pickResults (scoreAll [exactXyz; rivalXyz] "xyz"))
         = [("xyz support", 50); ("xyz", 48)]).
Proof.
  split.
  - split; [reflexivity|]. split; [reflexivity|].
    replace (scoreCandidate longFooterLink longWord) with 35 by reflexivity. lia.
  - split; [reflexivity|]. split; [discriminate|]. split; reflexivity.
Qed.

(** C9 (amended).  For the query "billing" the nav link "Pay My Bill" with
    href "/billing" scores 33, which is at least 18 and above the threshold
    8; the footer link "About Us" scores 0 (the footer malus of 5 is offset
    by the bonus of 5 for a short label), which is not positive, so it is
    left out; the handler answers with exactly one result, the first
    candidate, and highlights it. *)
Theorem billing_example :
  scoreCandidate payMyBill "billing" = 33
  /\ 18 <= scoreCandidate payMyBill "billing"
  /\ MIN_ACCEPT_SCORE < scoreCandidate payMyBill "billing"
  /\ scoreCandidate aboutUs "billing" = 0
  /\ scoreAll [payMyBill; aboutUs] "billing" = [scored_of payMyBill 33]
  /\ pickResults (scoreAll [payMyBill; aboutUs] "billing") = [scored_of payMyBill 33]
  /\ onMessage billingPage {| m_type := "sniffr-search"; m_query := Some "billing" |}
     = (Some {| found := true;
                results := [{| r_score := 33; r_type := link; r_text := "Pay My Bill";
                               r_href := Some "/billing"; r_region := nav;
                               r_tagName := "a" |}] |},
        Some 0%nat).
Proof. repeat split; vm_compute; congruence. Qed.

(** C9 as stated fails: the second candidate scores 0, not -5 or less. *)
Lemma billing_counterexample :
  scoreCandidate aboutUs "billing" = 0 /\ ~ (scoreCandidate aboutUs "billing" <= -5).
Proof.
  split; [reflexivity|].
  replace (scoreCandidate aboutUs "billing") with 0 by reflexivity. lia.
Qed.

(** *** The keyword listed twice *)

Lemma fold_navKeywords_ends {A} (f : A -> string -> A) (a : A) :
  fold_left f navKeywords a = f (fold_left f otherKeywords (f a "portal")) "portal".
Proof. reflexivity. Qed.

Lemma fold_navKeywords_last {A} (f : A -> string -> A) (a : A) :
  fold_left f navKeywords a = f (fold_left f (removelast navKeywords) a) "portal".
Proof. reflexivity. Qed.

Lemma keywordStep_portal text href q score :
  includes text "portal" || includes href "portal" = true ->
  keywordStep text href q score "portal"
  = score + 2 + (if includes q "portal" then 3 else 0).
Proof.
  intros H. unfold keywordStep. simpl is_empty. rewrite H.
  destruct (includes q "portal"); simpl; lia.
Qed.

(** C10.  "portal" stands twice in the keyword list and every other keyword
    once.  For a candidate whose text or href contains "portal", as written
    or after the lower-casing of the scorer, the keyword loop therefore
    adds 4, and 6 more when the query contains "portal" too, on top of what
    the other keywords add; the score is 2 (respectively 5) above the score
    under the list with "portal" listed once. *)
Theorem portal_counted_twice (c : Candidate) (query : string) :
  let q := trim (toLowerCase query) in
  let text := toLowerCase (c_text c) in
  let href := toLowerCase (or_empty (c_href c)) in
  includes (c_text c) "portal" || includes (or_empty (c_href c)) "portal"
  || includes text "portal" || includes href "portal" = true ->
  count_occ string_dec navKeywords "portal" = 2%nat
  /\ (forall kw, In kw navKeywords -> kw <> "portal" ->
        count_occ string_dec navKeywords kw = 1%nat)
  /\ (forall score,
        fold_left (keywordStep text href q) navKeywords score
        = score + 4 + (if includes q "portal" then 6 else 0)
          + fold_left (keywordStep text href q) otherKeywords 0)
  /\ (is_empty q = false ->
      scoreCandidate c query
      = scoreCandidateWith (removelast navKeywords) c query
        + 2 + (if includes q "portal" then 3 else 0)).
Proof.
  intros q text href Hraw.
  assert (Hportal : includes text "portal" || includes href "portal" = true).
  { apply orb_true_iff in Hraw as [Hraw|Hraw]; [|by rewrite Hraw, orb_true_r].
    apply orb_true_iff in Hraw as [Hraw|Hraw]; [|by rewrite Hraw].
    apply orb_true_iff in Hraw as [Hraw|Hraw].
    - apply includes_lower in Hraw. fold text in Hraw.
      change (toLowerCase "portal") with "portal" in Hraw. by rewrite Hraw.
    - apply includes_lower in Hraw. fold href in Hraw.
      change (toLowerCase "portal") with "portal" in Hraw. by rewrite Hraw, orb_true_r. }
  split; [reflexivity|]. split.
  { intros kw Hin Hne. simpl in Hin.
    repeat (destruct Hin as [<-|Hin]; [first [reflexivity | congruence]|]). done. }
  split.
  - intros score.
    rewrite fold_navKeywords_ends, !keywordStep_portal by exact Hportal.
    rewrite fold_keywordStep_additive.
    destruct (includes q "portal"); lia.
  - intros Hq. unfold scoreCandidate, scoreCandidateWith.
    fold q text href. rewrite Hq.
    rewrite fold_navKeywords_last, keywordStep_portal by exact Hportal.
    set (K := fold_left (keywordStep text href q) (removelast navKeywords) _).
    destruct (includes q "portal"), (c_region c), (c_type c); simpl regionBonus;
      repeat match goal with |- context [if ?b then _ else _] => destruct b end; lia.
Qed.

Lemma portal_counted_twice_witness :
  count_occ string_dec navKeywords "portal" = 2%nat
  /\ (forall kw, In kw navKeywords -> kw <> "portal" ->
        count_occ string_dec navKeywords kw = 1%nat)
  /\ (forall score,
        fold_left
          (keywordStep (toLowerCase (c_text portalLink))
             (toLowerCase (or_empty (c_href portalLink)))
             (trim (toLowerCase "Portal")))
          navKeywords score
        = score + 4
          + (if includes (trim (toLowerCase "Portal")) "portal" then 6 else 0)
          + fold_left
              (keywordStep (toLowerCase (c_text portalLink))
                 (toLowerCase (or_empty (c_href portalLink)))
                 (trim (toLowerCase "Portal")))
              otherKeywords 0)
  /\ (is_empty (trim (toLowerCase "Portal")) = false ->
      scoreCandidate portalLink "Portal"
      = scoreCandidateWith (removelast navKeywords) portalLink "Portal"
        + 2 + (if includes (trim (toLowerCase "Portal")) "portal" then 3 else 0)).
Proof.
  apply (portal_counted_twice portalLink "Portal"). reflexivity.
Defined.

(** *** What the collection does guarantee *)

Lemma pushCandidate_candidates obj st :
  candidates (pushCandidate obj st) = candidates st
  \/ (seen st !! candidate_key obj = None
      /\ candidates (pushCandidate obj st) = candidates st ++ [obj]
      /\ seen (pushCandidate obj st) = <[candidate_key obj := tt]> (seen st)).
Proof.
  unfold pushCandidate, seen_has.
  destruct (seen st !! candidate_key obj) eqn:E; [by left | right; by simpl].
Qed.

(** One loop adds a subsequence of the candidates of its elements, in
    their order. *)
Lemma scan_sublist mk els : forall st,
  exists added, candidates (scan mk els st) = candidates st ++ added
                /\ sublist added (omap mk els).
Proof.
  induction els as [|e els IH]; intros st; cbn -[pushCandidate MAX_CANDIDATES].
  - exists []. split; [by rewrite app_nil_r | constructor].
  - destruct (mk e) as [obj|]; [|apply IH].
    destruct (pushCandidate_candidates obj st) as [Hsame|(_ & Hpush & _)].
    + destruct (MAX_CANDIDATES <=? length (candidates (pushCandidate obj st)))%nat.
      * exists []. split; [by rewrite Hsame, app_nil_r | apply sublist_nil_l].
      * destruct (IH (pushCandidate obj st)) as (added & Heq & Hsub).
        exists added. split; [by rewrite Heq, Hsame | by apply sublist_cons].
    + destruct (MAX_CANDIDATES <=? length (candidates (pushCandidate obj st)))%nat.
      * exists [obj]. split; [exact Hpush|].
        apply sublist_skip, sublist_nil_l.
      * destruct (IH (pushCandidate obj st)) as (added & Heq & Hsub).
        exists (obj :: added). split.
        -- by rewrite Heq, Hpush, <- app_assoc.
        -- by apply sublist_skip.
Qed.

(** One loop stops at the cap, or one push after it when it starts at or
    above the cap. *)
Lemma scan_length mk els : forall st,
  (length (candidates (scan mk els st))
   <= Nat.max (S (length (candidates st))) MAX_CANDIDATES)%nat.
Proof.
  induction els as [|e els IH]; intros st; cbn -[pushCandidate MAX_CANDIDATES]; [lia|].
  destruct (mk e) as [obj|]; [|apply IH].
  assert (Hpush : (length (candidates (pushCandidate obj st))
                   <= S (length (candidates st)))%nat).
  { destruct (pushCandidate_candidates obj st) as [->|(_ & -> & _)];
      [lia | rewrite length_app; simpl; lia]. }
  destruct (MAX_CANDIDATES <=? length (candidates (pushCandidate obj st)))%nat eqn:Hcap.
  - lia.
  - apply Nat.leb_gt in Hcap. specialize (IH (pushCandidate obj st)). lia.
Qed.

Lemma pushCandidate_ok obj st : collected_ok st -> collected_ok (pushCandidate obj st).
Proof.
  intros [Hnd Hseen].
  destruct (pushCandidate_candidates obj st) as [Hsame|(Hnew & Hpush & Hs)].
  - unfold pushCandidate, seen_has in *.
    destruct (seen st !! candidate_key obj); [by split|].
    simpl in Hsame. apply (f_equal (@length _)) in Hsame.
    rewrite length_app in Hsame. simpl in Hsame. lia.
  - unfold collected_ok. rewrite Hpush, Hs. split.
    + rewrite map_app. simpl. apply NoDup_app. split; [exact Hnd|]. split.
      * intros k Hk [<-|[]]%list_elem_of_In.
        apply list_elem_of_In, in_map_iff in Hk as (c & Hc & Hin).
        specialize (Hseen c Hin). congruence.
      * apply NoDup_singleton.
    + intros c [Hin|[<-|[]]]%in_app_or.
      * destruct (decide (candidate_key obj = candidate_key c)) as [->|Hne].
        -- apply lookup_insert_eq.
        -- rewrite lookup_insert_ne by exact Hne. by apply Hseen.
      * apply lookup_insert_eq.
Qed.

Lemma scan_ok mk els : forall st, collected_ok st -> collected_ok (scan mk els st).
Proof.
  induction els as [|e els IH]; intros st Hok; cbn -[pushCandidate MAX_CANDIDATES];
    [exact Hok|].
  destruct (mk e) as [obj|]; [|by apply IH].
  destruct (MAX_CANDIDATES <=? length (candidates (pushCandidate obj st)))%nat.
  - by apply pushCandidate_ok.
  - by apply IH, pushCandidate_ok.
Qed.

(** X2.  The collection holds at most [MAX_CANDIDATES + 2] candidates, no two of
    them with the same type, href and first 60 units of text, and it keeps
    the order of the document within links, buttons and headings, in this
    order of the three groups. *)
Theorem getSearchCandidates_guarantees (page : Page) :
  (length (getSearchCandidates page) <= MAX_CANDIDATES + 2)%nat
  /\ NoDup (map candidate_key (getSearchCandidates page))
  /\ NoDup (map identity (getSearchCandidates page))
  /\ sublist (getSearchCandidates page)
       (omap anchor_candidate (anchors page)
        ++ omap button_candidate (buttons page)
        ++ omap heading_candidate (heads page)).
Proof.
  unfold getSearchCandidates.
  set (st0 := {| candidates := []; seen := ∅ |}).
  set (st1 := scan anchor_candidate (anchors page) st0).
  set (st2 := scan button_candidate (buttons page) st1).
  set (st3 := scan heading_candidate (heads page) st2).
  assert (Hok : collected_ok st3).
  { apply scan_ok, scan_ok, scan_ok. split; [constructor | intros c []]. }
  split; [|split; [exact (proj1 Hok)|split]].
  - pose proof (scan_length anchor_candidate (anchors page) st0) as H1.
    pose proof (scan_length button_candidate (buttons page) st1) as H2.
    pose proof (scan_length heading_candidate (heads page) st2) as H3.
    fold st1 in H1, H2. fold st2 in H2, H3. fold st3 in H3.
    simpl in H1. unfold MAX_CANDIDATES in *. lia.
  - destruct Hok as [Hnd _].
    assert (Hkey : map candidate_key (candidates st3)
                   = map (fun i => type_name i.1.1 +:+ "|" +:+ i.1.2 +:+ "|" +:+ i.2)
                         (map identity (candidates st3))).
    { rewrite map_map. reflexivity. }
    rewrite Hkey in Hnd. by apply NoDup_fmap_1 in Hnd.
  - destruct (scan_sublist anchor_candidate (anchors page) st0) as (a1 & E1 & S1).
    destruct (scan_sublist button_candidate (buttons page) st1) as (a2 & E2 & S2).
    destruct (scan_sublist heading_candidate (heads page) st2) as (a3 & E3 & S3).
    fold st1 in E1, E2. fold st2 in E2, E3. fold st3 in E3.
    rewrite E3, E2, E1. simpl. rewrite <- app_assoc.
    by repeat apply sublist_app.
Qed.

(** *** The region bonus *)

(** X3.  With text, href and type fixed, the score moves with the region
    by the fixed amounts 11, 6, 4, 0 and -5. *)
Theorem region_bonus_deltas (c : Candidate) (query : string) :
  scoreCandidate (with_region c nav) query
  = scoreCandidate (with_region c body) query
    + (if is_empty (trim (toLowerCase query)) then 0 else 11)
  /\ scoreCandidate (with_region c header) query
     = scoreCandidate (with_region c body) query
       + (if is_empty (trim (toLowerCase query)) then 0 else 6)
  /\ scoreCandidate (with_region c upper) query
     = scoreCandidate (with_region c body) query
       + (if is_empty (trim (toLowerCase query)) then 0 else 4)
  /\ scoreCandidate (with_region c footer) query
     = scoreCandidate (with_region c body) query
       - (if is_empty (trim (toLowerCase query)) then 0 else 5).
Proof.
  unfold scoreCandidate, scoreCandidateWith. cbn [with_region c_region c_text c_href c_type].
  destruct (is_empty (trim (toLowerCase query))); [repeat split; reflexivity|].
  set (K := fold_left _ navKeywords _). cbn [regionBonus].
  repeat split; destruct (c_type c);
    repeat match goal with |- context [if ?b then _ else _] => destruct b end; lia.
Qed.

(** X4.  The results hold at most [MAX_RESULTS] entries, each with a score
    of at least [MIN_ACCEPT_SCORE], in descending order of score. *)
Theorem pickResults_shape (scored : list Scored) :
  (length (pickResults scored) <= MAX_RESULTS)%nat
  /\ Forall (fun r => MIN_ACCEPT_SCORE <= s_score r) (pickResults scored)
  /\ StronglySorted desc (pickResults scored).
Proof.
  split; [|split].
  - unfold pickResults. rewrite length_firstn. lia.
  - unfold pickResults. rewrite List.Forall_forall. intros r Hr.
    apply In_firstn_inv, list_elem_of_In, list_elem_of_filter in Hr. tauto.
  - apply pickResults_sorted.
Qed.

(** *** The cap of the collection *)

(** C7, at the failing input: a page with 800 distinct visible links, one
    visible button and one visible heading yields 802 candidates, two more
    than [MAX_CANDIDATES]: the button loop and the heading loop each push
    once before they test the cap. *)
Theorem cap_overshoot :
  MAX_CANDIDATES = 800%nat
  /\ length (anchors bigPage) = 800%nat
  /\ length (getSearchCandidates bigPage) = 802%nat
  /\ map c_type (skipn 800 (getSearchCandidates bigPage)) = [button; heading].
Proof. repeat split; vm_compute; reflexivity. Qed.

(** *** Where candidates come from *)

Lemma anchor_candidate_Some a c :
  anchor_candidate a = Some c ->
  isVisible a = true /\ c_type c = link /\ c_element c = el_ref a
  /\ c_text c = extractText a /\ c_region c = getRegion a
  /\ truthy (c_text c) || truthy (or_empty (c_href c)) = true.
Proof.
  unfold anchor_candidate. destruct (isVisible a); [|discriminate]. simpl.
  destruct (negb (truthy (extractText a)) && _) eqn:E; [discriminate|].
  intros [= <-]. simpl. repeat split.
  apply andb_false_iff in E as [E|E]; apply negb_false_iff in E; rewrite E;
    [reflexivity | apply orb_true_r].
Qed.

Lemma or_null_or_empty o : or_empty (or_null o) = or_empty o.
Proof. destruct o as [[|c s]|]; reflexivity. Qed.

Lemma button_candidate_Some b c :
  button_candidate b = Some c ->
  isVisible b = true /\ c_type c = button /\ c_element c = el_ref b
  /\ c_text c = extractText b /\ c_region c = getRegion b
  /\ truthy (c_text c) || truthy (or_empty (c_href c)) = true.
Proof.
  unfold button_candidate. destruct (isVisible b); [|discriminate]. simpl.
  destruct (negb (truthy (extractText b)) && _) eqn:E; [discriminate|].
  intros [= <-]. cbn [c_type c_element c_text c_region c_href]. repeat split.
  change (truthy (extractText b)
          || truthy (or_empty (or_null (Some (or_empty (el_href_attr b))))) = true).
  rewrite or_null_or_empty.
  apply andb_false_iff in E as [E|E]; apply negb_false_iff in E; simpl; rewrite E;
    [reflexivity | apply orb_true_r].
Qed.

Lemma heading_candidate_Some h c :
  heading_candidate h = Some c ->
  isVisible h = true /\ c_type c = heading /\ c_element c = el_ref h
  /\ c_text c = extractText h /\ c_region c = getRegion h
  /\ truthy (c_text c) = true /\ c_href c = None.
Proof.
  unfold heading_candidate. destruct (isVisible h); [|discriminate]. simpl.
  destruct (truthy (extractText h)) eqn:E; [|discriminate]. simpl.
  intros [= <-]. simpl. repeat split. exact E.
Qed.

(** Every collected candidate is made from an element of one of the three
    groups. *)
Lemma getSearchCandidates_In page c :
  In c (getSearchCandidates page) ->
  (exists a, In a (anchors page) /\ anchor_candidate a = Some c)
  \/ (exists b, In b (buttons page) /\ button_candidate b = Some c)
  \/ (exists h, In h (heads page) /\ heading_candidate h = Some c).
Proof.
  unfold getSearchCandidates.
  set (st0 := {| candidates := []; seen := ∅ |}).
  destruct (scan_sublist anchor_candidate (anchors page) st0) as (a1 & E1 & S1).
  set (st1 := scan anchor_candidate (anchors page) st0) in *.
  destruct (scan_sublist button_candidate (buttons page) st1) as (a2 & E2 & S2).
  set (st2 := scan button_candidate (buttons page) st1) in *.
  destruct (scan_sublist heading_candidate (heads page) st2) as (a3 & E3 & S3).
  rewrite E3, E2, E1. simpl.
  assert (Hfrom : forall mk els added, sublist added (omap mk els) -> In c added ->
                  exists e : Element, In e els /\ mk e = Some c).
  { intros mk els added Hsub Hin.
    apply list_elem_of_In in Hin.
    pose proof (elem_of_sublist _ _ _ Hin Hsub) as Hc.
    apply list_elem_of_omap in Hc as (e & He & Hmk).
    exists e. split; [by apply list_elem_of_In | exact Hmk]. }
  intros [[Hin|Hin]%in_app_or|Hin]%in_app_or.
  - left. eapply Hfrom; eassumption.
  - right. left. eapply Hfrom; eassumption.
  - right. right. eapply Hfrom; eassumption.
Qed.

(** X8.  Every collected candidate stems from a visible element of the
    group of its type, carries the extracted text and the region of that
    element, and has a text or an href; a heading has a text and no href. *)
Theorem candidate_origin (page : Page) (c : Candidate) :
  In c (getSearchCandidates page) ->
  (exists el, In el (group page (c_type c)) /\ isVisible el = true
              /\ c_element c = el_ref el /\ c_text c = extractText el
              /\ c_region c = getRegion el)
  /\ truthy (c_text c) || truthy (or_empty (c_href c)) = true
  /\ (c_type c = heading -> truthy (c_text c) = true /\ c_href c = None).
Proof.
  intros [(a & Hin & Hc)|[(b & Hin & Hc)|(h & Hin & Hc)]]%getSearchCandidates_In.
  - apply anchor_candidate_Some in Hc as (Hv & Ht & He & Hx & Hr & Hne).
    rewrite Ht. split; [exists a; by repeat split|]. split; [exact Hne | discriminate].
  - apply button_candidate_Some in Hc as (Hv & Ht & He & Hx & Hr & Hne).
    rewrite Ht. split; [exists b; by repeat split|]. split; [exact Hne | discriminate].
  - apply heading_candidate_Some in Hc as (Hv & Ht & He & Hx & Hr & Hne & Hh).
    rewrite Ht. split; [exists h; by repeat split|].
    split; [by rewrite Hne | by intros _].
Qed.

(** *** The extracted text *)

Lemma first_readable_shape props :
  starts_ok (first_readable props) = true
  /\ ends_ok (first_readable props) = true
  /\ single_spaced (first_readable props) = true
  /\ is_empty (first_readable props) = forallb blank props.
Proof.
  induction props as [|[s|] props IH]; cbn [first_readable forallb blank];
    [repeat split | | exact IH].
  unfold truthy. destruct (is_empty (trim s)) eqn:E; cbn [negb andb]; [exact IH|].
  split; [apply collapse_starts_ok, trim_starts_ok|].
  split; [apply collapse_go_ends_ok, trim_ends_ok|].
  split; [apply collapse_go_single_spaced|].
  assert (Hne : collapse_ws (trim s) <> EmptyString).
  { apply collapse_go_nonempty; [|apply trim_ends_ok].
    intros H. rewrite H in E. discriminate. }
  destruct (collapse_ws (trim s)); [congruence | reflexivity].
Qed.

(** X9.  The extracted text neither starts nor ends with white space, its
    only white space units are single spaces between other units, and it
    is empty exactly when each of the six sources is absent or blank. *)
Theorem extractText_shape (el : Element) :
  starts_ok (extractText el) = true
  /\ ends_ok (extractText el) = true
  /\ single_spaced (extractText el) = true
  /\ is_empty (extractText el) = forallb blank (sources el).
Proof. apply first_readable_shape. Qed.

(** *** The region *)

Lemma region_of_chain_landmark node up :
  region_of_chain (node :: up)
  = match landmark_of node with
    | Some r => Some r
    | None => region_of_chain up
    end.
Proof.
  destruct node as [tag role]. unfold landmark_of. cbn [region_of_chain fst snd].
  repeat match goal with |- context [if ?b then _ else _] => destruct b end;
    reflexivity.
Qed.

Lemma region_of_chain_inner inner : forall rest,
  Forall (fun n => landmark_of n = None) inner ->
  region_of_chain (inner ++ rest) = region_of_chain rest.
Proof.
  induction inner as [|n inner IH]; intros rest Hall; [reflexivity|].
  apply Forall_cons in Hall as [Hn Hall].
  change ((n :: inner) ++ rest) with (n :: (inner ++ rest)).
  rewrite region_of_chain_landmark, Hn. by apply IH.
Qed.

(** X10.  The region of an element is that of the innermost landmark among
    the element and its ancestors, whatever lies outside of this landmark
    and wherever the element is on the screen. *)
Theorem getRegion_innermost (el : Element) (inner outer : list (string * string))
    (node : string * string) (r : Region) :
  el_chain el = inner ++ node :: outer ->
  Forall (fun n => landmark_of n = None) inner ->
  landmark_of node = Some r ->
  getRegion el = r.
Proof.
  intros Hchain Hinner Hnode. unfold getRegion.
  by rewrite Hchain, region_of_chain_inner, region_of_chain_landmark, Hnode.
Qed.

(** *** Bounds of the score *)

Lemma fold_wordStep_mono text href ws : forall score,
  score <= fold_left (wordStep text href) ws score.
Proof.
  induction ws as [|w ws IH]; intros score; simpl; [lia|].
  pose proof (wordStep_ge text href score w). specialize (IH (wordStep text href score w)).
  lia.
Qed.

(** The score before the adjustments for region, type, length and wording
    is not negative. *)
Lemma matching_score_nonneg (text href q : string) :
  0 <= fold_left (keywordStep text href q) navKeywords
         (let score :=
            fold_left (wordStep text href) (words q)
              (let score := if String.eqb text q then 0 + 22 else 0 in
               if includes text q then score + 14 else score) in
          if includes href q then score + 7 else score).
Proof.
  cbv zeta.
  set (s0 := if includes text q then _ else _).
  assert (H0 : 0 <= s0).
  { subst s0. destruct (String.eqb text q), (includes text q); lia. }
  pose proof (fold_wordStep_mono text href (words q) s0) as H1.
  set (s1 := fold_left (wordStep text href) (words q) s0) in *.
  set (s2 := if includes href q then s1 + 7 else s1).
  assert (H2 : 0 <= s2) by (subst s2; destruct (includes href q); lia).
  pose proof (fold_keywordStep_ge text href q navKeywords s2). lia.
Qed.

Lemma scoreCandidate_unfold (c : Candidate) (query : string) :
  is_empty (trim (toLowerCase query)) = false ->
  scoreCandidate c query
  = let q := trim (toLowerCase query) in
    let text := toLowerCase (c_text c) in
    let href := toLowerCase (or_empty (c_href c)) in
    let matching :=
      fold_left (keywordStep text href q) navKeywords
        (let score :=
           fold_left (wordStep text href) (words q)
             (let score := if String.eqb text q then 0 + 22 else 0 in
              if includes text q then score + 14 else score) in
         if includes href q then score + 7 else score) in
    let score := regionBonus (c_region c) matching in
    let score := match c_type c with heading => score + 3 | _ => score end in
    let len := if truthy (c_text c)
               then Z.of_nat (String.length (c_text c)) else 0 in
    let score :=
      if (0 <? len) && (len <=? 30) then score + 5
      else if 70 <? len then score - 3 else score in
    if generic_label (c_text c) then score - 2 else score.
Proof. intros E. unfold scoreCandidate, scoreCandidateWith. by rewrite E. Qed.

(** X11.  No score is below -10, and a score is negative only for a
    candidate in the footer, with a text of more than 70 units, or with a
    generic label. *)
Theorem scoreCandidate_lower_bounds (c : Candidate) (query : string) :
  -10 <= scoreCandidate c query
  /\ (scoreCandidate c query < 0 ->
      c_region c = footer \/ (70 < String.length (c_text c))%nat
      \/ generic_label (c_text c) = true).
Proof.
  destruct (is_empty (trim (toLowerCase query))) eqn:E.
  { unfold scoreCandidate, scoreCandidateWith. rewrite E. split; lia. }
  rewrite (scoreCandidate_unfold c query E). cbv zeta.
  pose proof (matching_score_nonneg (toLowerCase (c_text c))
                (toLowerCase (or_empty (c_href c))) (trim (toLowerCase query))) as Hm.
  cbv zeta in Hm. set (m := fold_left _ navKeywords _) in *. clearbody m.
  assert (Hlen : (70 <? (if truthy (c_text c)
                         then Z.of_nat (String.length (c_text c)) else 0)) = true
                 -> (70 < String.length (c_text c))%nat).
  { destruct (truthy (c_text c)); intros H%Z.ltb_lt; lia. }
  destruct (c_region c) eqn:Hr, (c_type c), (generic_label (c_text c)),
    ((0 <? (if truthy (c_text c) then Z.of_nat (String.length (c_text c)) else 0))
     && ((if truthy (c_text c) then Z.of_nat (String.length (c_text c)) else 0) <=? 30)),
    (70 <? (if truthy (c_text c) then Z.of_nat (String.length (c_text c)) else 0));
    cbn [regionBonus]; (split; [lia|]); intros Hneg;
    first [ lia | by left | by right; right | right; left; by apply Hlen ].
Qed.

(** *** The answer of the message handler *)

Lemma scoreCandidate_trim (c : Candidate) (query : string) :
  scoreCandidate c (trim query) = scoreCandidate c query.
Proof.
  unfold scoreCandidate, scoreCandidateWith.
  by rewrite <- trim_lower, trim_idem.
Qed.


Lemma scoreAll_In_inv (cands : list Candidate) (query : string) (s : Scored) :
  In s (scoreAll cands query) ->
  exists c, In c cands /\ 0 < scoreCandidate c query
            /\ s = scored_of c (scoreCandidate c query).
Proof.
  unfold scoreAll.
  assert (H : forall acc,
            In s (fold_left
                    (fun scored c =>
                       let s := scoreCandidate c query in
                       if 0 <? s then scored ++ [scored_of c s] else scored)
                    cands acc) ->
            In s acc \/ exists c, In c cands /\ 0 < scoreCandidate c query
                                  /\ s = scored_of c (scoreCandidate c query)).
  { induction cands as [|c cands IH]; intros acc Hin; simpl in Hin; [by left|].
    apply IH in Hin as [Hin|(c' & Hc' & Hpos & Heq)].
    - destruct (0 <? scoreCandidate c query) eqn:Hpos; [|by left].
      apply in_app_or in Hin as [Hin|[<-|[]]]; [by left|].
      right. exists c. split; [by left|]. split; [by apply Z.ltb_lt | reflexivity].
    - right. exists c'. split; [by right | by split]. }
  intros Hin. apply H in Hin as [[]|Hin]. exact Hin.
Qed.

Lemma pickResults_In (scored : list Scored) (s : Scored) :
  In s (pickResults scored) -> In s scored /\ MIN_ACCEPT_SCORE <= s_score s.
Proof.
  unfold pickResults. intros Hin%In_firstn_inv.
  apply list_elem_of_In, list_elem_of_filter in Hin as [Hs Hin].
  split; [by apply sort_desc_In, list_elem_of_In | exact Hs].
Qed.

Lemma pickResults_head (scored : list Scored) (best : Scored) (rest : list Scored) :
  pickResults scored = best :: rest ->
  forall s, In s scored -> s_score s <= s_score best.
Proof.
  unfold pickResults. intros Hpick s Hin.
  pose proof (sorted_filter (fun r => MIN_ACCEPT_SCORE <= s_score r) _
                (sort_desc_sorted scored)) as Hsorted.
  destruct (filter (fun r => MIN_ACCEPT_SCORE <= s_score r) (sort_desc scored))
    as [|b l] eqn:Hf; [discriminate|].
  injection Hpick as -> _.
  assert (Hbest : MIN_ACCEPT_SCORE <= s_score best).
  { assert (Hb : best ∈ best :: l) by left.
    rewrite <- Hf in Hb. by apply list_elem_of_filter in Hb as [Hb _]. }
  destruct (decide (MIN_ACCEPT_SCORE <= s_score s)) as [Hs|Hs]; [|lia].
  assert (Hsf : s ∈ best :: l).
  { rewrite <- Hf. apply list_elem_of_filter. split; [exact Hs|].
    by apply list_elem_of_In, sort_desc_In. }
  apply StronglySorted_inv in Hsorted as [_ Hall].
  apply elem_of_cons in Hsf as [->|Hsf]; [lia|].
  rewrite List.Forall_forall in Hall. apply list_elem_of_In in Hsf.
  exact (Hall s Hsf).
Qed.


(** The listener on a search message: when the query is not blank and a
    collected link has an object for its href, the scoring throws;
    otherwise the answer is made of the picked results, unless the lookup
    by the href of the best one throws. *)
Lemma onMessage_throws (page : Page) (query : string) :
  truthy (trim query) && existsb (href_is_object page) (getSearchCandidates page) = true ->
  onMessage page (searchMessage query) = (None, None).
Proof.
  intros [Hq Hobj]%andb_true_iff.
  unfold onMessage, searchMessage. cbn [m_type m_query or_empty].
  change (negb ("sniffr-search" =? "sniffr-search")%string) with false. cbv iota.
  by rewrite Hq, Hobj.
Qed.

Lemma onMessage_search (page : Page) (query : string) :
  truthy (trim query) && existsb (href_is_object page) (getSearchCandidates page) = false ->
  onMessage page (searchMessage query)
  = match pickResults (scoreAll (getSearchCandidates page) (trim query)) with
    | best :: rest =>
        if truthy (trim query)
        then (if lookup_throws page best then (None, None)
              else (Some {| found := true; results := map serialize (best :: rest) |},
                    highlightTarget page best))
        else (Some {| found := false; results := [] |}, None)
    | [] => (Some {| found := false; results := [] |}, None)
    end.
Proof.
  intros Hok.
  unfold onMessage, searchMessage. cbn [m_type m_query or_empty].
  change (negb ("sniffr-search" =? "sniffr-search")%string) with false. cbv iota.
  destruct (truthy (trim query)); cbn [negb andb] in *;
    [rewrite Hok|]; destruct (pickResults _); reflexivity.
Qed.

(** The best picked result is made of a collected candidate of the greatest
    score, which is at least [MIN_ACCEPT_SCORE]. *)
Lemma picked_best (page : Page) (query : string) (best : Scored) (rest : list Scored) :
  pickResults (scoreAll (getSearchCandidates page) (trim query)) = best :: rest ->
  exists c, In c (getSearchCandidates page)
    /\ MIN_ACCEPT_SCORE <= scoreCandidate c query
    /\ (forall c', In c' (getSearchCandidates page) ->
                   scoreCandidate c' query <= scoreCandidate c query)
    /\ best = scored_of c (scoreCandidate c query).
Proof.
  set (cands := getSearchCandidates page). intros Hp.
  assert (Hin : In best (pickResults (scoreAll cands (trim query))))
    by (rewrite Hp; by left).
  apply pickResults_In in Hin as [Hin Hs].
  apply scoreAll_In_inv in Hin as (c & Hc & Hpos & Hbest).
  exists c. split; [exact Hc|].
  rewrite Hbest in Hs. cbn [scored_of s_score] in Hs.
  rewrite scoreCandidate_trim in Hs, Hpos, Hbest. split; [exact Hs|].
  split; [|exact Hbest].
  intros c' Hc'.
  destruct (decide (0 < scoreCandidate c' query)) as [Hpos'|]; [|lia].
  assert (Hin' : In (scored_of c' (scoreCandidate c' (trim query)))
                    (scoreAll cands (trim query))).
  { apply scoreAll_In; [exact Hc' | by rewrite scoreCandidate_trim]. }
  apply (pickResults_head _ _ _ Hp) in Hin'.
  rewrite Hbest in Hin'. cbn [scored_of s_score] in Hin'.
  by rewrite !scoreCandidate_trim in Hin'.
Qed.








(** X13.  The highlighted element belongs to a collected candidate of the
    greatest score, which is at least [MIN_ACCEPT_SCORE]: it is the element
    of this candidate when the document still contains it, and otherwise
    the anchor found by the candidate's href. *)
Theorem highlight_is_best (page : Page) (query : string) (n : nat) :
  (onMessage page (searchMessage query)).2 = Some n ->
  exists c, In c (getSearchCandidates page)
    /\ MIN_ACCEPT_SCORE <= scoreCandidate c query
    /\ (forall c', In c' (getSearchCandidates page) ->
                   scoreCandidate c' query <= scoreCandidate c query)
    /\ (if attached page (c_element c) then n = c_element c
        else exists h, c_href c = Some h /\ truthy h = true
                       /\ anchor_by_href page h = Some n).
Proof.
  destruct (truthy (trim query)
            && existsb (href_is_object page) (getSearchCandidates page)) eqn:Hok;
    [by rewrite (onMessage_throws page query Hok)|].
  rewrite (onMessage_search page query Hok).
  destruct (pickResults (scoreAll (getSearchCandidates page) (trim query)))
    as [|best rest] eqn:Hp; [discriminate|].
  destruct (truthy (trim query)) eqn:Hq; [|discriminate].
  destruct (lookup_throws page best); [discriminate|].
  cbn [snd]. intros Hn.
  destruct (picked_best page query best rest Hp) as (c & Hc & Hs & Hmax & Hbest).
  exists c. split; [exact Hc|]. split; [exact Hs|]. split; [exact Hmax|].
  unfold highlightTarget in Hn. rewrite Hbest in Hn. cbn [scored_of s_element s_href] in Hn.
  destruct (attached page (c_element c)); [congruence|].
  destruct (c_href c) as [h|]; [|discriminate]. cbn [or_null] in Hn.
  destruct (truthy h) eqn:Hh; [|discriminate].
  exists h. by repeat split.
Qed.


(** *** The highlight and its timer *)

Lemma step_keeps (o : string) (el : Styled) (s : Step) :
  truthy o = true ->
  outlineOffset el = "4px" /\ (settled o el \/ lit o el) ->
  outlineOffset (step el s) = "4px" /\ (settled o (step el s) \/ lit o (step el s)).
Proof.
  intros Ho [Hoff [[Hp Hout]|[Hp Hout]]]; destruct s;
    unfold step, highlightElement, restoreOutline, settled, lit;
    rewrite Hp; cbn [or_empty]; try rewrite Ho; cbn; auto.
  split; [reflexivity|]. right. by rewrite Hout.
Qed.

Lemma run_keeps (o : string) (steps : list Step) : forall el,
  truthy o = true ->
  outlineOffset el = "4px" /\ (settled o el \/ lit o el) ->
  outlineOffset (run steps el) = "4px"
  /\ (settled o (run steps el) \/ lit o (run steps el)).
Proof.
  induction steps as [|s steps IH]; intros el Ho Hel; [exact Hel|].
  apply (IH (step el s) Ho). by apply step_keeps.
Qed.

(** When all timers have fired, the last step was a timer. *)
Lemma pending_last (steps : list Step) : forall n,
  pending n steps = Some 0%nat ->
  (steps = [] /\ n = 0%nat) \/ exists before, steps = before ++ [TimerFires].
Proof.
  induction steps as [|s steps IH]; intros n H; [left; split; [reflexivity|by injection H]|].
  right. destruct s; simpl in H.
  - apply IH in H as [[_ [=]]|(before & ->)]. by exists (Highlight :: before).
  - destruct n as [|n]; [discriminate|].
    apply IH in H as [[-> _]|(before & ->)]; [by exists [] | by exists (TimerFires :: before)].
Qed.

Lemma run_settles (o : string) (steps : list Step) (n : nat) (el : Styled) :
  truthy o = true ->
  outlineOffset el = "4px" -> lit o el ->
  pending (S n) steps = Some 0%nat ->
  run steps el = {| outline := o; outlineOffset := "4px"; prev_outline := None |}.
Proof.
  intros Ho Hoff Hlit Hp.
  apply pending_last in Hp as [[_ [=]]|(before & ->)].
  unfold run. rewrite fold_left_app. cbn [fold_left step].
  destruct (run_keeps o before el Ho (conj Hoff (or_intror Hlit))) as [Hoff' Hst].
  fold (run before el). destruct (run before el) as [out off prev].
  unfold settled, lit, restoreOutline in *. simpl in *.
  destruct Hst as [[-> ->]|[-> ->]]; by rewrite Hoff'.
Qed.

(** X15.  Once every timer has fired, an element that had an inline
    outline of its own and no saved outline shows its own outline again
    and has no saved outline, however highlights and timers were
    interleaved; the outline offset stays at the value set by the
    highlight. *)
Theorem highlight_restored (el : Styled) (steps : list Step) :
  prev_outline el = None ->
  truthy (outline el) = true ->
  steps <> [] ->
  pending 0 steps = Some 0%nat ->
  run steps el
  = {| outline := outline el; outlineOffset := "4px"; prev_outline := None |}.
Proof.
  intros Hprev Ho Hne Hp.
  destruct steps as [|[] steps]; [congruence | | discriminate].
  cbn [pending] in Hp. unfold run. cbn [fold_left step].
  apply (run_settles (outline el) steps 0); [exact Ho | reflexivity | | exact Hp].
  unfold lit, highlightElement. rewrite Hprev. by cbn.
Qed.

(** X16.  An element without inline outline that is highlighted a second
    time before the first timer fires keeps the highlight for ever: after
    all timers have fired it still shows the highlight outline, and no
    outline is saved from which it could be restored. *)
Theorem highlight_sticks (el : Styled) (steps : list Step) :
  prev_outline el = None ->
  outline el = EmptyString ->
  pending 2 steps = Some 0%nat ->
  run (Highlight :: Highlight :: steps) el
  = {| outline := HIGHLIGHT; outlineOffset := "4px"; prev_outline := None |}.
Proof.
  intros Hprev Ho Hp. unfold run. cbn [fold_left step].
  apply (run_settles HIGHLIGHT steps 1); [reflexivity | reflexivity | | exact Hp].
  unfold lit, highlightElement. rewrite Hprev, Ho. by cbn.
Qed.

(** *** The statements above at concrete inputs *)

Lemma candidate_origin_witness :
  (exists el, In el (group billingPage (c_type payMyBill)) /\ isVisible el = true
              /\ c_element payMyBill = el_ref el /\ c_text payMyBill = extractText el
              /\ c_region payMyBill = getRegion el)
  /\ truthy (c_text payMyBill) || truthy (or_empty (c_href payMyBill)) = true
  /\ (c_type payMyBill = heading ->
      truthy (c_text payMyBill) = true /\ c_href payMyBill = None).
Proof. apply (candidate_origin billingPage payMyBill). vm_compute. by left. Defined.

Lemma getRegion_innermost_witness : getRegion nestedLink = nav.
Proof.
  apply (getRegion_innermost nestedLink [("A", EmptyString); ("UL", EmptyString)]
           [("FOOTER", EmptyString)] ("Div", "Navigation") nav);
    [reflexivity | by repeat constructor | reflexivity].
Defined.

Lemma highlight_is_best_witness :
  exists c, In c (getSearchCandidates billingPage)
    /\ MIN_ACCEPT_SCORE <= scoreCandidate c "billing"
    /\ (forall c', In c' (getSearchCandidates billingPage) ->
                   scoreCandidate c' "billing" <= scoreCandidate c "billing")
    /\ (if attached billingPage (c_element c) then 0%nat = c_element c
        else exists h, c_href c = Some h /\ truthy h = true
                       /\ anchor_by_href billingPage h = Some 0%nat).
Proof. apply (highlight_is_best billingPage "billing" 0). vm_compute. reflexivity. Defined.


Lemma highlight_restored_witness :
  run [Highlight; Highlight; TimerFires; Highlight; TimerFires; TimerFires] outlined
  = {| outline := outline outlined; outlineOffset := "4px"; prev_outline := None |}.
Proof.
  apply (highlight_restored outlined
           [Highlight; Highlight; TimerFires; Highlight; TimerFires; TimerFires]);
    [reflexivity | reflexivity | discriminate | reflexivity].
Defined.

Lemma highlight_sticks_witness :
  run (Highlight :: Highlight :: [TimerFires; TimerFires]) unstyled
  = {| outline := HIGHLIGHT; outlineOffset := "4px"; prev_outline := None |}.
Proof.
  apply (highlight_sticks unstyled [TimerFires; TimerFires]); reflexivity.
Defined.

(** A visible link of SVG on the page silences the handler. *)
Example onMessage_iconPage :
  existsb (href_is_object iconPage) (getSearchCandidates iconPage) = true
  /\ onMessage iconPage (searchMessage "billing") = (None, None)
  /\ onMessage iconPage (searchMessage "  ")
     = (Some {| found := false; results := [] |}, None).
Proof. repeat split; vm_compute; reflexivity. Qed.

(** So does a best result that has left the document, when its href makes
    no selector; a search that accepts nothing is still answered. *)
Example onMessage_stalePage :
  existsb (href_is_object stalePage) (getSearchCandidates stalePage) = false
  /\ onMessage stalePage (searchMessage "billing") = (None, None)
  /\ onMessage stalePage (searchMessage "  ")
     = (Some {| found := false; results := [] |}, None).
Proof. repeat split; vm_compute; reflexivity. Qed.

(** *** What the popup can rely on *)



Lemma onMessage_candidates (page : Page) :
  onMessage page {| m_type := "sniffr-candidates"; m_query := None |} = (None, None).
Proof. reflexivity. Qed.

End ContentFacts.

(** ** Facts about the gateway *)

Module ProxyFacts.

Import Proxy.

(** *** The rate limiter *)

Lemma rateCheck_CACHE ip t st : CACHE (rateCheck ip t st).2 = CACHE st.
Proof.
  unfold rateCheck. destruct (RATE st !! ip) as [e|]; [|reflexivity].
  destruct (resetAt e <? t); [reflexivity|].
  destruct (MAX_PER_WINDOW <=? count e); reflexivity.
Qed.

Lemma rateCheck_closed ip t st :
  window_closed ip t st = true ->
  rateCheck ip t st
  = ({| rr_ok := true; rr_remaining := MAX_PER_WINDOW - 1; rr_resetAt := t + WINDOW_MS |},
     {| CACHE := CACHE st;
        RATE := <[ip := {| count := 1; resetAt := t + WINDOW_MS |}]> (RATE st) |}).
Proof.
  unfold window_closed, rateCheck. destruct (RATE st !! ip) as [e|]; [|reflexivity].
  intros ->. reflexivity.
Qed.

Lemma rateCheck_running ip t st e :
  RATE st !! ip = Some e -> t <= resetAt e ->
  rateCheck ip t st
  = if MAX_PER_WINDOW <=? count e then
      ({| rr_ok := false; rr_remaining := 0; rr_resetAt := resetAt e |}, st)
    else
      ({| rr_ok := true; rr_remaining := MAX_PER_WINDOW - (count e + 1);
          rr_resetAt := resetAt e |},
       {| CACHE := CACHE st;
          RATE := <[ip := {| count := count e + 1; resetAt := resetAt e |}]> (RATE st) |}).
Proof.
  intros He Ht. unfold rateCheck. rewrite He.
  destruct (resetAt e <? t) eqn:Hlt; [apply Z.ltb_lt in Hlt; lia | reflexivity].
Qed.

(** The check changes the window of the client whenever it lets the
    request pass. *)
Lemma rateCheck_ok_changes ip t st :
  rr_ok (rateCheck ip t st).1 = true ->
  RATE (rateCheck ip t st).2 !! ip <> RATE st !! ip.
Proof.
  unfold rateCheck. destruct (RATE st !! ip) as [e|] eqn:He.
  - destruct (resetAt e <? t) eqn:Hlt.
    + simpl. rewrite lookup_insert_eq. intros _ Heq. injection Heq as Heq.
      subst e. simpl in Hlt. apply Z.ltb_lt in Hlt. unfold WINDOW_MS in Hlt. lia.
    + destruct (MAX_PER_WINDOW <=? count e); simpl; [discriminate|].
      rewrite lookup_insert_eq. intros _ Heq. injection Heq as Heq.
      apply (f_equal count) in Heq. simpl in Heq. lia.
  - simpl. rewrite lookup_insert_eq. discriminate.
Qed.

(** What a POST request does to the maps before the remote call: only the
    rate check and the eviction of an expired cache entry. *)
Lemma handler_RATE env clk req st :
  String.eqb (req_method req) "POST" = true ->
  RATE (handler env clk req st).1.2
  = RATE (rateCheck (getClientIp req) (t_rate clk) st).2.
Proof.
  intros Hm. unfold handler, handlerBegin. rewrite Hm. simpl negb. cbv iota.
  destruct (rateCheck (getClientIp req) (t_rate clk) st) as [rate st1].
  destruct (rr_ok rate); simpl; [|reflexivity].
  destruct (req_body req) as [b|]; simpl; [|reflexivity].
  destruct (opt_truthy (b_query b)) as [q|]; [|reflexivity].
  destruct (b_candidates b) as [cs|]; [|reflexivity].
  unfold cacheGet.
  destruct (CACHE st1 !! cacheKey q cs) as [e|].
  - destruct (expiresAt e <? t_check clk); [|reflexivity].
    destruct (callOpenAI env (buildPrompt q cs)) as [[raw|err] calls]; reflexivity.
  - destruct (callOpenAI env (buildPrompt q cs)) as [[raw|err] calls]; reflexivity.
Qed.

Lemma handler_429 env clk req st :
  String.eqb (req_method req) "POST" = true ->
  (status (handler env clk req st).1.1 = 429
   <-> rr_ok (rateCheck (getClientIp req) (t_rate clk) st).1 = false).
Proof.
  intros Hm. unfold handler, handlerBegin. rewrite Hm. simpl negb. cbv iota.
  destruct (rateCheck (getClientIp req) (t_rate clk) st) as [rate st1].
  cbn [fst snd]. destruct (rr_ok rate); simpl; [|split; reflexivity].
  destruct (req_body req) as [b|]; simpl; [|split; discriminate].
  destruct (opt_truthy (b_query b)) as [q|]; [|split; discriminate].
  destruct (b_candidates b) as [cs|]; [|split; discriminate].
  destruct (cacheGet (cacheKey q cs) (t_check clk) st1) as [[v|] st2]; simpl;
    [split; discriminate|].
  destruct (callOpenAI env (buildPrompt q cs)) as [[raw|err] calls]; simpl;
    split; discriminate.
Qed.

(** Requests of one client inside its running window: the request number
    [i] is rejected exactly when the count has reached the ceiling by then,
    and the window keeps its reset time. *)
Lemma serve_running ip (jobs : list (Env * Clock * Request)) : forall st k r,
  RATE st !! ip = Some {| count := k; resetAt := r |} ->
  forallb (post_from ip) jobs = true ->
  forallb (fun j => t_rate j.1.2 <=? r) jobs = true ->
  length (serve jobs st).1 = length jobs
  /\ (forall (i : nat) resp, (serve jobs st).1 !! i = Some resp ->
        (status resp = 429 <-> MAX_PER_WINDOW <= k + Z.of_nat i))
  /\ exists k', RATE (serve jobs st).2 !! ip = Some {| count := k'; resetAt := r |}.
Proof.
  induction jobs as [|[[env clk] req] rest IH]; intros st k r Hst Hpost Htime.
  - simpl. split; [reflexivity|]. split; [intros i resp Hi; done | eauto].
  - simpl in Hpost, Htime.
    apply andb_true_iff in Hpost as [Hjob Hpost].
    apply andb_true_iff in Htime as [Ht Htime].
    unfold post_from in Hjob. simpl in Hjob, Ht.
    apply andb_true_iff in Hjob as [Hm Hip].
    apply String.eqb_eq in Hip. apply Z.leb_le in Ht.
    pose proof (handler_RATE env clk req st Hm) as HR.
    pose proof (handler_429 env clk req st Hm) as H429.
    rewrite Hip in HR, H429.
    rewrite (rateCheck_running ip (t_rate clk) st _ Hst Ht) in HR, H429.
    simpl count in HR, H429. simpl resetAt in HR, H429.
    simpl serve. destruct (handler env clk req st) as [[resp st1] calls].
    cbn [fst snd] in HR, H429.
    set (k1 := if MAX_PER_WINDOW <=? k then k else k + 1).
    assert (Hst1 : RATE st1 !! ip = Some {| count := k1; resetAt := r |}).
    { rewrite HR. subst k1. destruct (MAX_PER_WINDOW <=? k); simpl.
      - exact Hst.
      - apply lookup_insert_eq. }
    destruct (IH st1 k1 r Hst1 Hpost Htime) as (Hlen & Hidx & Hfin).
    destruct (serve rest st1) as [resps st2]. cbn [fst snd] in *.
    split; [simpl; by rewrite Hlen|]. split; [|exact Hfin].
    intros [|i] resp' Hi; simpl in Hi.
    + injection Hi as <-. rewrite H429.
      destruct (MAX_PER_WINDOW <=? k) eqn:Hk; simpl.
      * apply Z.leb_le in Hk. split; [lia | reflexivity].
      * apply Z.leb_gt in Hk. split; [discriminate | lia].
    + rewrite (Hidx i resp' Hi). subst k1.
      destruct (MAX_PER_WINDOW <=? k) eqn:Hk.
      * apply Z.leb_le in Hk. lia.
      * apply Z.leb_gt in Hk. lia.
Qed.

(** C5.  When a client opens a window and sends 121 requests (N = 120)
    before the window ends, the first 120 pass the rate check and exactly
    the 121st is answered with 429; a request that arrives after the reset
    time passes again and leaves the counter at 1 in a new window. *)
Theorem rate_window (ip : string) (first late : Env * Clock * Request)
    (rest : list (Env * Clock * Request)) (st : State) :
  window_closed ip (t_rate first.1.2) st = true ->
  forallb (post_from ip) (first :: rest ++ [late]) = true ->
  length rest = 120%nat ->
  forallb (fun j => t_rate j.1.2 <=? t_rate first.1.2 + WINDOW_MS) rest = true ->
  (t_rate first.1.2 + WINDOW_MS <? t_rate late.1.2) = true ->
  length (serve (first :: rest) st).1 = 121%nat
  /\ (forall (i : nat) resp, (serve (first :: rest) st).1 !! i = Some resp ->
        (status resp = 429 <-> i = 120%nat))
  /\ status (handler late.1.1 late.1.2 late.2 (serve (first :: rest) st).2).1.1 <> 429
  /\ RATE (handler late.1.1 late.1.2 late.2 (serve (first :: rest) st).2).1.2 !! ip
     = Some {| count := 1; resetAt := t_rate late.1.2 + WINDOW_MS |}.
Proof.
  destruct first as [[env clk] req], late as [[envL clkL] reqL]. cbn [fst snd].
  intros Hclosed Hpost Hlen Htime Hlate.
  simpl in Hpost. apply andb_true_iff in Hpost as [Hfirst Hpost].
  rewrite forallb_app in Hpost. apply andb_true_iff in Hpost as [Hrest HpostL].
  simpl in HpostL. rewrite andb_true_r in HpostL.
  unfold post_from in Hfirst, HpostL. cbn [fst snd] in Hfirst, HpostL.
  apply andb_true_iff in Hfirst as [Hm Hip]. apply String.eqb_eq in Hip.
  apply andb_true_iff in HpostL as [HmL HipL]. apply String.eqb_eq in HipL.
  pose proof (handler_RATE env clk req st Hm) as HR.
  pose proof (handler_429 env clk req st Hm) as H429.
  rewrite Hip in HR, H429. rewrite (rateCheck_closed ip _ st Hclosed) in HR, H429.
  cbn [fst snd rr_ok RATE] in HR, H429.
  simpl serve. destruct (handler env clk req st) as [[resp st1] calls].
  cbn [fst snd] in HR, H429.
  assert (Hst1 : RATE st1 !! ip = Some {| count := 1; resetAt := t_rate clk + WINDOW_MS |}).
  { rewrite HR. apply lookup_insert_eq. }
  destruct (serve_running ip rest st1 1 _ Hst1 Hrest Htime) as (Hl & Hidx & k' & Hfin).
  destruct (serve rest st1) as [resps st2]. cbn [fst snd] in *.
  split; [simpl; lia|]. split.
  - intros [|i] resp' Hi; simpl in Hi.
    + injection Hi as <-. split; [|discriminate].
      intros E. apply H429 in E. discriminate.
    + pose proof (lookup_lt_Some _ _ _ Hi) as Hlt.
      rewrite (Hidx i resp' Hi). unfold MAX_PER_WINDOW. lia.
  - assert (HclosedL : window_closed ip (t_rate clkL) st2 = true).
    { unfold window_closed. rewrite Hfin. exact Hlate. }
    pose proof (handler_RATE envL clkL reqL st2 HmL) as HRL.
    pose proof (handler_429 envL clkL reqL st2 HmL) as H429L.
    rewrite HipL in HRL, H429L. rewrite (rateCheck_closed ip _ st2 HclosedL) in HRL, H429L.
    cbn [fst snd rr_ok RATE] in HRL, H429L.
    split.
    + intros E. apply H429L in E. discriminate.
    + rewrite HRL. apply lookup_insert_eq.
Qed.

Import Examples.

Lemma rate_window_witness :
  length (serve (billingJob 0 :: burst) initial).1 = 121%nat
  /\ (forall (i : nat) resp,
        (serve (billingJob 0 :: burst) initial).1 !! i = Some resp ->
        (status resp = 429 <-> i = 120%nat))
  /\ status (handler (billingJob 60001).1.1 (billingJob 60001).1.2 (billingJob 60001).2
               (serve (billingJob 0 :: burst) initial).2).1.1 <> 429
  /\ RATE (handler (billingJob 60001).1.1 (billingJob 60001).1.2 (billingJob 60001).2
              (serve (billingJob 0 :: burst) initial).2).1.2 !! client
     = Some {| count := 1; resetAt := t_rate (billingJob 60001).1.2 + WINDOW_MS |}.
Proof.
  apply (rate_window client (billingJob 0) (billingJob 60001) burst initial);
    reflexivity.
Defined.

(** The seconds reported are the whole seconds that cover the rest of the
    window. *)
Lemma ceil_seconds_spec ms :
  1000 * (ceil_seconds ms - 1) < ms <= 1000 * ceil_seconds ms.
Proof.
  unfold ceil_seconds.
  pose proof (Z.div_mod (- ms) 1000 ltac:(lia)).
  pose proof (Z.mod_pos_bound (- ms) 1000 ltac:(lia)). lia.
Qed.

(** C4 (amended).  A POST request of a client whose count has reached the
    ceiling, inside the window, is answered with 429 and a Retry-After
    header holding the seconds that remain until the reset time, rounded
    up; no remote call is made and both maps, the counter of the client
    included, stay as they were. *)
Theorem rate_limited_response (env : Env) (clk : Clock) (req : Request)
    (st : State) (e : RateEntry) :
  String.eqb (req_method req) "POST" = true ->
  RATE st !! getClientIp req = Some e ->
  (MAX_PER_WINDOW <=? count e) = true ->
  (t_rate clk <=? resetAt e) = true ->
  handler env clk req st
  = ({| status := 429;
        retry_after := Some (ceil_seconds (resetAt e - t_check clk));
        resp_body := ErrorBody "Rate limit exceeded" |}, st, [])
  /\ 1000 * (ceil_seconds (resetAt e - t_check clk) - 1)
       < resetAt e - t_check clk
       <= 1000 * ceil_seconds (resetAt e - t_check clk).
Proof.
  intros Hm He Hfull Ht. split; [|apply ceil_seconds_spec].
  apply Z.leb_le in Ht.
  unfold handler, handlerBegin. rewrite Hm. simpl negb. cbv iota.
  rewrite (rateCheck_running _ _ st e He Ht), Hfull. reflexivity.
Qed.

Lemma rate_limited_response_witness :
  handler (answering 0) (arriving 500) (rankRequest client "billing" twoLinks) exhausted
  = ({| status := 429;
        retry_after := Some (ceil_seconds (60000 - 500));
        resp_body := ErrorBody "Rate limit exceeded" |}, exhausted, [])
  /\ 1000 * (ceil_seconds (60000 - 500) - 1) < 60000 - 500
       <= 1000 * ceil_seconds (60000 - 500).
Proof.
  apply (rate_limited_response (answering 0) (arriving 500)
           (rankRequest client "billing" twoLinks) exhausted
           {| count := 120; resetAt := 60000 |}); reflexivity.
Defined.

(** C4 as stated fails: the rejected request leaves the counter of the
    client at 120, with the same reset time. *)
Lemma rate_limited_counterexample :
  status (handler (answering 0) (arriving 500)
            (rankRequest client "billing" twoLinks) exhausted).1.1 = 429
  /\ RATE exhausted !! client = Some {| count := 120; resetAt := 60000 |}
  /\ RATE (handler (answering 0) (arriving 500)
             (rankRequest client "billing" twoLinks) exhausted).1.2 !! client
     = Some {| count := 120; resetAt := 60000 |}.
Proof. repeat split; reflexivity. Qed.

(** C3 (amended).  A POST request with a malformed body that passes the
    rate check is answered with 400; the cache is untouched and no remote
    call is made, but the rate check, which runs before the body is looked
    at, has changed the window of the client.  When the client is over its
    ceiling the answer is 429 and nothing changes. *)
Theorem malformed_request (env : Env) (clk : Clock) (req : Request) (st : State) :
  String.eqb (req_method req) "POST" = true ->
  malformed req = true ->
  (rr_ok (rateCheck (getClientIp req) (t_rate clk) st).1 = true ->
     handler env clk req st
     = (error_response 400 "Bad request: expected JSON { query, candidates[] }",
        (rateCheck (getClientIp req) (t_rate clk) st).2, [])
     /\ CACHE (handler env clk req st).1.2 = CACHE st
     /\ RATE (handler env clk req st).1.2 !! getClientIp req
        <> RATE st !! getClientIp req)
  /\ (rr_ok (rateCheck (getClientIp req) (t_rate clk) st).1 = false ->
      status (handler env clk req st).1.1 = 429
      /\ (handler env clk req st).1.2 = st
      /\ (handler env clk req st).2 = []).
Proof.
  intros Hm Hbad.
  assert (Hrun : handler env clk req st
    = if rr_ok (rateCheck (getClientIp req) (t_rate clk) st).1
      then (error_response 400 "Bad request: expected JSON { query, candidates[] }",
            (rateCheck (getClientIp req) (t_rate clk) st).2, [])
      else ({| status := 429;
               retry_after :=
                 Some (ceil_seconds
                         (rr_resetAt (rateCheck (getClientIp req) (t_rate clk) st).1
                          - t_check clk));
               resp_body := ErrorBody "Rate limit exceeded" |},
            (rateCheck (getClientIp req) (t_rate clk) st).2, [])).
  { unfold handler, handlerBegin. rewrite Hm. simpl negb. cbv iota.
    destruct (rateCheck (getClientIp req) (t_rate clk) st) as [rate st1].
    cbn [fst snd]. destruct (rr_ok rate); simpl; [|reflexivity].
    unfold malformed in Hbad. destruct (req_body req) as [b|]; simpl; [|reflexivity].
    destruct (opt_truthy (b_query b)) as [q|]; [|reflexivity].
    destruct (b_candidates b) as [cs|]; [discriminate | reflexivity]. }
  split; intros Hok; rewrite Hrun, Hok; cbn [fst snd].
  - split; [reflexivity|]. split; [apply rateCheck_CACHE|].
    by apply rateCheck_ok_changes.
  - split; [reflexivity|]. split; [|reflexivity].
    unfold rateCheck in *. destruct (RATE st !! getClientIp req) as [e|]; [|discriminate].
    destruct (resetAt e <? t_rate clk); [discriminate|].
    destruct (MAX_PER_WINDOW <=? count e); [reflexivity | discriminate].
Qed.

Lemma malformed_request_witness :
  (rr_ok (rateCheck (getClientIp (badRequest client)) (t_rate (arriving 0)) initial).1 = true ->
     handler (answering 0) (arriving 0) (badRequest client) initial
     = (error_response 400 "Bad request: expected JSON { query, candidates[] }",
        (rateCheck (getClientIp (badRequest client)) (t_rate (arriving 0)) initial).2, [])
     /\ CACHE (handler (answering 0) (arriving 0) (badRequest client) initial).1.2
        = CACHE initial
     /\ RATE (handler (answering 0) (arriving 0) (badRequest client) initial).1.2
          !! getClientIp (badRequest client)
        <> RATE initial !! getClientIp (badRequest client))
  /\ (rr_ok (rateCheck (getClientIp (badRequest client)) (t_rate (arriving 0)) initial).1 = false ->
      status (handler (answering 0) (arriving 0) (badRequest client) initial).1.1 = 429
      /\ (handler (answering 0) (arriving 0) (badRequest client) initial).1.2 = initial
      /\ (handler (answering 0) (arriving 0) (badRequest client) initial).2 = []).
Proof.
  apply (malformed_request (answering 0) (arriving 0) (badRequest client) initial);
    reflexivity.
Defined.

(** C3 as stated fails: the first malformed request of a client is answered
    with 400 and leaves a window with count 1 where there was none. *)
Lemma malformed_counterexample :
  malformed (badRequest client) = true
  /\ status (handler (answering 0) (arriving 0) (badRequest client) initial).1.1 = 400
  /\ RATE initial !! client = None
  /\ RATE (handler (answering 0) (arriving 0) (badRequest client) initial).1.2 !! client
     = Some {| count := 1; resetAt := 60000 |}.
Proof. repeat split; reflexivity. Qed.

(** *** The cache *)

(** The handler on a well-formed request that is not rate limited. *)
Lemma handler_ranked env clk req st query cands :
  asks req query cands ->
  (status (handler env clk req st).1.1 =? 429) = false ->
  handler env clk req st
  = let st1 := (rateCheck (getClientIp req) (t_rate clk) st).2 in
    let '(hit, st2) := cacheGet (cacheKey query cands) (t_check clk) st1 in
    match hit with
    | Some v => (cached_response v, st2, [])
    | None =>
        let '(outcome, calls) := callOpenAI env (buildPrompt query cands) in
        let '(resp, st3) := handlerResume env clk (cacheKey query cands) outcome st2 in
        (resp, st3, calls)
    end.
Proof.
  intros (Hm & Hbody & Hq) Hst.
  assert (Hok : rr_ok (rateCheck (getClientIp req) (t_rate clk) st).1 = true).
  { destruct (rr_ok (rateCheck (getClientIp req) (t_rate clk) st).1) eqn:Hok; [reflexivity|].
    apply (handler_429 env clk req st Hm) in Hok. rewrite Hok in Hst. discriminate. }
  clear Hst. unfold handler, handlerBegin. rewrite Hm, Hbody. simpl negb. cbv iota.
  destruct (rateCheck (getClientIp req) (t_rate clk) st) as [rate st1].
  cbn [fst snd] in *. rewrite Hok. simpl negb. cbv iota.
  cbn [b_query b_candidates]. unfold opt_truthy. rewrite Hq.
  destruct (cacheGet (cacheKey query cands) (t_check clk) st1) as [[v|] st2]; reflexivity.
Qed.

Lemma cacheGet_fresh key now st e :
  CACHE st !! key = Some e -> (expiresAt e <? now) = false ->
  cacheGet key now st = (Some (value e), st).
Proof. intros He Ht. unfold cacheGet. by rewrite He, Ht. Qed.

Lemma cacheGet_expired key now st e :
  CACHE st !! key = Some e -> (expiresAt e <? now) = true ->
  cacheGet key now st = (None, {| CACHE := delete key (CACHE st); RATE := RATE st |}).
Proof. intros He Ht. unfold cacheGet. by rewrite He, Ht. Qed.

(** A fresh answer has been stored under the key of the request, to expire
    [CACHE_TTL_MS] after the remote call returned. *)
Lemma handler_fresh_stored env clk req st query cands raw parsed :
  asks req query cands ->
  resp_body (handler env clk req st).1.1 = RankBody false raw parsed ->
  CACHE (handler env clk req st).1.2 !! cacheKey query cands
  = Some {| value := {| cv_raw := raw; cv_parsed := parsed |};
            expiresAt := t_store clk + CACHE_TTL_MS |}
  /\ callOpenAI env (buildPrompt query cands)
     = (inl raw, (handler env clk req st).2)
  /\ parsed = parseReply env raw.
Proof.
  intros Hasks Hfresh.
  assert (Hst : (status (handler env clk req st).1.1 =? 429) = false).
  { destruct Hasks as (Hm & _ & _).
    destruct (status (handler env clk req st).1.1 =? 429) eqn:E; [|reflexivity].
    apply Z.eqb_eq, (handler_429 env clk req st Hm) in E.
    revert Hfresh. unfold handler, handlerBegin. rewrite Hm. simpl negb. cbv iota.
    destruct (rateCheck (getClientIp req) (t_rate clk) st) as [rate st1].
    cbn [fst snd] in E. rewrite E. simpl. discriminate. }
  revert Hfresh. rewrite (handler_ranked env clk req st query cands Hasks Hst).
  cbv zeta.
  destruct (cacheGet (cacheKey query cands) (t_check clk) _) as [[v|] st2]; simpl;
    [discriminate|].
  destruct (callOpenAI env (buildPrompt query cands)) as [[raw'|err] calls]; simpl;
    [|discriminate].
  intros [= -> ->]. split; [apply lookup_insert_eq | split; reflexivity].
Qed.

Lemma rateCheck_reject_state ip t st :
  rr_ok (rateCheck ip t st).1 = false -> (rateCheck ip t st).2 = st.
Proof.
  unfold rateCheck. destruct (RATE st !! ip) as [e|]; [|discriminate].
  destruct (resetAt e <? t); [discriminate|].
  destruct (MAX_PER_WINDOW <=? count e); [reflexivity | discriminate].
Qed.

(** Where an entry found in the cache after a rank request comes from: it
    was there before, or the request has just stored it with its fresh
    answer, under its own key. *)
Lemma handler_cache_origin env clk req st query cands key e :
  asks req query cands ->
  CACHE (handler env clk req st).1.2 !! key = Some e ->
  CACHE st !! key = Some e
  \/ (key = cacheKey query cands
      /\ resp_body (handler env clk req st).1.1
         = RankBody false (cv_raw (value e)) (cv_parsed (value e))
      /\ expiresAt e = t_store clk + CACHE_TTL_MS).
Proof.
  intros Hasks.
  destruct (status (handler env clk req st).1.1 =? 429) eqn:Hst.
  - destruct Hasks as (Hm & _ & _).
    apply Z.eqb_eq, (handler_429 env clk req st Hm) in Hst.
    unfold handler, handlerBegin. rewrite Hm. simpl negb. cbv iota.
    pose proof (rateCheck_reject_state _ _ _ Hst) as Hsame.
    destruct (rateCheck (getClientIp req) (t_rate clk) st) as [rate st1].
    cbn [fst snd] in *. rewrite Hst. simpl. subst st1. tauto.
  - rewrite (handler_ranked env clk req st query cands Hasks Hst). cbv zeta.
    pose proof (rateCheck_CACHE (getClientIp req) (t_rate clk) st) as HC.
    set (st1 := (rateCheck (getClientIp req) (t_rate clk) st).2) in *.
    assert (Hget : forall hit st2,
      cacheGet (cacheKey query cands) (t_check clk) st1 = (hit, st2) ->
      forall k x, CACHE st2 !! k = Some x -> CACHE st !! k = Some x).
    { unfold cacheGet. intros hit st2 Hg k x.
      destruct (CACHE st1 !! cacheKey query cands) as [e0|].
      - destruct (expiresAt e0 <? t_check clk); injection Hg as <- <-; simpl.
        + rewrite lookup_delete_Some, HC. tauto.
        + by rewrite HC.
      - injection Hg as <- <-. by rewrite HC. }
    destruct (cacheGet (cacheKey query cands) (t_check clk) st1) as [[v|] st2] eqn:Hg;
      cbn [fst snd].
    + intros H. left. eapply Hget; eauto.
    + destruct (callOpenAI env (buildPrompt query cands)) as [[raw|err] calls];
        cbn [handlerResume fst snd].
      * unfold cacheSet. cbn [CACHE resp_body].
        destruct (decide (key = cacheKey query cands)) as [->|Hne].
        -- rewrite lookup_insert_eq. intros [= <-]. right. simpl. tauto.
        -- rewrite lookup_insert_ne by congruence. intros H. left. eapply Hget; eauto.
      * intros H. left. eapply Hget; eauto.
Qed.

Lemma rank_body_not_limited env clk req st cached raw parsed :
  String.eqb (req_method req) "POST" = true ->
  resp_body (handler env clk req st).1.1 = RankBody cached raw parsed ->
  (status (handler env clk req st).1.1 =? 429) = false.
Proof.
  intros Hm Hbody.
  destruct (status (handler env clk req st).1.1 =? 429) eqn:E; [|reflexivity].
  apply Z.eqb_eq, (handler_429 env clk req st Hm) in E.
  revert Hbody. unfold handler, handlerBegin. rewrite Hm. simpl negb. cbv iota.
  destruct (rateCheck (getClientIp req) (t_rate clk) st) as [rate st1].
  cbn [fst snd] in E. rewrite E. simpl. discriminate.
Qed.

Lemma callOpenAI_answer env prompt raw calls :
  callOpenAI env prompt = (inl raw, calls) -> calls = [prompt].
Proof.
  unfold callOpenAI. destruct (opt_truthy (OPENAI_KEY env)); [|discriminate].
  by intros [= _ <-].
Qed.

Lemma cacheGet_hit key now st v st2 :
  cacheGet key now st = (Some v, st2) ->
  exists e, CACHE st !! key = Some e /\ value e = v /\ st2 = st.
Proof.
  unfold cacheGet. destruct (CACHE st !! key) as [e|]; [|discriminate].
  destruct (expiresAt e <? now); [discriminate|].
  intros [= <- <-]. eauto.
Qed.

(** An answer served from the cache was found under the key of the
    request, and no remote call was made for it. *)
Lemma handler_cached_found env clk req st query cands raw parsed :
  asks req query cands ->
  resp_body (handler env clk req st).1.1 = RankBody true raw parsed ->
  (handler env clk req st).2 = []
  /\ exists e, CACHE st !! cacheKey query cands = Some e
             /\ value e = {| cv_raw := raw; cv_parsed := parsed |}.
Proof.
  intros Hasks Hbody.
  pose proof (rank_body_not_limited env clk req st _ _ _ (proj1 Hasks) Hbody) as Hst.
  revert Hbody. rewrite (handler_ranked env clk req st query cands Hasks Hst). cbv zeta.
  destruct (cacheGet (cacheKey query cands) (t_check clk) _) as [[v|] st2] eqn:Hg;
    cbn [fst snd].
  - apply cacheGet_hit in Hg as (e & He & Hv & _). rewrite rateCheck_CACHE in He.
    cbn [cached_response resp_body]. intros [= <- <-].
    split; [reflexivity|]. exists e. split; [exact He|]. rewrite Hv. by destruct v.
  - destruct (callOpenAI env (buildPrompt query cands)) as [[raw'|err] calls];
      cbn [handlerResume fst snd resp_body error_response]; discriminate.
Qed.

(** The prompt lists the first 80 candidates and no others. *)
Lemma prompt_lines_truncated (n : nat) : forall i (l : list WireCandidate),
  prompt_lines i n (firstn n l) = prompt_lines i n l.
Proof.
  induction n as [|n IH]; intros i [|c l]; simpl; try reflexivity.
  by rewrite IH.
Qed.

Lemma buildPrompt_truncated query (l : list WireCandidate) :
  buildPrompt query (firstn 80 l) = buildPrompt query l.
Proof. unfold buildPrompt. by rewrite prompt_lines_truncated. Qed.

(** C6 (amended).  Three requests with the same query and candidates are
    handled one after the other, none of them rate limited, and the first
    is answered with a fresh judgment ([cached: false]), stored when its
    remote call returned.  When the second reaches the cache after that
    moment and no later than [CACHE_TTL_MS] = 30 s after it, it is
    answered with the stored judgment and [cached: true], and makes no
    remote call.  When the third reaches the cache later than that, the
    remote service is called again with the prompt of the request (if the
    key is configured); the answer is [cached: false] when the call
    succeeds and a 500 when it fails. *)
Theorem cache_round_trip (env1 env2 env3 : Env) (clk1 clk2 clk3 : Clock)
    (req1 req2 req3 : Request) (st0 : State)
    (query : string) (cands : list WireCandidate)
    (raw : string) (parsed : option Parsed) :
  let run1 := handler env1 clk1 req1 st0 in
  let run2 := handler env2 clk2 req2 run1.1.2 in
  let run3 := handler env3 clk3 req3 run2.1.2 in
  asks req1 query cands -> asks req2 query cands -> asks req3 query cands ->
  resp_body run1.1.1 = RankBody false raw parsed ->
  (status run2.1.1 =? 429) = false ->
  (status run3.1.1 =? 429) = false ->
  (t_store clk1 <=? t_check clk2) = true ->
  (t_check clk2 <=? t_store clk1 + CACHE_TTL_MS) = true ->
  (t_store clk1 + CACHE_TTL_MS <? t_check clk3) = true ->
  CACHE_TTL_MS = 30000
  /\ run1.2 = [buildPrompt query cands]
  /\ run2.1.1 = {| status := 200; retry_after := None;
                   resp_body := RankBody true raw parsed |}
  /\ run2.2 = []
  /\ run3.2 = (callOpenAI env3 (buildPrompt query cands)).2
  /\ (is_Some (opt_truthy (OPENAI_KEY env3)) -> run3.2 = [buildPrompt query cands])
  /\ run3.1.1
     = match (callOpenAI env3 (buildPrompt query cands)).1 with
       | inl raw3 =>
           {| status := 200; retry_after := None;
              resp_body := RankBody false raw3 (parseReply env3 raw3) |}
       | inr err => error_response 500 err
       end.
Proof.
  intros run1 run2 run3 Ha1 Ha2 Ha3 Hfresh H2 H3 Hafter Hin Hout.
  destruct (handler_fresh_stored env1 clk1 req1 st0 query cands raw parsed Ha1 Hfresh)
    as (Hstored & Hcall1 & _).
  fold run1 in Hstored, Hcall1.
  set (e := {| value := {| cv_raw := raw; cv_parsed := parsed |};
               expiresAt := t_store clk1 + CACHE_TTL_MS |}) in *.
  split; [reflexivity|].
  split.
  { eapply callOpenAI_answer. exact Hcall1. }
  (* the second request *)
  assert (Hrun2 : run2 = (cached_response {| cv_raw := raw; cv_parsed := parsed |},
                          (rateCheck (getClientIp req2) (t_rate clk2) run1.1.2).2, [])).
  { subst run2. rewrite (handler_ranked env2 clk2 req2 _ query cands Ha2 H2). cbv zeta.
    rewrite (cacheGet_fresh _ _ _ e); [reflexivity | |].
    - rewrite rateCheck_CACHE. exact Hstored.
    - simpl. apply Z.ltb_ge. apply Z.leb_le in Hin. lia. }
  split; [by rewrite Hrun2|]. split; [by rewrite Hrun2|].
  (* the third request *)
  assert (Hrun3 : run3
    = let '(outcome, calls) := callOpenAI env3 (buildPrompt query cands) in
      let '(resp, st3) :=
        handlerResume env3 clk3 (cacheKey query cands) outcome
          {| CACHE := delete (cacheKey query cands)
                        (CACHE (rateCheck (getClientIp req3) (t_rate clk3) run2.1.2).2);
             RATE := RATE (rateCheck (getClientIp req3) (t_rate clk3) run2.1.2).2 |} in
      (resp, st3, calls)).
  { subst run3. rewrite (handler_ranked env3 clk3 req3 _ query cands Ha3 H3). cbv zeta.
    rewrite (cacheGet_expired _ _ _ e); [reflexivity | |].
    - rewrite rateCheck_CACHE, Hrun2. cbn [fst snd]. rewrite rateCheck_CACHE. exact Hstored.
    - simpl. exact Hout. }
  rewrite Hrun3.
  split; [|split].
  - destruct (callOpenAI env3 (buildPrompt query cands)) as [[raw3|err] calls]; reflexivity.
  - intros [k Hk]. unfold callOpenAI. rewrite Hk.
    destruct (remote env3 (buildPrompt query cands)); reflexivity.
  - destruct (callOpenAI env3 (buildPrompt query cands)) as [[raw3|err] calls]; reflexivity.
Qed.

Lemma cache_round_trip_witness :
  let req := rankRequest client "billing" twoLinks in
  let run1 := handler (answering 0) (arriving 0) req initial in
  let run2 := handler (answering 1) (arriving 30000) req run1.1.2 in
  let run3 := handler (answering 1) (arriving 30401) req run2.1.2 in
  CACHE_TTL_MS = 30000
  /\ run1.2 = [buildPrompt "billing" twoLinks]
  /\ run2.1.1 = {| status := 200; retry_after := None;
                   resp_body :=
                     RankBody true (Json.compact_reply 0 "best label match")
                       (Some {| p_index := IdxInt 0;
                                p_reason := Some "best label match" |}) |}
  /\ run2.2 = []
  /\ run3.2 = (callOpenAI (answering 1) (buildPrompt "billing" twoLinks)).2
  /\ (is_Some (opt_truthy (OPENAI_KEY (answering 1))) ->
      run3.2 = [buildPrompt "billing" twoLinks])
  /\ run3.1.1
     = match (callOpenAI (answering 1) (buildPrompt "billing" twoLinks)).1 with
       | inl raw3 =>
           {| status := 200; retry_after := None;
              resp_body := RankBody false raw3 (parseReply (answering 1) raw3) |}
       | inr err => error_response 500 err
       end.
Proof.
  apply (cache_round_trip (answering 0) (answering 1) (answering 1)
           (arriving 0) (arriving 30000) (arriving 30401)
           (rankRequest client "billing" twoLinks)
           (rankRequest client "billing" twoLinks)
           (rankRequest client "billing" twoLinks)
           initial "billing" twoLinks
           (Json.compact_reply 0 "best label match")
           (Some {| p_index := IdxInt 0; p_reason := Some "best label match" |}));
    first [reflexivity | repeat split; reflexivity].
Defined.

(** C6 as stated fails in three ways.  A first call that fails leaves
    nothing in the cache: the same request, one second later, is sent to
    the remote service and answered [cached: false].  The time to live
    counts from the moment the answer was stored, not from the latest
    call: after a hit at 30000 ms the same request at 31000 ms misses the
    entry, which expired at 30400 ms, and is sent to the remote service.
    And a second call that arrives while the first waits for the remote
    service finds nothing in the cache and waits for a remote call of its
    own. *)
Lemma cache_round_trip_counterexample :
  (status failedRun.1.1 = 500
   /\ retryRun.1.1
      = {| status := 200; retry_after := None;
           resp_body :=
             RankBody false (Json.compact_reply 0 "best label match")
               (Some {| p_index := IdxInt 0; p_reason := Some "best label match" |}) |}
   /\ retryRun.2 = [buildPrompt "billing" twoLinks])
  /\ (resp_body lateHit.1.1
      = RankBody true (Json.compact_reply 0 "best label match")
          (Some {| p_index := IdxInt 0; p_reason := Some "best label match" |})
      /\ resp_body soonAfter.1.1
         = RankBody false (Json.compact_reply 1 "best label match")
             (Some {| p_index := IdxInt 1; p_reason := Some "best label match" |})
      /\ soonAfter.2 = [buildPrompt "billing" twoLinks])
  /\ (let first := handlerBegin (arriving 0) billingRequest initial in
      first.1 = Awaiting (cacheKey "billing" twoLinks) (buildPrompt "billing" twoLinks)
      /\ (handlerBegin (arriving 100) billingRequest first.2).1
         = Awaiting (cacheKey "billing" twoLinks) (buildPrompt "billing" twoLinks)).
Proof. repeat split; vm_compute; reflexivity. Qed.

(** *** Other rejections *)

(** X6.  A request that is not a POST is answered with 405; the maps are
    not touched, the rate counter included. *)
Theorem non_post_rejected (env : Env) (clk : Clock) (req : Request) (st : State) :
  String.eqb (req_method req) "POST" = false ->
  handler env clk req st = (error_response 405 "Method Not Allowed", st, []).
Proof. intros Hm. unfold handler, handlerBegin. by rewrite Hm. Qed.

Lemma non_post_rejected_witness :
  handler (answering 0) (arriving 0) getRequest initial
  = (error_response 405 "Method Not Allowed", initial, []).
Proof.
  apply (non_post_rejected (answering 0) (arriving 0) getRequest initial). reflexivity.
Defined.

(** X7.  Without credentials a rank request that misses the cache is
    answered with 500 and the message of the configuration error; the
    remote service is not called and nothing is stored under the key. *)
Theorem missing_credentials (env : Env) (clk : Clock) (req : Request) (st : State)
    (query : string) (cands : list WireCandidate) :
  asks req query cands ->
  (status (handler env clk req st).1.1 =? 429) = false ->
  opt_truthy (OPENAI_KEY env) = None ->
  (cacheGet (cacheKey query cands) (t_check clk)
     (rateCheck (getClientIp req) (t_rate clk) st).2).1 = None ->
  (handler env clk req st).1.1
  = error_response 500 "Error: OPENAI_KEY environment variable is not set on server."
  /\ (handler env clk req st).2 = []
  /\ CACHE (handler env clk req st).1.2 !! cacheKey query cands = None.
Proof.
  intros Hasks Hst Hkey Hmiss.
  rewrite (handler_ranked env clk req st query cands Hasks Hst). cbv zeta.
  revert Hmiss. unfold cacheGet, callOpenAI. rewrite Hkey.
  destruct (CACHE (rateCheck (getClientIp req) (t_rate clk) st).2 !! cacheKey query cands)
    as [e|] eqn:He.
  - destruct (expiresAt e <? t_check clk); [|discriminate].
    intros _. cbn. repeat split. apply lookup_delete_eq.
  - intros _. cbn. repeat split. exact He.
Qed.

Lemma missing_credentials_witness :
  (handler unconfigured (arriving 0) (rankRequest client "billing" twoLinks) initial).1.1
  = error_response 500 "Error: OPENAI_KEY environment variable is not set on server."
  /\ (handler unconfigured (arriving 0) (rankRequest client "billing" twoLinks) initial).2
     = []
  /\ CACHE (handler unconfigured (arriving 0)
              (rankRequest client "billing" twoLinks) initial).1.2
       !! cacheKey "billing" twoLinks = None.
Proof.
  apply (missing_credentials unconfigured (arriving 0)
           (rankRequest client "billing" twoLinks) initial "billing" twoLinks);
    first [reflexivity | repeat split; reflexivity].
Defined.

(** *** Every path through the handler *)

(** The runs of the handler, by the tests it makes in turn. *)
Ltac handler_paths env clk req st :=
  unfold handler, handlerBegin;
  destruct (String.eqb (req_method req) "POST") eqn:Hm; simpl negb; cbv iota;
  [ destruct (rateCheck (getClientIp req) (t_rate clk) st) as [rate st1] eqn:Hrate;
    destruct (rr_ok rate) eqn:Hok; simpl negb; cbv iota;
    [ destruct (req_body req) as [b|] eqn:Hbody;
      [ destruct (opt_truthy (b_query b)) as [q|] eqn:Hq;
        [ destruct (b_candidates b) as [cs|] eqn:Hcs;
          [ destruct (cacheGet (cacheKey q cs) (t_check clk) st1) as [[v|] st2] eqn:Hget;
            [ | destruct (callOpenAI env (buildPrompt q cs)) as [[raw|err] calls] eqn:Hcall ]
          | ]
        | ]
      | ]
    | ]
  | ];
  cbn [fst snd handlerResume error_response status resp_body retry_after
       b_query b_candidates opt_truthy].

Lemma callOpenAI_calls env prompt :
  (callOpenAI env prompt).2 = [] \/ (callOpenAI env prompt).2 = [prompt].
Proof.
  unfold callOpenAI. destruct (opt_truthy (OPENAI_KEY env)); [by right | by left].
Qed.

Lemma opt_truthy_Some o s : opt_truthy o = Some s -> o = Some s /\ truthy s = true.
Proof.
  destruct o as [x|]; simpl; [|discriminate].
  destruct (truthy x) eqn:E; [|discriminate]. by intros [= ->].
Qed.

Lemma asks_intro req b query cands :
  String.eqb (req_method req) "POST" = true -> req_body req = Some b ->
  opt_truthy (b_query b) = Some query -> b_candidates b = Some cands ->
  asks req query cands.
Proof.
  intros Hm Hb [Hq Ht]%opt_truthy_Some Hcs. destruct b; simpl in *; subst.
  by repeat split.
Qed.

(** X17.  The handler answers with one of five statuses; the answer
    carries a judgment exactly when the status is 200 and a Retry-After
    header exactly when it is 429; the remote service is called at most
    once, with the prompt of the request, and never for an answer that is
    served from the cache or has a status of 400, 405 or 429. *)
Theorem handler_discipline (env : Env) (clk : Clock) (req : Request) (st : State) :
  let resp := (handler env clk req st).1.1 in
  let calls := (handler env clk req st).2 in
  In (status resp) [200; 400; 405; 429; 500]
  /\ (status resp = 200 <->
      exists cached raw parsed, resp_body resp = RankBody cached raw parsed)
  /\ (status resp = 429 <-> retry_after resp <> None)
  /\ (length calls <= 1)%nat
  /\ (calls <> [] ->
      (freshly_ranked resp = true \/ status resp = 500)
      /\ exists query cands, asks req query cands
                             /\ calls = [buildPrompt query cands]).
Proof.
  cbv zeta. handler_paths env clk req st.
  all: try (pose proof (callOpenAI_calls env (buildPrompt q cs)) as Hc;
            rewrite Hcall in Hc; cbn [snd] in Hc).
  all: split; [cbn [In]; auto 10|].
  all: split;
    [split; [intros H; first [discriminate H | eauto]
            |intros H; first [reflexivity | destruct H as (? & ? & ? & [=])]]|].
  all: split;
    [split; [intros H; first [discriminate H | discriminate]
            |intros H; first [reflexivity | congruence]]|].
  all: split; [first [simpl; lia | destruct Hc as [-> | ->]; simpl; lia]|].
  all: intros Hne; try congruence.
  all: split;
    [first [by left | by right]
    |exists q, cs; split; [by eapply asks_intro | destruct Hc; congruence]].
Qed.

(** *** What a request leaves alone *)

Lemma rateCheck_other ip ip' t st :
  ip' <> ip -> RATE (rateCheck ip t st).2 !! ip' = RATE st !! ip'.
Proof.
  intros Hne. unfold rateCheck. destruct (RATE st !! ip) as [e|]; cbn [snd RATE].
  - destruct (resetAt e <? t); cbn [snd RATE]; [by rewrite lookup_insert_ne|].
    destruct (MAX_PER_WINDOW <=? count e); cbn [snd RATE];
      [reflexivity | by rewrite lookup_insert_ne].
  - by rewrite lookup_insert_ne.
Qed.

Lemma cacheGet_RATE key now st : RATE (cacheGet key now st).2 = RATE st.
Proof.
  unfold cacheGet. destruct (CACHE st !! key) as [e|]; [|reflexivity].
  destruct (expiresAt e <? now); reflexivity.
Qed.

Lemma cacheGet_other key key' now st :
  key' <> key -> CACHE (cacheGet key now st).2 !! key' = CACHE st !! key'.
Proof.
  intros Hne. unfold cacheGet. destruct (CACHE st !! key) as [e|]; [|reflexivity].
  destruct (expiresAt e <? now); cbn [snd CACHE]; [|reflexivity].
  by rewrite lookup_delete_ne.
Qed.

(** X18.  A request changes no rate window but that of its own client, and
    no cache entry but the one under its own key. *)
Theorem handler_frame (env : Env) (clk : Clock) (req : Request) (st : State)
    (ip key : string) :
  ip <> getClientIp req ->
  (forall query cands, asks req query cands -> key <> cacheKey query cands) ->
  RATE (handler env clk req st).1.2 !! ip = RATE st !! ip
  /\ CACHE (handler env clk req st).1.2 !! key = CACHE st !! key.
Proof.
  intros Hip Hkey.
  pose proof (rateCheck_other (getClientIp req) ip (t_rate clk) st Hip) as HR.
  pose proof (rateCheck_CACHE (getClientIp req) (t_rate clk) st) as HC.
  handler_paths env clk req st; cbn [snd] in HR, HC;
    try (split; [exact HR | by rewrite HC]); try (split; reflexivity).
  all: assert (Hne : key <> cacheKey q cs) by (by eapply Hkey, asks_intro).
  all: pose proof (cacheGet_RATE (cacheKey q cs) (t_check clk) st1) as HR2.
  all: pose proof (cacheGet_other (cacheKey q cs) key (t_check clk) st1 Hne) as HC2.
  all: rewrite Hget in HR2, HC2; cbn [snd] in HR2, HC2.
  - split; [by rewrite HR2 | by rewrite HC2, HC].
  - unfold cacheSet. cbn [RATE CACHE]. rewrite lookup_insert_ne by congruence.
    split; [by rewrite HR2 | by rewrite HC2, HC].
  - split; [by rewrite HR2 | by rewrite HC2, HC].
Qed.

(** *** The counters of the rate limiter *)

Lemma rateCheck_bounded ip t st :
  rate_bounded st -> rate_bounded (rateCheck ip t st).2.
Proof.
  intros Hb ip' e'. unfold rateCheck.
  assert (Hnew : forall r, <[ip := {| count := 1; resetAt := r |}]> (RATE st) !! ip' = Some e' ->
                 1 <= count e' <= MAX_PER_WINDOW).
  { intros r. destruct (decide (ip' = ip)) as [->|Hne].
    - rewrite lookup_insert_eq. intros [= <-]. unfold MAX_PER_WINDOW. simpl. lia.
    - rewrite lookup_insert_ne by congruence. apply Hb. }
  destruct (RATE st !! ip) as [e|] eqn:He; cbn [snd RATE]; [|apply Hnew].
  destruct (resetAt e <? t); cbn [snd RATE]; [apply Hnew|].
  destruct (MAX_PER_WINDOW <=? count e) eqn:Hc; cbn [snd RATE]; [apply Hb|].
  apply Z.leb_gt in Hc. pose proof (Hb ip e He).
  destruct (decide (ip' = ip)) as [->|Hne].
  - rewrite lookup_insert_eq. intros [= <-]. simpl. lia.
  - rewrite lookup_insert_ne by congruence. apply Hb.
Qed.

Lemma handler_bounded env clk req st :
  rate_bounded st -> rate_bounded (handler env clk req st).1.2.
Proof.
  intros Hb. destruct (String.eqb (req_method req) "POST") eqn:Hm.
  - intros ip e. rewrite (handler_RATE env clk req st Hm).
    by apply rateCheck_bounded.
  - unfold handler, handlerBegin. rewrite Hm. exact Hb.
Qed.

Lemma serve_bounded (jobs : list (Env * Clock * Request)) : forall st,
  rate_bounded st -> rate_bounded (serve jobs st).2.
Proof.
  induction jobs as [|[[env clk] req] rest IH]; intros st Hb; [exact Hb|].
  simpl. pose proof (handler_bounded env clk req st Hb) as H1.
  destruct (handler env clk req st) as [[resp st1] calls]. cbn [fst snd] in H1.
  specialize (IH st1 H1). destruct (serve rest st1) as [resps st2]. exact IH.
Qed.

(** X19.  Whatever requests have been served since the start, every
    counter of the rate limiter lies between 1 and [MAX_PER_WINDOW]. *)
Theorem rate_counters_bounded (jobs : list (Env * Clock * Request))
    (ip : string) (e : RateEntry) :
  RATE (serve jobs initial).2 !! ip = Some e ->
  1 <= count e <= MAX_PER_WINDOW.
Proof.
  apply (serve_bounded jobs initial). intros ip' e'. simpl.
  by rewrite lookup_empty.
Qed.

(** *** What the cache holds *)

Lemma cacheGet_shrinks key now st k x :
  CACHE (cacheGet key now st).2 !! k = Some x -> CACHE st !! k = Some x.
Proof.
  unfold cacheGet. destruct (CACHE st !! key) as [e|]; [|done].
  destruct (expiresAt e <? now); cbn [snd CACHE]; [|done].
  rewrite lookup_delete_Some. tauto.
Qed.

(** An entry found in the cache after a request was there before, or the
    request has stored it: it was answered with the judgment of the entry,
    fresh from the remote service, which is the decoded answer to its
    prompt, and the entry lies under its key. *)
Lemma handler_cache_entry env clk req st key e :
  CACHE (handler env clk req st).1.2 !! key = Some e ->
  CACHE st !! key = Some e
  \/ exists query cands,
       (handler env clk req st).1.1
       = {| status := 200; retry_after := None;
            resp_body := RankBody false (cv_raw (value e)) (cv_parsed (value e)) |}
       /\ asks req query cands /\ key = cacheKey query cands
       /\ (callOpenAI env (buildPrompt query cands)).1 = inl (cv_raw (value e))
       /\ cv_parsed (value e) = parseReply env (cv_raw (value e))
       /\ expiresAt e = t_store clk + CACHE_TTL_MS.
Proof.
  pose proof (rateCheck_CACHE (getClientIp req) (t_rate clk) st) as HC.
  handler_paths env clk req st; cbn [snd] in HC;
    try (rewrite HC; by left); try by left.
  all: assert (Hold : forall k x, CACHE st2 !! k = Some x -> CACHE st !! k = Some x)
    by (intros k x Hk; rewrite <- HC;
        apply (cacheGet_shrinks (cacheKey q cs) (t_check clk)); by rewrite Hget).
  - intros H. left. by apply Hold.
  - unfold cacheSet. cbn [CACHE].
    destruct (decide (key = cacheKey q cs)) as [->|Hne].
    + rewrite lookup_insert_eq. intros [= <-]. right. exists q, cs.
      split; [reflexivity|].
      split; [by eapply asks_intro|]. split; [reflexivity|].
      rewrite Hcall. by repeat split.
    + rewrite lookup_insert_ne by congruence. intros H. left. by apply Hold.
  - intros H. left. by apply Hold.
Qed.

Lemma serve_cache_entry (jobs : list (Env * Clock * Request)) : forall st key e,
  CACHE (serve jobs st).2 !! key = Some e ->
  CACHE st !! key = Some e
  \/ exists (i : nat) env clk req query cands,
       jobs !! i = Some (env, clk, req)
       /\ (serve jobs st).1 !! i
          = Some {| status := 200; retry_after := None;
                    resp_body :=
                      RankBody false (cv_raw (value e)) (cv_parsed (value e)) |}
       /\ asks req query cands /\ key = cacheKey query cands
       /\ (callOpenAI env (buildPrompt query cands)).1 = inl (cv_raw (value e))
       /\ cv_parsed (value e) = parseReply env (cv_raw (value e))
       /\ expiresAt e = t_store clk + CACHE_TTL_MS.
Proof.
  induction jobs as [|[[env clk] req] rest IH]; intros st key e; [by left|].
  simpl. pose proof (handler_cache_entry env clk req st key e) as H1.
  destruct (handler env clk req st) as [[resp st1] calls]. cbn [fst snd] in H1.
  specialize (IH st1 key e). destruct (serve rest st1) as [resps st2].
  cbn [fst snd] in *. intros H.
  destruct (IH H) as [Hin|(i & env' & clk' & req' & q & cs & Hj & Hr & Hrest)].
  - destruct (H1 Hin) as [Hst|(q & cs & Hresp & Hrest)]; [by left|].
    right. exists 0%nat, env, clk, req, q, cs.
    split; [reflexivity|]. split; [by rewrite Hresp | exact Hrest].
  - right. exists (S i), env', clk', req', q, cs.
    split; [exact Hj|]. split; [exact Hr | exact Hrest].
Qed.

(** X20.  Whatever requests have been served since the start, every entry
    of the cache was stored by one of them, under its own key: a request
    that was answered with status 200 and, fresh from the remote service,
    the judgment of the entry.  The entry holds the text that the remote
    service returned for the prompt of that request together with its
    decoding, and it expires [CACHE_TTL_MS] after it was stored. *)
Theorem cache_entries_sound (jobs : list (Env * Clock * Request))
    (key : string) (e : CacheEntry) :
  CACHE (serve jobs initial).2 !! key = Some e ->
  exists (i : nat) env clk req query cands,
    jobs !! i = Some (env, clk, req)
    /\ (serve jobs initial).1 !! i
       = Some {| status := 200; retry_after := None;
                 resp_body :=
                   RankBody false (cv_raw (value e)) (cv_parsed (value e)) |}
    /\ asks req query cands /\ key = cacheKey query cands
    /\ (callOpenAI env (buildPrompt query cands)).1 = inl (cv_raw (value e))
    /\ cv_parsed (value e) = parseReply env (cv_raw (value e))
    /\ expiresAt e = t_store clk + CACHE_TTL_MS.
Proof.
  intros H. apply serve_cache_entry in H as [H|H]; [|exact H].
  simpl in H. by rewrite lookup_empty in H.
Qed.

(** *** The client of a request *)

Lemma before_comma_first (first rest : string) :
  indexOf "," first = None -> before_comma (first +:+ String "," rest) = first.
Proof.
  induction first as [|c first IH]; intros Hno.
  - reflexivity.
  - change (String c first +:+ String "," rest)
      with (String c (first +:+ String "," rest)).
    cbn [before_comma]. cbn [indexOf] in Hno.
    change (code ","%char) with 44%N in Hno.
    destruct (code c =? 44)%N; [discriminate|].
    destruct (indexOf "," first); [discriminate|]. by rewrite IH.
Qed.

Lemma before_comma_none (first : string) :
  indexOf "," first = None -> before_comma first = first.
Proof.
  induction first as [|c first IH]; intros Hno; [reflexivity|].
  cbn [before_comma]. cbn [indexOf] in Hno.
  change (code ","%char) with 44%N in Hno.
  destruct (code c =? 44)%N; [discriminate|].
  destruct (indexOf "," first); [discriminate|]. by rewrite IH.
Qed.

(** X21.  When the X-Forwarded-For header starts with an address that is
    not empty, the client of the request is this address, trimmed: the
    addresses that follow the first comma, the X-Real-IP header and the
    address of the connection do not count. *)
Theorem getClientIp_first_hop (req : Request) (first more : string) :
  truthy first = true ->
  indexOf "," first = None ->
  req_x_forwarded_for req = Some first
  \/ req_x_forwarded_for req = Some (first +:+ String "," more) ->
  getClientIp req = trim first.
Proof.
  intros Ht Hno [Hxf|Hxf]; unfold getClientIp; rewrite Hxf.
  - unfold opt_truthy. rewrite Ht. by rewrite before_comma_none.
  - assert (Hall : truthy (first +:+ String "," more) = true)
      by (destruct first; [discriminate | reflexivity]).
    unfold opt_truthy. rewrite Hall. by rewrite before_comma_first.
Qed.

(** *** Decoding the reply *)

Lemma indexOf_app (c : ascii) (pre rest : string) :
  indexOf c pre = None ->
  indexOf c (pre +:+ String c rest) = Some (String.length pre).
Proof.
  induction pre as [|d pre IH]; intros Hno.
  - change (EmptyString +:+ String c rest) with (String c rest).
    cbn [indexOf]. by rewrite N.eqb_refl.
  - change (String d pre +:+ String c rest) with (String d (pre +:+ String c rest)).
    cbn [indexOf] in *. destruct (code d =? code c)%N; [discriminate|].
    destruct (indexOf c pre); [discriminate|]. by rewrite IH.
Qed.

Lemma lastIndexOf_app (c : ascii) (pre post : string) :
  lastIndexOf c post = None ->
  lastIndexOf c (pre +:+ String c post) = Some (String.length pre).
Proof.
  intros Hno. induction pre as [|d pre IH].
  - change (EmptyString +:+ String c post) with (String c post).
    cbn [lastIndexOf]. by rewrite Hno, N.eqb_refl.
  - change (String d pre +:+ String c post) with (String d (pre +:+ String c post)).
    cbn [lastIndexOf]. by rewrite IH.
Qed.

Lemma slice0_app (a b : string) : slice0 (String.length a) (a +:+ b) = a.
Proof.
  induction a as [|c a IH]; [by destruct b|].
  change (String c a +:+ b) with (String c (a +:+ b)). simpl. by rewrite IH.
Qed.

Lemma slice_app (pre rest : string) (n : nat) :
  slice (String.length pre) (String.length pre + n) (pre +:+ rest) = slice0 n rest.
Proof.
  induction pre as [|c pre IH]; [by destruct rest|].
  change (String c pre +:+ rest) with (String c (pre +:+ rest)).
  cbn [String.length slice Nat.add].
  replace (S (String.length pre + n) - 1)%nat with (String.length pre + n)%nat by lia.
  exact IH.
Qed.

Lemma length_append (a b : string) :
  String.length (a +:+ b) = (String.length a + String.length b)%nat.
Proof.
  induction a as [|c a IH]; [reflexivity|].
  change (String c a +:+ b) with (String c (a +:+ b)). simpl. by rewrite IH.
Qed.

(** X22.  Text around the object is ignored: when the reply holds an
    object between braces, with no opening brace before it and no closing
    brace after it, the judgment is what [JSON.parse] makes of the object
    with its braces. *)
Theorem parseReply_tolerant (env : Env) (pre mid post : string) :
  indexOf "{" pre = None ->
  lastIndexOf "}" post = None ->
  parseReply env (pre +:+ String "{" (mid +:+ String "}" post))
  = JSON_parse env (String "{" (mid +:+ String "}" EmptyString)).
Proof.
  intros Hpre Hpost. unfold parseReply.
  rewrite (indexOf_app "{" pre _ Hpre).
  assert (Hs : pre +:+ String "{" (mid +:+ String "}" post)
               = (pre +:+ String "{" mid) +:+ String "}" post).
  { clear. induction pre as [|c pre IH]; [reflexivity|].
    change (String c pre +:+ String "{" (mid +:+ String "}" post))
      with (String c (pre +:+ String "{" (mid +:+ String "}" post))).
    by rewrite IH. }
  rewrite Hs at 1. rewrite (lastIndexOf_app "}" _ post Hpost).
  rewrite length_append. cbn [String.length].
  assert (Hle : (String.length pre <=? String.length pre + S (String.length mid))%nat = true)
    by (apply Nat.leb_le; lia).
  rewrite Hle.
  replace (String.length pre + S (String.length mid) + 1)%nat
    with (String.length pre + String.length (String "{" (mid +:+ String "}" EmptyString)))%nat
    by (cbn [String.length]; rewrite length_append; simpl; lia).
  rewrite slice_app.
  assert (Hobj : String "{" (mid +:+ String "}" post)
                 = String "{" (mid +:+ String "}" EmptyString) +:+ post).
  { change (String "{" (mid +:+ String "}" EmptyString) +:+ post)
      with (String "{" ((mid +:+ String "}" EmptyString) +:+ post)).
    f_equal. clear. induction mid as [|c mid IH]; [reflexivity|].
    change (String c mid +:+ String "}" post) with (String c (mid +:+ String "}" post)).
    change ((String c mid +:+ String "}" EmptyString) +:+ post)
      with (String c ((mid +:+ String "}" EmptyString) +:+ post)).
    by rewrite IH. }
  by rewrite Hobj, slice0_app.
Qed.

(** *** Requests that overlap *)

(** X23.  A request that waits for the remote service does not hold back
    a request with the same cache key that arrives in the meantime: unless
    it is rate limited, the second request misses the cache as well and
    goes on to its own remote call. *)
Theorem no_coalescing (clk1 clk2 : Clock) (req1 req2 : Request) (st st1 : State)
    (key prompt query : string) (cands : list WireCandidate) :
  handlerBegin clk1 req1 st = (Awaiting key prompt, st1) ->
  asks req2 query cands ->
  cacheKey query cands = key ->
  rr_ok (rateCheck (getClientIp req2) (t_rate clk2) st1).1 = true ->
  exists st2,
    handlerBegin clk2 req2 st1 = (Awaiting key (buildPrompt query cands), st2)
    /\ CACHE st2 !! key = None.
Proof.
  intros Hbegin (Hm2 & Hbody2 & Hq2) Hkey Hok2.
  assert (Hmiss : CACHE st1 !! key = None).
  { revert Hbegin. unfold handlerBegin.
    destruct (String.eqb (req_method req1) "POST"); simpl negb; cbv iota; [|discriminate].
    destruct (rateCheck (getClientIp req1) (t_rate clk1) st) as [rate s1].
    destruct (rr_ok rate); simpl negb; cbv iota; [|discriminate].
    destruct (opt_truthy _) as [q|]; [|discriminate].
    destruct (b_candidates _) as [cs|]; [|discriminate].
    unfold cacheGet. destruct (CACHE s1 !! cacheKey q cs) as [e|] eqn:He.
    - destruct (expiresAt e <? t_check clk1); [|discriminate].
      intros [= <- _ <-]. cbn [CACHE]. apply lookup_delete_eq.
    - intros [= <- _ <-]. exact He. }
  unfold handlerBegin. rewrite Hm2, Hbody2. simpl negb. cbv iota.
  pose proof (rateCheck_CACHE (getClientIp req2) (t_rate clk2) st1) as HC.
  destruct (rateCheck (getClientIp req2) (t_rate clk2) st1) as [rate s2].
  cbn [fst snd] in *. rewrite Hok2. simpl negb. cbv iota.
  cbn [b_query b_candidates]. unfold opt_truthy. rewrite Hq2.
  unfold cacheGet. rewrite Hkey, HC, Hmiss.
  exists s2. split; [reflexivity | by rewrite HC].
Qed.

(** *** The statements above at concrete inputs *)

Lemma handler_frame_witness :
  RATE (handler (answering 0) (arriving 500)
          (rankRequest otherClient "billing" twoLinks) exhausted).1.2 !! client
  = RATE exhausted !! client
  /\ CACHE (handler (answering 0) (arriving 1000)
              (rankRequest otherClient "admissions" listB) firstRun.1.2).1.2
       !! cacheKey "billing" twoLinks
     = CACHE firstRun.1.2 !! cacheKey "billing" twoLinks.
Proof.
  split.
  - apply (handler_frame (answering 0) (arriving 500)
             (rankRequest otherClient "billing" twoLinks) exhausted
             client (cacheKey "parking" twoLinks)).
    + discriminate.
    + intros query cands (_ & [= <- <-] & _). vm_compute. discriminate.
  - apply (handler_frame (answering 0) (arriving 1000)
             (rankRequest otherClient "admissions" listB) firstRun.1.2
             client (cacheKey "billing" twoLinks)).
    + discriminate.
    + intros query cands (_ & [= <- <-] & _). vm_compute. discriminate.
Defined.

Lemma rate_counters_bounded_witness :
  1 <= count {| count := 120; resetAt := 60000 |} <= MAX_PER_WINDOW.
Proof.
  apply (rate_counters_bounded (billingJob 0 :: burst) client).
  vm_compute. reflexivity.
Defined.

Lemma cache_entries_sound_witness :
  exists (i : nat) env clk req query cands,
    [billingJob 0; billingJob 1000] !! i = Some (env, clk, req)
    /\ (serve [billingJob 0; billingJob 1000] initial).1 !! i
       = Some {| status := 200; retry_after := None;
                 resp_body :=
                   RankBody false (Json.compact_reply 0 "best label match")
                     (Some {| p_index := IdxInt 0;
                              p_reason := Some "best label match" |}) |}
    /\ asks req query cands
    /\ cacheKey "billing" twoLinks = cacheKey query cands
    /\ (callOpenAI env (buildPrompt query cands)).1
       = inl (Json.compact_reply 0 "best label match")
    /\ Some {| p_index := IdxInt 0; p_reason := Some "best label match" |}
       = parseReply env (Json.compact_reply 0 "best label match")
    /\ 400 + CACHE_TTL_MS = t_store clk + CACHE_TTL_MS.
Proof.
  apply (cache_entries_sound [billingJob 0; billingJob 1000]
           (cacheKey "billing" twoLinks)
           {| value := {| cv_raw := Json.compact_reply 0 "best label match";
                          cv_parsed := Some {| p_index := IdxInt 0;
                                               p_reason := Some "best label match" |} |};
              expiresAt := 400 + CACHE_TTL_MS |}).
  vm_compute. reflexivity.
Defined.

Lemma getClientIp_first_hop_witness :
  getClientIp (rankRequest " 203.0.113.7 , 10.0.0.1, 10.0.0.2" "billing" twoLinks)
  = trim " 203.0.113.7 ".
Proof.
  apply (getClientIp_first_hop _ " 203.0.113.7 " " 10.0.0.1, 10.0.0.2");
    [reflexivity | reflexivity | right; reflexivity].
Defined.

Lemma parseReply_tolerant_witness :
  parseReply (answering 0)
    ("Sure, here it is: "
     +:+ String "{" ((json_quote "index" +:+ ":1," +:+ json_quote "reason" +:+ ":"
                      +:+ json_quote "nav link")
                     +:+ String "}" " Hope this helps."))
  = Some {| p_index := IdxInt 1; p_reason := Some "nav link" |}.
Proof.
  etransitivity.
  - apply (parseReply_tolerant (answering 0) "Sure, here it is: "
             (json_quote "index" +:+ ":1," +:+ json_quote "reason" +:+ ":"
              +:+ json_quote "nav link")
             " Hope this helps."); reflexivity.
  - vm_compute. reflexivity.
Defined.

Lemma no_coalescing_witness :
  exists st2,
    handlerBegin (arriving 100) (rankRequest otherClient "billing" twoLinks)
      (handlerBegin (arriving 0) (rankRequest client "billing" twoLinks) initial).2
    = (Awaiting (cacheKey "billing" twoLinks) (buildPrompt "billing" twoLinks), st2)
    /\ CACHE st2 !! cacheKey "billing" twoLinks = None.
Proof.
  apply (no_coalescing (arriving 0) (arriving 100)
           (rankRequest client "billing" twoLinks)
           (rankRequest otherClient "billing" twoLinks) initial
           (handlerBegin (arriving 0) (rankRequest client "billing" twoLinks) initial).2
           (cacheKey "billing" twoLinks) (buildPrompt "billing" twoLinks)
           "billing" twoLinks);
    [vm_compute; reflexivity | by repeat split | reflexivity | vm_compute; reflexivity].
Defined.

End ProxyFacts.

(** ** Facts about the cache key *)

Module KeyFacts.

Import Proxy Json.

Lemma append_assoc (a b c : string) : (a +:+ b) +:+ c = a +:+ (b +:+ c).
Proof.
  induction a as [|x a IH]; [reflexivity|].
  change (String x ((a +:+ b) +:+ c) = String x (a +:+ (b +:+ c))). by rewrite IH.
Qed.

(** Reading back the escape of one unit. *)
Lemma unescape_unit (c : ascii) (rest : string) :
  unescape (escape_unit c +:+ rest)
  = match unescape rest with
    | Some (t, r) => Some (String c t, r)
    | None => None
    end.
Proof. destruct c as [[] [] [] [] [] [] [] []]; reflexivity. Qed.

(** Reading back what [escape] wrote, up to the closing quote. *)
Lemma unescape_escape (s rest : string) :
  unescape (escape s +:+ String dquote rest) = Some (s, rest).
Proof.
  induction s as [|c s IH]; [reflexivity|].
  change (escape (String c s)) with (escape_unit c +:+ escape s).
  by rewrite append_assoc, unescape_unit, IH.
Qed.

(** Two quoted strings followed by anything agree only when the strings
    and what follows agree. *)
Lemma json_quote_inj (s1 s2 r1 r2 : string) :
  json_quote s1 +:+ r1 = json_quote s2 +:+ r2 -> s1 = s2 /\ r1 = r2.
Proof.
  unfold json_quote.
  change (String dquote (escape s1 +:+ String dquote "") +:+ r1)
    with (String dquote ((escape s1 +:+ String dquote "") +:+ r1)).
  change (String dquote (escape s2 +:+ String dquote "") +:+ r2)
    with (String dquote ((escape s2 +:+ String dquote "") +:+ r2)).
  rewrite !append_assoc.
  change (String dquote "" +:+ r1) with (String dquote r1).
  change (String dquote "" +:+ r2) with (String dquote r2).
  intros [= H]. apply (f_equal unescape) in H.
  rewrite !unescape_escape in H. by injection H.
Qed.

Lemma append_empty_r (a : string) : a +:+ "" = a.
Proof.
  induction a as [|x a IH]; [reflexivity|].
  change (String x (a +:+ "") = String x a). by rewrite IH.
Qed.

Lemma key_item_inj (c1 c2 : WireCandidate) (r1 r2 : string) :
  key_item c1 +:+ r1 = key_item c2 +:+ r2 -> key_pair c1 = key_pair c2 /\ r1 = r2.
Proof.
  unfold key_item, key_pair. rewrite !append_assoc. intros H.
  apply String.app_inj in H. apply json_quote_inj in H as [_ H].
  apply String.app_inj in H. apply json_quote_inj in H as [Ht H].
  apply String.app_inj in H. apply json_quote_inj in H as [_ H].
  apply String.app_inj in H. apply json_quote_inj in H as [Hh H].
  apply String.app_inj in H. by rewrite Ht, Hh.
Qed.

Lemma items_tail_cons c l :
  items_tail (c :: l)
  = key_item c +:+ match l with
                   | [] => "]}"
                   | _ :: _ => "," +:+ items_tail l
                   end.
Proof.
  unfold items_tail. destruct l as [|d l]; [reflexivity|].
  change (join "," (map key_item (c :: d :: l)))
    with (key_item c +:+ "," +:+ join "," (map key_item (d :: l))).
  by rewrite !append_assoc.
Qed.

Lemma first_unit_key_item c r : first_unit (key_item c +:+ r) = Some "{"%char.
Proof. reflexivity. Qed.

Lemma items_tail_inj (l1 : list WireCandidate) : forall l2,
  items_tail l1 = items_tail l2 -> map key_pair l1 = map key_pair l2.
Proof.
  induction l1 as [|c1 l1 IH]; intros [|c2 l2] H.
  - reflexivity.
  - rewrite items_tail_cons in H. apply (f_equal first_unit) in H.
    rewrite first_unit_key_item in H. discriminate.
  - rewrite items_tail_cons in H. apply (f_equal first_unit) in H.
    rewrite first_unit_key_item in H. discriminate.
  - rewrite !items_tail_cons in H. apply key_item_inj in H as [Hp H].
    simpl. rewrite Hp. f_equal.
    destruct l1 as [|d1 l1], l2 as [|d2 l2].
    + reflexivity.
    + apply (f_equal first_unit) in H. discriminate.
    + apply (f_equal first_unit) in H. discriminate.
    + apply String.app_inj in H. by apply IH.
Qed.

(** The cache key determines the query and what it keeps of the first 60
    candidates, and nothing else of the request. *)
Lemma cacheKey_inj q1 q2 (l1 l2 : list WireCandidate) :
  cacheKey q1 l1 = cacheKey q2 l2 <->
  q1 = q2 /\ map key_pair (firstn 60 l1) = map key_pair (firstn 60 l2).
Proof.
  split.
  - unfold cacheKey. intros H.
    apply String.app_inj in H. apply json_quote_inj in H as [_ H].
    apply String.app_inj in H. apply json_quote_inj in H as [Hq H].
    apply String.app_inj in H. apply json_quote_inj in H as [_ H].
    apply String.app_inj in H.
    split; [exact Hq|]. by apply items_tail_inj.
  - intros [-> Hl]. unfold cacheKey. do 7 f_equal.
    assert (Hitem : forall l, map key_item l
                    = map (fun p => "{" +:+ json_quote "t" +:+ ":" +:+ json_quote p.1
                             +:+ "," +:+ json_quote "h" +:+ ":" +:+ json_quote p.2 +:+ "}")
                          (map key_pair l)).
    { intros l. rewrite map_map. reflexivity. }
    by rewrite !Hitem, Hl.
Qed.

(** X1.  The cache key of two requests is the same exactly when the
    queries are equal and the first 60 candidates agree on text and href. *)
Theorem cacheKey_determines q1 q2 (l1 l2 : list WireCandidate) :
  cacheKey q1 l1 = cacheKey q2 l2 <->
  q1 = q2 /\ map key_pair (firstn 60 l1) = map key_pair (firstn 60 l2).
Proof. apply cacheKey_inj. Qed.

(** The reader of the examples on a reply with white space, on a number
    with a leading zero, which [JSON.parse] refuses, and on an integer
    beyond 2^53, which becomes the nearest double. *)
Example decode_judgment_ex :
  decode_judgment
    (" { " +:+ json_quote "index" +:+ " : -1 , " +:+ json_quote "reason" +:+ " : "
     +:+ json_quote "none" +:+ " } " +:+ String "010" "")
  = Some {| p_index := IdxInt (-1); p_reason := Some "none" |}
  /\ decode_judgment
       ("{" +:+ json_quote "index" +:+ ":01," +:+ json_quote "reason" +:+ ":"
        +:+ json_quote "none" +:+ "}")
     = None
  /\ decode_judgment
       ("{" +:+ json_quote "index" +:+ ":9007199254740993," +:+ json_quote "reason"
        +:+ ":" +:+ json_quote "none" +:+ "}")
     = Some {| p_index := IdxInt 9007199254740992; p_reason := Some "none" |}
  /\ decode_judgment (compact_reply 60 "best label match")
     = Some {| p_index := IdxInt 60; p_reason := Some "best label match" |}.
Proof. repeat split; vm_compute; reflexivity. Qed.

End KeyFacts.

(** ** Facts about the orchestration *)

Module PopupFacts.

Import Proxy Popup ProxyFacts KeyFacts.

Lemma truthy_trim query : truthy (trim query) = true -> truthy query = true.
Proof. destruct query; [discriminate | reflexivity]. Qed.

Lemma no_usable_index_not_confident parsed (cands : list WireCandidate) :
  no_usable_index parsed (length cands) = true -> confident parsed cands = false.
Proof.
  unfold no_usable_index, confident. destruct parsed as [p|]; [|reflexivity].
  destruct (p_index p) as [|z|fl]; [reflexivity| |].
  - intros H. apply orb_true_iff in H as [H|H].
    + apply Z.ltb_lt in H. apply andb_false_iff. left. apply Z.leb_gt. lia.
    + apply Z.leb_le in H. apply andb_false_iff. right. apply Z.ltb_ge. lia.
  - intros H. apply orb_true_iff in H as [H|H].
    + apply Z.ltb_lt in H. apply andb_false_iff. left. apply Z.leb_gt. lia.
    + apply Z.leb_le in H. apply andb_false_iff. right. apply Z.ltb_ge. lia.
Qed.

(** Under the guard of the popup the lookup of an integer index succeeds. *)
Lemma confident_pick p (cands : list WireCandidate) z :
  confident (Some p) cands = true -> p_index p = IdxInt z ->
  0 <= z < Z.of_nat (length cands) /\ is_Some (pick p cands).
Proof.
  unfold confident, pick. intros H Hz. rewrite Hz in *.
  apply andb_true_iff in H as [H0 Hn]. rewrite H0.
  apply Z.leb_le in H0. apply Z.ltb_lt in Hn. split; [lia|].
  apply lookup_lt_is_Some. lia.
Qed.

Lemma localFallback_no_pick w text : existsb is_pick (localFallback w text) = false.
Proof. unfold localFallback. destruct (searchReply w text); reflexivity. Qed.

(** The cases of the answer to the local search. *)
Ltac fallback_cases :=
  unfold localFallback, normalize;
  match goal with
  | |- context [searchReply ?w ?t] =>
      destruct (searchReply w t) as [|[[[] [rs|] [[|c text]|] score [[|d h]|]]|]]
  end;
  reflexivity.

(** C2.  When the relay delivers an answer of the gateway in which the
    parsed judgment is absent, or its index is absent, negative (-1
    included), or at or past the end of the truncated list that was sent,
    the popup announces no pick.  It reports that there is no confident
    match, sends the local search for the query to the content script and
    renders the answer: the listed results when the answer says [found]
    and lists them, the single result of an answer in the older format,
    and nothing found otherwise; when the local search is rejected it
    shows that the page could not be sniffed.  The list is only ever
    indexed under the guard, where the index is in range. *)
Theorem out_of_bounds_falls_back (w : World) (query : string)
    (cs : list WireCandidate) (server : RespBody) :
  truthy (trim query) = true ->
  activeTab w = Resolved tt ->
  candidatesReply w = Resolved (Some cs) ->
  (0 <? length (firstn 80 cs))%nat = true ->
  rankReply w (trim query) (firstn 80 cs)
  = Resolved (Some (Background.RankOk server)) ->
  no_usable_index (parsed_of server) (length (firstn 80 cs)) = true ->
  confident (parsed_of server) (firstn 80 cs) = false
  /\ performSearch w query
     = [UserMessage (trim query); AskCandidates;
        AskRank (trim query) (firstn 80 cs);
        ShowNoConfidentMatch
          (if truthy (raw_of server) then raw_of server
           else match parsed_of server with
                | Some p => or_else (p_reason p) ""
                | None => EmptyString
                end);
        AskSearch (trim query);
        match searchReply w (trim query) with
        | Rejected => ShowCouldNotSniff
        | Resolved reply =>
            RenderResults (trim query)
              match reply with
              | Some {| sr_found := true; sr_results := Some rs |} =>
                  {| n_found := true; n_results := map Listed rs |}
              | Some {| sr_found := true; sr_results := None;
                        sr_text := Some (String c text);
                        sr_score := score; sr_href := href |} =>
                  {| n_found := true;
                     n_results :=
                       [Legacy (match score with
                                | Some s => if s =? 0 then 20 else s
                                | None => 20
                                end)
                          (String c text)
                          (match href with
                           | Some (String d h) => Some (String d h)
                           | _ => None
                           end)] |}
              | _ => {| n_found := false; n_results := [] |}
              end
        end]
  /\ existsb is_pick (performSearch w query) = false
  /\ (forall p (cands : list WireCandidate) z,
        confident (Some p) cands = true -> p_index p = IdxInt z ->
        0 <= z < Z.of_nat (length cands) /\ is_Some (pick p cands)).
Proof.
  intros Hq Htab Hcs Hlen Hrank Hidx.
  pose proof (no_usable_index_not_confident _ (firstn 80 cs) Hidx) as Hconf.
  split; [exact Hconf|].
  assert (Hrun : performSearch w query
     = UserMessage (trim query) :: AskCandidates
       :: AskRank (trim query) (firstn 80 cs)
       :: ShowNoConfidentMatch
            (if truthy (raw_of server) then raw_of server
             else match parsed_of server with
                  | Some p => or_else (p_reason p) ""
                  | None => EmptyString
                  end)
       :: localFallback w (trim query)).
  { unfold performSearch. rewrite Hq, (truthy_trim query Hq), Htab, Hcs. simpl negb.
    cbv iota. cbn [orb].
    destruct (length (firstn 80 cs)) as [|n] eqn:Hn; [discriminate|].
    cbn [Nat.eqb]. rewrite Hrank. cbv zeta. rewrite Hconf. reflexivity. }
  split; [|split].
  - rewrite Hrun. do 4 f_equal. fallback_cases.
  - rewrite Hrun. cbn [existsb is_pick orb]. apply localFallback_no_pick.
  - intros p cands z. apply confident_pick.
Qed.

Import Examples.

Lemma out_of_bounds_falls_back_witness :
  let server :=
    RankBody false (Json.compact_reply 5 "best label match")
      (Some {| p_index := IdxInt 5; p_reason := Some "best label match" |}) in
  confident (parsed_of server) (firstn 80 twoLinks) = false
  /\ performSearch misjudged " billing "
     = [UserMessage "billing"; AskCandidates; AskRank "billing" twoLinks;
        ShowNoConfidentMatch (Json.compact_reply 5 "best label match");
        AskSearch "billing";
        RenderResults "billing"
          {| n_found := true;
             n_results :=
               [Listed {| Content.r_score := 33; Content.r_type := Content.link;
                          Content.r_text := "Pay My Bill";
                          Content.r_href := Some "/billing";
                          Content.r_region := Content.nav;
                          Content.r_tagName := "a" |}] |}]
  /\ existsb is_pick (performSearch misjudged " billing ") = false
  /\ (forall p (cands : list WireCandidate) z,
        confident (Some p) cands = true -> p_index p = IdxInt z ->
        0 <= z < Z.of_nat (length cands) /\ is_Some (pick p cands)).
Proof.
  apply (out_of_bounds_falls_back misjudged " billing " twoLinks
           (RankBody false (Json.compact_reply 5 "best label match")
              (Some {| p_index := IdxInt 5; p_reason := Some "best label match" |})));
    reflexivity.
Defined.

(** C1 (amended).  Two rank requests handled one after the other by a
    gateway that held nothing under the key of the second: when the popup
    of the second request uses an integer index of the returned judgment,
    the index is inside the list it sent.  If the answer is fresh, the
    judgment was decoded from the reply to the one prompt of this request,
    which lists that list (its first 80 entries).  If the answer comes
    from the cache, no prompt was sent for this request: the judgment is
    the one computed for the first request, whose query is the same and
    whose first 60 candidates have the same text and href; nothing more is
    known to agree between the two lists. *)
Theorem judgment_provenance (env1 env2 : Env) (clk1 clk2 : Clock)
    (req1 req2 : Request) (st0 : State) (q1 q2 : string)
    (l1 l2 : list WireCandidate) (cached : bool) (raw : string)
    (p : Parsed) (z : Z) :
  let run1 := handler env1 clk1 req1 st0 in
  let run2 := handler env2 clk2 req2 run1.1.2 in
  CACHE st0 !! cacheKey q2 l2 = None ->
  asks req1 q1 l1 -> asks req2 q2 l2 ->
  resp_body run2.1.1 = RankBody cached raw (Some p) ->
  p_index p = IdxInt z ->
  confident (Some p) l2 = true ->
  (0 <= z < Z.of_nat (length l2) /\ is_Some (pick p l2))
  /\ (cached = false ->
      run2.2 = [buildPrompt q2 l2]
      /\ callOpenAI env2 (buildPrompt q2 l2) = (inl raw, run2.2)
      /\ Some p = parseReply env2 raw)
  /\ (cached = true ->
      run2.2 = []
      /\ q1 = q2
      /\ map key_pair (firstn 60 l1) = map key_pair (firstn 60 l2)
      /\ resp_body run1.1.1 = RankBody false raw (Some p)
      /\ run1.2 = [buildPrompt q1 l1])
  /\ (forall q (l : list WireCandidate), buildPrompt q (firstn 80 l) = buildPrompt q l).
Proof.
  intros run1 run2 Hnone Ha1 Ha2 Hbody Hz Hconf.
  split; [by apply confident_pick|]. split; [|split].
  - intros ->.
    destruct (handler_fresh_stored env2 clk2 req2 run1.1.2 q2 l2 raw (Some p) Ha2 Hbody)
      as (_ & Hcall & Hparsed).
    fold run2 in Hcall. split; [|split; assumption].
    by apply callOpenAI_answer in Hcall.
  - intros ->.
    destruct (handler_cached_found env2 clk2 req2 run1.1.2 q2 l2 raw (Some p) Ha2 Hbody)
      as (Hcalls & e & He & Hv).
    split; [exact Hcalls|].
    destruct (handler_cache_origin env1 clk1 req1 st0 q1 l1 _ e Ha1 He)
      as [Hold|(Hkey & Hfresh & _)]; [congruence|].
    apply cacheKey_inj in Hkey as [Hq Hl]. rewrite Hv in Hfresh. simpl in Hfresh.
    split; [by symmetry|]. split; [by symmetry|]. split; [exact Hfresh|].
    destruct (handler_fresh_stored env1 clk1 req1 st0 q1 l1 raw (Some p) Ha1 Hfresh)
      as (_ & Hcall & _).
    by apply callOpenAI_answer in Hcall.
  - intros q l. apply buildPrompt_truncated.
Qed.

Lemma judgment_provenance_witness :
  (0 <= 60 < Z.of_nat (length listB)
   /\ is_Some (pick {| p_index := IdxInt 60; p_reason := Some "best label match" |} listB))
  /\ (true = false ->
      secondRun.2 = [buildPrompt "admissions" listB]
      /\ callOpenAI (answering 60) (buildPrompt "admissions" listB)
         = (inl (Json.compact_reply 60 "best label match"), secondRun.2)
      /\ Some {| p_index := IdxInt 60; p_reason := Some "best label match" |}
         = parseReply (answering 60) (Json.compact_reply 60 "best label match"))
  /\ (true = true ->
      secondRun.2 = []
      /\ "admissions" = "admissions"
      /\ map key_pair (firstn 60 listA) = map key_pair (firstn 60 listB)
      /\ resp_body firstRun.1.1
         = RankBody false (Json.compact_reply 60 "best label match")
             (Some {| p_index := IdxInt 60; p_reason := Some "best label match" |})
      /\ firstRun.2 = [buildPrompt "admissions" listA])
  /\ (forall q (l : list WireCandidate), buildPrompt q (firstn 80 l) = buildPrompt q l).
Proof.
  apply (judgment_provenance (answering 60) (answering 60) (arriving 0) (arriving 1000)
           (rankRequest client "admissions" listA)
           (rankRequest otherClient "admissions" listB)
           initial "admissions" "admissions" listA listB true
           (Json.compact_reply 60 "best label match")
           {| p_index := IdxInt 60; p_reason := Some "best label match" |} 60);
    first [reflexivity | repeat split; reflexivity].
Defined.

(** C1 as stated fails.  Two users ask "admissions" within a second; their
    lists agree on the first 60 candidates and differ at index 60.  The
    remote service is asked once, about the list of the first user, and
    picks index 60, "Admissions".  The second user gets that judgment from
    the cache and the popup picks entry 60 of the second list, "Parking",
    which was never shown to the remote service. *)
Lemma stale_judgment_counterexample :
  firstRun.2 = [buildPrompt "admissions" listA]
  /\ secondRun.2 = []
  /\ resp_body secondRun.1.1
     = RankBody true (Json.compact_reply 60 "best label match")
         (Some {| p_index := IdxInt 60; p_reason := Some "best label match" |})
  /\ firstn 80 listA = listA /\ firstn 80 listB = listB
  /\ listA !! 60%nat = Some (wire "Admissions" "/admissions")
  /\ listB !! 60%nat = Some (wire "Parking" "/parking")
  /\ String.eqb (buildPrompt "admissions" listA) (buildPrompt "admissions" listB) = false
  /\ performSearch secondWorld "admissions"
     = [UserMessage "admissions"; AskCandidates; AskRank "admissions" listB;
        AskSearch "Parking";
        ShowPicked (Some "Parking") "best label match" (Some "/parking")].
Proof. repeat split; vm_compute; reflexivity. Qed.

(** *** Failure of the remote stage *)

(** X5.  When the request to the relay is rejected or unanswered, or the
    relay reports a failure, the popup announces no pick: it sends the
    local search for the query to the content script and renders the
    answer (the listed results, the single result of the older format, or
    nothing found), or shows that the page could not be sniffed when the
    local search is rejected. *)
Theorem remote_failure_falls_back (w : World) (query : string)
    (cs : list WireCandidate) :
  truthy (trim query) = true ->
  activeTab w = Resolved tt ->
  candidatesReply w = Resolved (Some cs) ->
  (0 <? length (firstn 80 cs))%nat = true ->
  match rankReply w (trim query) (firstn 80 cs) with
  | Resolved (Some (Background.RankOk _)) => false
  | _ => true
  end = true ->
  performSearch w query
  = [UserMessage (trim query); AskCandidates;
     AskRank (trim query) (firstn 80 cs);
     AskSearch (trim query);
     match searchReply w (trim query) with
     | Rejected => ShowCouldNotSniff
     | Resolved reply =>
         RenderResults (trim query)
           match reply with
           | Some {| sr_found := true; sr_results := Some rs |} =>
               {| n_found := true; n_results := map Listed rs |}
           | Some {| sr_found := true; sr_results := None;
                     sr_text := Some (String c text);
                     sr_score := score; sr_href := href |} =>
               {| n_found := true;
                  n_results :=
                    [Legacy (match score with
                             | Some s => if s =? 0 then 20 else s
                             | None => 20
                             end)
                       (String c text)
                       (match href with
                        | Some (String d h) => Some (String d h)
                        | _ => None
                        end)] |}
           | _ => {| n_found := false; n_results := [] |}
           end
     end]
  /\ existsb is_pick (performSearch w query) = false.
Proof.
  intros Hq Htab Hcs Hlen Hfail.
  assert (Hrun : performSearch w query
    = UserMessage (trim query) :: AskCandidates
      :: AskRank (trim query) (firstn 80 cs) :: localFallback w (trim query)).
  { unfold performSearch. rewrite Hq, (truthy_trim query Hq), Htab, Hcs. simpl negb.
    cbv iota. cbn [orb].
    destruct (length (firstn 80 cs)) as [|n] eqn:Hn; [discriminate|].
    cbn [Nat.eqb].
    destruct (rankReply w (trim query) (firstn 80 cs)) as [|[[server|err]|]];
      first [discriminate | reflexivity]. }
  split.
  - rewrite Hrun. do 3 f_equal. fallback_cases.
  - rewrite Hrun. cbn [existsb is_pick orb]. apply localFallback_no_pick.
Qed.

Lemma remote_failure_falls_back_witness :
  performSearch offline "billing"
  = [UserMessage "billing"; AskCandidates; AskRank "billing" twoLinks;
     AskSearch "billing";
     RenderResults "billing"
       {| n_found := true;
          n_results :=
            [Listed {| Content.r_score := 33; Content.r_type := Content.link;
                       Content.r_text := "Pay My Bill";
                       Content.r_href := Some "/billing";
                       Content.r_region := Content.nav;
                       Content.r_tagName := "a" |}] |}]
  /\ existsb is_pick (performSearch offline "billing") = false.
Proof.
  apply (remote_failure_falls_back offline "billing" twoLinks); reflexivity.
Defined.

(** *** Every query ends with one answer *)

Lemma localFallback_final w text :
  exists final, localFallback w text = [AskSearch text; final] /\ is_final final = true.
Proof.
  unfold localFallback. destruct (searchReply w text); eexists; split; reflexivity.
Qed.

Lemma performSearch_blank w query :
  truthy (trim query) = false -> performSearch w query = [].
Proof.
  intros H. unfold performSearch. rewrite H. by rewrite orb_true_r.
Qed.

(** X24.  A blank query does nothing.  Any other query is echoed first
    and ends with exactly one answer (a pick, the local results or the
    could-not-sniff message), after at most one request to the gateway. *)
Theorem performSearch_answers (w : World) (query : string) :
  if truthy (trim query) then
    exists middle final,
      performSearch w query = UserMessage (trim query) :: middle ++ [final]
      /\ is_final final = true
      /\ existsb is_final middle = false
      /\ (length (List.filter is_rank middle) <= 1)%nat
  else performSearch w query = [].
Proof.
  destruct (truthy (trim query)) eqn:Hq; [|by apply performSearch_blank].
  unfold performSearch. rewrite Hq, (truthy_trim query Hq). simpl negb. cbv iota.
  cbn [orb].
  destruct (localFallback_final w (trim query)) as (ff & Hff & Hfin).
  assert (Hle : (0 <= 1)%nat /\ (1 <= 1)%nat) by lia.
  destruct (activeTab w);
    [exists [], ShowCouldNotSniff; repeat split; apply Hle|].
  destruct (candidatesReply w) as [|candidatesResp].
  { rewrite Hff. exists [AskCandidates; AskSearch (trim query)], ff.
    repeat split; [exact Hfin | apply Hle]. }
  destruct (length _ =? 0)%nat.
  { rewrite Hff. exists [AskCandidates; AskSearch (trim query)], ff.
    repeat split; [exact Hfin | apply Hle]. }
  set (sent := match candidatesResp with Some cs => firstn 80 cs | None => [] end).
  destruct (rankReply w (trim query) sent) as [|[[server|err]|]];
    try (rewrite Hff;
         exists [AskCandidates; AskRank (trim query) sent; AskSearch (trim query)], ff;
         repeat split; [exact Hfin | apply Hle]).
  destruct (confident (parsed_of server) sent).
  - destruct (parsed_of server) as [p|];
      [|exists [AskCandidates; AskRank (trim query) sent], ShowCouldNotSniff;
        repeat split; apply Hle].
    destruct (pick p sent) as [best|];
      [|exists [AskCandidates; AskRank (trim query) sent], ShowCouldNotSniff;
        repeat split; apply Hle].
    eexists [AskCandidates; AskRank (trim query) sent; AskSearch _], _.
    repeat split. apply Hle.
  - rewrite Hff.
    eexists [AskCandidates; AskRank (trim query) sent; ShowNoConfidentMatch _;
             AskSearch (trim query)], ff.
    repeat split; [exact Hfin | apply Hle].
Qed.

(** *** Picks *)

(** X25.  The popup announces a pick only for a judgment that the relay
    delivered for the first 80 collected candidates, with an integer index
    that points into this list; the label and the link that it shows are
    those of the candidate at this index. *)
Theorem picked_from_sent_list (w : World) (query : string)
    (label : option string) (reason : string) (open : option string) :
  In (ShowPicked label reason open) (performSearch w query) ->
  exists cs server p z best,
    candidatesReply w = Resolved (Some cs)
    /\ rankReply w (trim query) (firstn 80 cs)
       = Resolved (Some (Background.RankOk server))
    /\ parsed_of server = Some p /\ p_index p = IdxInt z
    /\ 0 <= z < 80 /\ cs !! Z.to_nat z = Some best
    /\ label = match opt_truthy (w_text best) with
               | Some t => Some t
               | None => w_href best
               end
    /\ reason = or_else (p_reason p) ""
    /\ open = opt_truthy (w_href best).
Proof.
  destruct (truthy (trim query)) eqn:Hq;
    [|rewrite (performSearch_blank w query Hq); intros []].
  unfold performSearch. rewrite Hq, (truthy_trim query Hq). simpl negb. cbv iota.
  cbn [orb].
  assert (Hfb : ~ In (ShowPicked label reason open) (localFallback w (trim query))).
  { unfold localFallback. destruct (searchReply w (trim query));
      intros [H|[H|[]]]; discriminate. }
  destruct (activeTab w); [intros [H|[H|[]]]; discriminate|].
  destruct (candidatesReply w) as [|[cs|]];
    try (intros [H|[H|H]]; [discriminate | discriminate | by apply Hfb in H]).
  destruct (length (firstn 80 cs) =? 0)%nat;
    [intros [H|[H|H]]; [discriminate | discriminate | by apply Hfb in H]|].
  destruct (rankReply w (trim query) (firstn 80 cs)) as [|[[server|err]|]] eqn:Hrank;
    try (intros [H|[H|[H|H]]];
         [discriminate | discriminate | discriminate | by apply Hfb in H]).
  destruct (confident (parsed_of server) (firstn 80 cs)) eqn:Hconf.
  - destruct (parsed_of server) as [p|] eqn:Hp; [|discriminate].
    unfold confident, pick in *.
    destruct (p_index p) as [|z|fl] eqn:Hz; [discriminate| |].
    + apply andb_true_iff in Hconf as [H0 Hn]. rewrite H0.
      apply Z.leb_le in H0. apply Z.ltb_lt in Hn.
      pose proof (length_firstn 80 cs) as Hlen.
      destruct (firstn 80 cs !! Z.to_nat z) as [best|] eqn:Hbest.
      * intros [H|[H|[H|[H|[H|[]]]]]]; try discriminate.
        injection H as <- <- <-.
        exists cs, server, p, z, best. repeat split; try done; try lia.
        rewrite lookup_take_Some in Hbest. tauto.
      * intros [H|[H|[H|[H|[]]]]]; discriminate.
    + intros [H|[H|[H|[H|[]]]]]; discriminate.
  - intros [H|[H|[H|[H|H]]]]; try discriminate. by apply Hfb in H.
Qed.

(** X26.  An index that is a number but not an integer passes the range
    test of the popup when it lies inside the list, yet it names no
    candidate: the query ends with the could-not-sniff message, without a
    pick, without the notice of a missing match and without the local
    search. *)
Theorem fractional_index_fails (w : World) (query : string)
    (cs : list WireCandidate) (server : RespBody) (p : Parsed) (fl : Z) :
  truthy (trim query) = true ->
  activeTab w = Resolved tt ->
  candidatesReply w = Resolved (Some cs) ->
  rankReply w (trim query) (firstn 80 cs)
  = Resolved (Some (Background.RankOk server)) ->
  parsed_of server = Some p ->
  p_index p = IdxFrac fl ->
  0 <= fl < Z.of_nat (length (firstn 80 cs)) ->
  performSearch w query
  = [UserMessage (trim query); AskCandidates;
     AskRank (trim query) (firstn 80 cs); ShowCouldNotSniff].
Proof.
  intros Hq Htab Hcs Hrank Hp Hfl Hrange.
  unfold performSearch. rewrite Hq, (truthy_trim query Hq), Htab, Hcs. simpl negb.
  cbv iota. cbn [orb].
  destruct (length (firstn 80 cs)) as [|n] eqn:Hn; [lia|]. cbn [Nat.eqb].
  rewrite Hrank, Hp. unfold confident, pick. rewrite Hfl, Hn.
  assert (H0 : (0 <=? fl) = true) by (apply Z.leb_le; lia).
  assert (H1 : (fl <? Z.of_nat (S n)) = true) by (apply Z.ltb_lt; lia).
  by rewrite H0, H1.
Qed.

(** *** The numbering of the candidates *)

Lemma prompt_lines_lookup (fuel : nat) : forall start (l : list WireCandidate) i c,
  l !! i = Some c -> (i < fuel)%nat ->
  prompt_lines start fuel l !! i = Some (prompt_line (start + i) c).
Proof.
  induction fuel as [|fuel IH]; intros start l i c Hi Hlt; [lia|].
  destruct l as [|c0 l]; [discriminate|]. destruct i as [|i]; simpl in *.
  - injection Hi as ->. by rewrite Nat.add_0_r.
  - rewrite (IH (S start) l i c Hi) by lia. do 2 f_equal. lia.
Qed.

Lemma prompt_lines_length (fuel : nat) : forall start (l : list WireCandidate),
  length (prompt_lines start fuel l) = Nat.min (length l) fuel.
Proof.
  induction fuel as [|fuel IH]; intros start [|c l]; simpl; try reflexivity.
  by rewrite IH.
Qed.

Lemma prompt_line_no_lf (i : nat) (c : WireCandidate) :
  has_lf (or_else (w_type c) "") = false ->
  has_lf (or_else (w_href c) "(no href)") = false ->
  has_lf (prompt_line i c) = false.
Proof.
  intros Ht Hh. unfold prompt_line.
  change (String dquote ?a +:+ ?b) with (String dquote (a +:+ b)).
  rewrite !JsStringFacts.has_lf_append, JsStringFacts.has_lf_of_nat, Ht. cbn [has_lf orb].
  change (code dquote =? 10)%N with false. cbn [orb].
  rewrite JsStringFacts.has_lf_append, (JsStringFacts.has_lf_slice0 240 _ (JsStringFacts.has_lf_replace_newlines _)).
  cbn [has_lf orb]. change (code dquote =? 10)%N with false.
  by rewrite JsStringFacts.has_lf_append, Hh.
Qed.

Lemma prompt_lines_no_lf (fuel : nat) : forall start (l : list WireCandidate),
  Forall (fun c => has_lf (or_else (w_type c) "") = false
                   /\ has_lf (or_else (w_href c) "(no href)") = false) l ->
  Forall (fun x => has_lf x = false) (prompt_lines start fuel l).
Proof.
  induction fuel as [|fuel IH]; intros start [|c l] Hall; simpl; try constructor.
  - apply Forall_cons in Hall as [[Ht Hh] _]. by apply prompt_line_no_lf.
  - apply Forall_cons in Hall as [_ Hall]. by apply IH.
Qed.

(** X27.  The gateway and the popup number the candidates alike.  When no
    type and no href of the candidates that the popup sends holds a line
    feed, the prompt that the gateway builds for them consists of the line
    of the query, the heading, one line for each candidate and the closing
    instruction; the line of the candidate at position [i] starts with the
    number [i], followed by its type, its label (the text without line
    feeds, cut to 240 units, between quotes) and its href, and the popup
    picks this candidate for a judgment with the index [i]. *)
Theorem prompt_index_agreement (query : string) (cs : list WireCandidate) :
  Forall (fun c => has_lf (or_else (w_type c) "") = false
                   /\ has_lf (or_else (w_href c) "(no href)") = false)
    (firstn 80 cs) ->
  exists body,
    lines (buildPrompt query (firstn 80 cs))
    = ["User query: " +:+ String "034" (replace_newlines query +:+ String "034" "");
       "Candidates (index | type | label | href):"]
      ++ body
      ++ ["Return JSON ONLY: {" +:+ String "034" ("index" +:+ String "034"
            (": <best_index_or_-1>, " +:+ String "034" ("reason" +:+ String "034"
               (":" +:+ String "034" ("brief 1-2 sentence reason"
                  +:+ String "034" "}")))))]
    /\ length body = length (firstn 80 cs)
    /\ forall (i : nat) c reason,
         firstn 80 cs !! i = Some c ->
         body !! i
         = Some (of_nat i +:+ " | " +:+ or_else (w_type c) "" +:+ " | "
                 +:+ String "034"
                       (slice0 240 (replace_newlines (or_else (w_text c) ""))
                        +:+ String "034" (" | " +:+ or_else (w_href c) "(no href)")))
         /\ pick {| p_index := IdxInt (Z.of_nat i); p_reason := reason |}
              (firstn 80 cs)
            = Some c.
Proof.
  intros Hall. exists (prompt_lines 0 80 (firstn 80 cs)).
  pose proof (length_firstn 80 cs) as Hlen.
  split; [|split].
  - unfold buildPrompt.
    change LF with (String "010" EmptyString).
    rewrite JsStringFacts.lines_join.
    + reflexivity.
    + discriminate.
    + apply Forall_app. split; [|apply Forall_app; split].
      * repeat constructor.
        change (String dquote ?a +:+ ?b) with (String dquote (a +:+ b)).
        rewrite JsStringFacts.has_lf_append. cbn [has_lf orb].
        change (code dquote =? 10)%N with false. cbn [orb].
        by rewrite JsStringFacts.has_lf_append, JsStringFacts.has_lf_replace_newlines.
      * by apply prompt_lines_no_lf.
      * repeat constructor.
  - rewrite prompt_lines_length. lia.
  - intros i c reason Hi. pose proof (lookup_lt_Some _ _ _ Hi) as Hlt. split.
    + rewrite (prompt_lines_lookup 80 0 _ i c Hi) by lia.
      reflexivity.
    + unfold pick. cbn [p_index].
      assert (H0 : (0 <=? Z.of_nat i) = true) by (apply Z.leb_le; lia).
      by rewrite H0, Nat2Z.id.
Qed.

Lemma prompt_index_agreement_witness :
  exists body,
    lines (buildPrompt "admissions" (firstn 80 listB))
    = ["User query: " +:+ String "034" (replace_newlines "admissions" +:+ String "034" "");
       "Candidates (index | type | label | href):"]
      ++ body
      ++ ["Return JSON ONLY: {" +:+ String "034" ("index" +:+ String "034"
            (": <best_index_or_-1>, " +:+ String "034" ("reason" +:+ String "034"
               (":" +:+ String "034" ("brief 1-2 sentence reason"
                  +:+ String "034" "}")))))]
    /\ length body = length (firstn 80 listB)
    /\ forall (i : nat) c reason,
         firstn 80 listB !! i = Some c ->
         body !! i
         = Some (of_nat i +:+ " | " +:+ or_else (w_type c) "" +:+ " | "
                 +:+ String "034"
                       (slice0 240 (replace_newlines (or_else (w_text c) ""))
                        +:+ String "034" (" | " +:+ or_else (w_href c) "(no href)")))
         /\ pick {| p_index := IdxInt (Z.of_nat i); p_reason := reason |}
              (firstn 80 listB)
            = Some c.
Proof.
  apply (prompt_index_agreement "admissions" listB).
  apply Forall_forall. intros c Hc.
  assert (Hno : forallb (fun c => negb (has_lf (or_else (w_type c) ""))
                                  && negb (has_lf (or_else (w_href c) "(no href)")))
                  (firstn 80 listB) = true) by (vm_compute; reflexivity).
  rewrite forallb_forall in Hno. apply list_elem_of_In, Hno in Hc.
  apply andb_true_iff in Hc as [H1 H2].
  by split; apply negb_true_iff.
Defined.

(** With a line feed in an href the prompt has a line more than there are
    candidates, and this line reads like the line of a candidate. *)
Example prompt_forged_line :
  lines (buildPrompt "help" [brokenHref])
  = ["User query: " +:+ String "034" ("help" +:+ String "034" "");
     "Candidates (index | type | label | href):";
     "0 | link | " +:+ String "034" ("Help" +:+ String "034" " | /help");
     "1 | link | x | /admin";
     "Return JSON ONLY: {" +:+ String "034" ("index" +:+ String "034"
       (": <best_index_or_-1>, " +:+ String "034" ("reason" +:+ String "034"
          (":" +:+ String "034" ("brief 1-2 sentence reason"
             +:+ String "034" "}")))))].
Proof. vm_compute. reflexivity. Qed.

(** *** The badge *)

(** X28.  The percentage on a badge lies between 0 and 100, grows with
    the score, is 0 exactly for the scores that are not positive and 100
    exactly for the scores from 35 on. *)
Theorem confidencePercent_scale (score : Z) :
  0 <= confidencePercent score <= 100
  /\ (confidencePercent score = 0 <-> score <= 0)
  /\ (confidencePercent score = 100 <-> 35 <= score)
  /\ (forall higher, score <= higher ->
        confidencePercent score <= confidencePercent higher).
Proof.
  unfold confidencePercent.
  assert (Hdiv : forall s, 70 * ((200 * s + 35) / 70) <= 200 * s + 35
                           < 70 * ((200 * s + 35) / 70) + 70).
  { intros s. pose proof (Z.div_mod (200 * s + 35) 70).
    pose proof (Z.mod_pos_bound (200 * s + 35) 70). lia. }
  pose proof (Hdiv score) as Hs.
  split; [lia|]. split; [lia|]. split; [lia|].
  intros higher Hle. pose proof (Hdiv higher) as Hh. lia.
Qed.

(** *** The popup in front of the content script *)



Lemma onPage_candidates page rank : candidatesReply (onPage page rank) = Rejected.
Proof. reflexivity. Qed.




(** *** The earlier popup *)



(** For an answer without results the two popups end their text with
    different symbols. *)
Example nothing_found_texts :
  chat (performSearch
          {| activeTab := Resolved tt; candidatesReply := Rejected;
             searchReply := fun _ => Resolved (Some (reply_of
                              {| Content.found := false; Content.results := [] |}));
             rankReply := fun _ _ => Rejected |} "zebra")
  <> legacyPerformSearch
       {| activeTab := Resolved tt; candidatesReply := Rejected;
          searchReply := fun _ => Resolved (Some (reply_of
                           {| Content.found := false; Content.results := [] |}));
          rankReply := fun _ _ => Rejected |} true "zebra".
Proof. vm_compute. discriminate. Qed.

(** *** The statements above at concrete inputs *)

Lemma picked_from_sent_list_witness :
  exists cs server p z best,
    candidatesReply secondWorld = Resolved (Some cs)
    /\ rankReply secondWorld (trim " admissions ") (firstn 80 cs)
       = Resolved (Some (Background.RankOk server))
    /\ parsed_of server = Some p /\ p_index p = IdxInt z
    /\ 0 <= z < 80 /\ cs !! Z.to_nat z = Some best
    /\ Some "Parking" = match opt_truthy (w_text best) with
                        | Some t => Some t
                        | None => w_href best
                        end
    /\ "best label match" = or_else (p_reason p) ""
    /\ Some "/parking" = opt_truthy (w_href best).
Proof.
  apply (picked_from_sent_list secondWorld " admissions "
           (Some "Parking") "best label match" (Some "/parking")).
  vm_compute. right. right. right. right. left. reflexivity.
Defined.

Lemma fractional_index_fails_witness :
  performSearch halfway "billing"
  = [UserMessage (trim "billing"); AskCandidates;
     AskRank (trim "billing") (firstn 80 twoLinks); ShowCouldNotSniff].
Proof.
  apply (fractional_index_fails halfway "billing" twoLinks
           (RankBody false "{}" (Some {| p_index := IdxFrac 0; p_reason := None |}))
           {| p_index := IdxFrac 0; p_reason := None |} 0);
    first [reflexivity | vm_compute; split; [discriminate | reflexivity]].
Defined.

End PopupFacts.
